(** * FormDefinition: schema flattening and report validation

    A shallow embedding of [form_definition.py]: the Python values the code
    inspects, the [Form*] domain value types with their [is_valid]
    predicates, the schema flattener ([_extract_question_ids],
    [_add_options], [_get_data_options], [_handle_string_format]), the
    report validator and the dataset validator, followed by the properties
    of the specification that were checked against them. *)

From stdpp Require Import gmap strings list fin_maps pretty.
From Stdlib Require Import ZArith String Ascii Permutation Lia.

#[local] Set Warnings "-register-all".
#[local] Open Scope Z_scope.

(** ** Python values *)

(** A Python [float] other than NaN: the two infinities and the finite
    values [m * 2^e]. The code only compares floats and tests them for zero,
    so the sign of zero and the rounding of binary64 are not observable and
    are not modelled. NaN is not a value of JSON, but [json.load] reads the
    literal [NaN] that Python writes; it is left out of the model, so every
    number below is one that compares as numbers do. *)
Inductive pyfloat : Type :=
  | NegInf
  | PosInf
  | Dyadic (m e : Z).

(** A Python number: an unbounded [int] or a [float]. *)
Inductive pynum : Type :=
  | PInt (z : Z)
  | PFloat (f : pyfloat).

(** A value produced by [json.load]. A [dict] keeps its insertion order and
    is an association list with distinct keys. *)
Inductive pyval : Type :=
  | VNone
  | VBool (b : bool)
  | VNum (n : pynum)
  | VStr (s : string)
  | VList (l : list pyval)
  | VDict (kvs : list (string * pyval)).

Definition float_of_num (n : pynum) : pyfloat :=
  match n with
  | PInt z => Dyadic z 0
  | PFloat f => f
  end.

(** Exact comparison, as Python compares [int] with [float]. *)
Definition float_compare (a b : pyfloat) : comparison :=
  match a, b with
  | NegInf, NegInf => Eq
  | NegInf, _ => Lt
  | _, NegInf => Gt
  | PosInf, PosInf => Eq
  | PosInf, _ => Gt
  | _, PosInf => Lt
  | Dyadic m1 e1, Dyadic m2 e2 =>
      let e := Z.min e1 e2 in
      (m1 * 2 ^ (e1 - e) ?= m2 * 2 ^ (e2 - e))
  end.

Definition num_compare (a b : pynum) : comparison :=
  float_compare (float_of_num a) (float_of_num b).

Definition num_lt (a b : pynum) : bool :=
  match num_compare a b with Lt => true | _ => false end.
Definition num_le (a b : pynum) : bool :=
  match num_compare a b with Gt => false | _ => true end.
Definition num_eq (a b : pynum) : bool :=
  match num_compare a b with Eq => true | _ => false end.

(** [min(a, b)] and [max(a, b)]: the first argument unless the second is
    strictly smaller (larger). *)
Definition py_min (a b : pynum) : pynum := if num_lt b a then b else a.
Definition py_max (a b : pynum) : pynum := if num_lt a b then b else a.

Definition neg_inf : pynum := PFloat NegInf.
Definition pos_inf : pynum := PFloat PosInf.

(** Truth value of a number: zero is false. *)
Definition num_truthy (n : pynum) : bool := negb (num_eq n (PInt 0)).

(** [x if x is not None else d] on an optional number. *)
Definition if_not_none (x : option pynum) (d : pynum) : pynum :=
  match x with
  | Some n => n
  | None => d
  end.

(** [x or d] on an optional number: [None] and zero both give [d]. *)
Definition py_or (x : option pynum) (d : pynum) : pynum :=
  match x with
  | Some n => if num_truthy n then n else d
  | None => d
  end.

(** [isinstance(v, int)]: [bool] is a subclass of [int]. *)
Definition as_int (v : pyval) : option Z :=
  match v with
  | VBool b => Some (Z.b2z b)
  | VNum (PInt z) => Some z
  | _ => None
  end.

(** [isinstance(v, (float, int))]. *)
Definition as_number (v : pyval) : option pynum :=
  match v with
  | VBool b => Some (PInt (Z.b2z b))
  | VNum n => Some n
  | _ => None
  end.

(** ** Dictionaries and strings *)

Fixpoint dict_get (kvs : list (string * pyval)) (key : string) : option pyval :=
  match kvs with
  | [] => None
  | (k, v) :: rest => if String.eqb k key then Some v else dict_get rest key
  end.

(** [d[key] = v]: an existing key keeps its position. *)
Fixpoint dict_set (kvs : list (string * pyval)) (key : string) (v : pyval)
  : list (string * pyval) :=
  match kvs with
  | [] => [(key, v)]
  | (k, w) :: rest =>
      if String.eqb k key then (k, v) :: rest else (k, w) :: dict_set rest key v
  end.

Definition dict_has (kvs : list (string * pyval)) (key : string) : bool :=
  match dict_get kvs key with Some _ => true | None => false end.

(** [v == s] for a string constant [s]. *)
Definition is_str (v : pyval) (s : string) : bool :=
  match v with
  | VStr t => String.eqb t s
  | _ => false
  end.

Definition slice_index (len i : Z) : Z :=
  if i <? 0 then Z.max 0 (i + len) else Z.min i len.

(** [s[a:b]] with Python's clamping of both ends. *)
Definition py_slice (s : string) (a b : Z) : string :=
  let len := Z.of_nat (String.length s) in
  let a' := slice_index len a in
  let b' := slice_index len b in
  substring (Z.to_nat a') (Z.to_nat (b' - a')) s.

(** [s.split(".")]. *)
Fixpoint split_dot (s : string) : list string :=
  match s with
  | EmptyString => [""]
  | String c r =>
      if Ascii.eqb c "." then "" :: split_dot r
      else match split_dot r with
           | h :: t => String c h :: t
           | [] => [String c ""]
           end
  end.

(** The characters of a string, each as a one-character string. *)
Fixpoint chars (s : string) : list string :=
  match s with
  | EmptyString => []
  | String c r => String c "" :: chars r
  end.

(** ** [datetime.strptime] for the three formats in use

    The standard library turns a format into a regular expression, one
    alternation per directive, matches it at the start of the string, takes
    the first match in backtracking order, rejects it when characters remain,
    and builds a [datetime], which checks the calendar. A parser returns
    every way of matching in that order.

    The characters of a string are single bytes. Among them [\d] matches
    the digits 0 to 9 only, as [digit_of] does; in a Python string it also
    matches the decimal digits of other scripts, which the strings of the
    model do not hold. *)

Definition parser (A : Type) : Type := string -> list (A * string).

Definition p_ret {A} (a : A) : parser A := fun s => [(a, s)].

Definition p_bind {A B} (p : parser A) (f : A -> parser B) : parser B :=
  fun s => flat_map (fun ar => f (fst ar) (snd ar)) (p s).

Definition p_alt {A} (p q : parser A) : parser A := fun s => p s ++ q s.

Definition digit_of (c : ascii) : option Z :=
  let n := Z.of_nat (nat_of_ascii c) in
  if (48 <=? n) && (n <=? 57) then Some (n - 48) else None.

(** One digit in the class [[lo-hi]]. *)
Definition p_digit (lo hi : Z) : parser Z :=
  fun s =>
    match s with
    | String c r =>
        match digit_of c with
        | Some d => if (lo <=? d) && (d <=? hi) then [(d, r)] else []
        | None => []
        end
    | EmptyString => []
    end.

(** One character accepted by [ok]. *)
Definition p_char (ok : ascii -> bool) : parser unit :=
  fun s =>
    match s with
    | String c r => if ok c then [(tt, r)] else []
    | EmptyString => []
    end.

Definition p_two (lo1 hi1 lo2 hi2 : Z) : parser Z :=
  p_bind (p_digit lo1 hi1) (fun a =>
  p_bind (p_digit lo2 hi2) (fun b => p_ret (10 * a + b))).

(** [%Y]: [\d\d\d\d]. *)
Definition re_Y : parser Z :=
  p_bind (p_two 0 9 0 9) (fun hi =>
  p_bind (p_two 0 9 0 9) (fun lo => p_ret (100 * hi + lo))).

(** [%m]: [1[0-2]|0[1-9]|[1-9]]. *)
Definition re_m : parser Z :=
  p_alt (p_two 1 1 0 2) (p_alt (p_two 0 0 1 9) (p_digit 1 9)).

(** [%d]: [3[0-1]|[1-2]\d|0[1-9]|[1-9]| [1-9]]. *)
Definition re_d : parser Z :=
  p_alt (p_two 3 3 0 1)
    (p_alt (p_two 1 2 0 9)
       (p_alt (p_two 0 0 1 9)
          (p_alt (p_digit 1 9)
             (p_bind (p_char (Ascii.eqb " ")) (fun _ => p_digit 1 9))))).

(** [%H]: [2[0-3]|[0-1]\d|\d]. *)
Definition re_H : parser Z :=
  p_alt (p_two 2 2 0 3) (p_alt (p_two 0 1 0 9) (p_digit 0 9)).

(** [%M]: [[0-5]\d|\d]. *)
Definition re_M : parser Z :=
  p_alt (p_two 0 5 0 9) (p_digit 0 9).

(** [%S]: [6[0-1]|[0-5]\d|\d]. *)
Definition re_S : parser Z :=
  p_alt (p_two 6 6 0 1) (p_alt (p_two 0 5 0 9) (p_digit 0 9)).

Definition p_lit (c : ascii) : parser unit := p_char (Ascii.eqb c).

(** The format is compiled with [re.IGNORECASE]: the letter [T] of the
    date-time format also matches [t]. *)
Definition p_lit_T : parser unit :=
  p_char (fun c => Ascii.eqb c "T" || Ascii.eqb c "t").

Definition re_Ymd : parser (Z * Z * Z) :=
  p_bind re_Y (fun y => p_bind (p_lit "-") (fun _ =>
  p_bind re_m (fun m => p_bind (p_lit "-") (fun _ =>
  p_bind re_d (fun d => p_ret (y, m, d)))))).

Definition re_HMS : parser (Z * Z * Z) :=
  p_bind re_H (fun h => p_bind (p_lit ":") (fun _ =>
  p_bind re_M (fun m => p_bind (p_lit ":") (fun _ =>
  p_bind re_S (fun s => p_ret (h, m, s)))))).

Definition re_YmdTHMS : parser ((Z * Z * Z) * (Z * Z * Z)) :=
  p_bind re_Ymd (fun date => p_bind p_lit_T (fun _ =>
  p_bind re_HMS (fun time => p_ret (date, time)))).

(** The first match, which must consume the whole string. *)
Definition full_match {A} (p : parser A) (s : string) : option A :=
  match p s with
  | (a, EmptyString) :: _ => Some a
  | _ => None
  end.

Definition is_leap (y : Z) : bool :=
  (y mod 4 =? 0) && (negb (y mod 100 =? 0) || (y mod 400 =? 0)).

Definition days_in_month (y m : Z) : Z :=
  if m =? 2 then (if is_leap y then 29 else 28)
  else if (m =? 4) || (m =? 6) || (m =? 9) || (m =? 11) then 30
  else 31.

(** The checks of the [date] constructor. *)
Definition valid_date (ymd : Z * Z * Z) : bool :=
  let '(y, m, d) := ymd in
  (1 <=? y) && (y <=? 9999) && (1 <=? m) && (m <=? 12)
  && (1 <=? d) && (d <=? days_in_month y m).

(** The checks of the [datetime] constructor on the time of day. *)
Definition valid_time (hms : Z * Z * Z) : bool :=
  let '(h, m, s) := hms in
  (0 <=? h) && (h <=? 23) && (0 <=? m) && (m <=? 59)
  && (0 <=? s) && (s <=? 59).

(** [datetime.strptime(s, "%Y-%m-%d")] returns (does not raise [ValueError]). *)
Definition strptime_date (s : string) : bool :=
  match full_match re_Ymd s with
  | Some ymd => valid_date ymd
  | None => false
  end.

(** [datetime.strptime(s, "%H:%M:%S")] returns. *)
Definition strptime_time (s : string) : bool :=
  match full_match re_HMS s with
  | Some hms => valid_time hms
  | None => false
  end.

(** [datetime.strptime(s, "%Y-%m-%dT%H:%M:%S")] returns. *)
Definition strptime_datetime (s : string) : bool :=
  match full_match re_YmdTHMS s with
  | Some (ymd, hms) => valid_date ymd && valid_time hms
  | None => false
  end.

(** ** Exceptions and results *)

(** A literal of an enumeration, or [True], [False], [None]: the hashable
    scalars a possible-options set can hold besides the [Form*] objects. *)
Inductive literal : Type :=
  | LNone
  | LBool (b : bool)
  | LNum (n : pynum)
  | LStr (s : string).

(** A member of a possible-options set: a literal, or an instance of one of
    the six classes. [FormInteger] and [FormNumber] carry their [minimum]
    and [maximum] attributes. *)
Inductive option_value : Type :=
  | Lit (l : literal)
  | FormInteger (minimum maximum : option pynum)
  | FormNumber (minimum maximum : option pynum)
  | FormString
  | FormDate
  | FormTime
  | FormDateTime.

(** What a [ValueError] of the validator says. The wording of the message is
    not modelled, its content is. *)
Inductive message : Type :=
  | UnsupportedDataType (data_type : pyval)
  | ParagraphCount (found : nat)
  | IdMismatch (id expected_id : string)
  | DuplicateId (id report_id : string)
  | UndefinedQuestion (question_id : string)
  | UnsupportedAnswerType (answer_type : pyval)
  | AnswerFormat (text start : pyval)
  | AnswerEmptyOrNegative (text start : pyval)
  | AnswerNotFound (text start : pyval)
  | ComplexFormat (text start : pyval)
  | ComplexLength (text start : pyval)
  | InvalidValue (value : pyval) (question_id : string)
      (valid_options : list option_value)
  | Text (s : string).

Inductive exn : Type :=
  | ValueError (m : message)
  | ValidationError (m : string)
  | SchemaError (m : string)
  | KeyError (key : string)
  | TypeError (what : string)
  | AttributeError (what : string)
  | OutsideModel (what : string).

Inductive result (A : Type) : Type :=
  | OK (a : A)
  | Raise (e : exn).
Arguments OK {A} a.
Arguments Raise {A} e.

Definition bind {A B} (r : result A) (k : A -> result B) : result B :=
  match r with
  | OK a => k a
  | Raise e => Raise e
  end.

Declare Scope result_scope.
Delimit Scope result_scope with result.
Notation "x <- r ;; k" := (bind r (fun x => k))
  (at level 100, r at next level, right associativity) : result_scope.
#[local] Open Scope result_scope.

Section for_each.
Context {A S : Type} (body : A -> S -> result S).

(** A [for] loop whose body may raise. *)
Fixpoint for_each (l : list A) (st : S) : result S :=
  match l with
  | [] => OK st
  | x :: rest =>
      match body x st with
      | OK st' => for_each rest st'
      | Raise e => Raise e
      end
  end.
End for_each.

(** ** Domain value types *)

(** [v == l] for a JSON value and a literal: numbers and booleans compare by
    value, a list or a dict equals no literal. *)
Definition eq_literal (v : pyval) (l : literal) : bool :=
  match v, l with
  | VNone, LNone => true
  | VStr s, LStr t => String.eqb s t
  | VList _, _ | VDict _, _ => false
  | _, _ =>
      match as_number v, l with
      | Some a, LBool b => num_eq a (PInt (Z.b2z b))
      | Some a, LNum n => num_eq a n
      | _, _ => false
      end
  end.

(** The literal of a hashable JSON value. *)
Definition as_literal (v : pyval) : option literal :=
  match v with
  | VNone => Some LNone
  | VBool b => Some (LBool b)
  | VNum n => Some (LNum n)
  | VStr s => Some (LStr s)
  | VList _ | VDict _ => None
  end.

Definition literal_value (l : literal) : pyval :=
  match l with
  | LNone => VNone
  | LBool b => VBool b
  | LNum n => VNum n
  | LStr s => VStr s
  end.

(** The class attribute [data_type]. *)
Definition data_type (op : option_value) : option string :=
  match op with
  | Lit _ => None
  | FormInteger _ _ => Some "integer"
  | FormNumber _ _ => Some "number"
  | FormString => Some "string"
  | FormDate => Some "date"
  | FormTime => Some "time"
  | FormDateTime => Some "date-time"
  end.

(** The range test shared by [FormInteger.is_valid] and
    [FormNumber.is_valid]. *)
Definition in_range (minimum maximum : option pynum) (var : pynum) : bool :=
  match minimum with None => true | Some lo => num_le lo var end
  && match maximum with None => true | Some hi => num_le var hi end.

(** [op.is_valid(var)] for an instance [op] of a [Form*] class; a literal
    has no such method and the callers never ask. *)
Definition is_valid (op : option_value) (var : pyval) : bool :=
  match op with
  | Lit _ => false
  | FormDate => match var with VStr s => strptime_date s | _ => false end
  | FormDateTime => match var with VStr s => strptime_datetime s | _ => false end
  | FormTime => match var with VStr s => strptime_time s | _ => false end
  | FormString => match var with VStr _ => true | _ => false end
  | FormInteger minimum maximum =>
      match as_int var with
      | Some z => in_range minimum maximum (PInt z)
      | None => false
      end
  | FormNumber minimum maximum =>
      match as_number var with
      | Some n => in_range minimum maximum n
      | None => false
      end
  end.

(** ** Possible-options sets

    A Python [set] is kept as the list of its members in insertion order;
    the position of a [Form*] object is its identity. The order in which
    Python iterates over a set depends on hashes and is left open: it is any
    enumeration of the positions. *)
Record set_iteration : Type := {
  iter_order : list option_value -> list nat;
  iter_perm : forall s, Permutation (iter_order s) (seq 0 (List.length s))
}.

(** Iteration in insertion order, for the examples. *)
Definition insertion_order : set_iteration :=
  {| iter_order := fun s => seq 0 (List.length s);
     iter_perm := fun s => Permutation_refl (seq 0 (List.length s)) |}.

(** The members with their positions, in iteration order. *)
Definition iterate (O : set_iteration) (s : list option_value)
  : list (nat * option_value) :=
  omap (fun i => option_map (pair i) (s !! i)) (iter_order O s).

(** Membership as [set.add] and [in] decide it: literals by [==], objects
    by identity (a new object is never in the set). *)
Definition set_mem (x : option_value) (s : list option_value) : bool :=
  match x with
  | Lit l =>
      existsb (fun y => match y with
                        | Lit l' => eq_literal (literal_value l) l'
                        | _ => false
                        end) s
  | _ => false
  end.

Definition set_add (x : option_value) (s : list option_value)
  : list option_value :=
  if set_mem x s then s else s ++ [x].

(** [isinstance(opt, type(new_option)) and not isinstance(opt, str)]. *)
Definition same_kind (new_option opt : option_value) : bool :=
  match new_option, opt with
  | Lit LNone, Lit LNone => true
  | Lit (LBool _), Lit (LBool _) => true
  | Lit (LNum (PInt _)), Lit (LNum (PInt _)) => true
  | Lit (LNum (PInt _)), Lit (LBool _) => true
  | Lit (LNum (PFloat _)), Lit (LNum (PFloat _)) => true
  | FormInteger _ _, FormInteger _ _ => true
  | FormNumber _ _, FormNumber _ _ => true
  | FormString, FormString => true
  | FormDate, FormDate => true
  | FormTime, FormTime => true
  | FormDateTime, FormDateTime => true
  | _, _ => false
  end.

(** Truth value of a member; the [Form*] classes define neither [__bool__]
    nor [__len__]. *)
Definition truthy (op : option_value) : bool :=
  match op with
  | Lit LNone => false
  | Lit (LBool b) => b
  | Lit (LNum n) => num_truthy n
  | Lit (LStr s) => negb (String.eqb s "")
  | _ => true
  end.

(** The bounds written into the existing instance by a merge. *)
Definition merged_minimum (existing new : option pynum) : pynum :=
  py_min (if_not_none existing neg_inf) (if_not_none new neg_inf).
Definition merged_maximum (existing new : option pynum) : pynum :=
  py_max (py_or existing pos_inf) (py_or new pos_inf).

(** One turn of the loop of [_add_options] on the set of one question. *)
Definition add_option (O : set_iteration) (new_option : option_value)
    (s : list option_value) : list option_value :=
  let existing_option :=
    List.find (fun io => same_kind new_option (snd io)) (iterate O s) in
  match new_option, existing_option with
  | FormInteger new_min new_max, Some (i, FormInteger old_min old_max) =>
      <[i := FormInteger (Some (merged_minimum old_min new_min))
                         (Some (merged_maximum old_max new_max))]> s
  | FormNumber new_min new_max, Some (i, FormNumber old_min old_max) =>
      <[i := FormNumber (Some (merged_minimum old_min new_min))
                        (Some (merged_maximum old_max new_max))]> s
  | _, Some (_, existing) => if truthy existing then s else set_add new_option s
  | _, None => set_add new_option s
  end.

(** ** The schema flattener *)

Record FormDefinition : Type := {
  schema : pyval;
  question_ids : gset string;
  possible_options : gmap string (list option_value)
}.

(** [_add_options]: [options] is a set, iterated in the open order. *)
Definition _add_options (O : set_iteration) (self : FormDefinition)
    (question_id : string) (options : list option_value) : FormDefinition :=
  let current :=
    match possible_options self !! question_id with
    | Some s => s
    | None => []
    end in
  let updated :=
    fold_left (fun s new_option => add_option O new_option s)
      (map snd (iterate O options)) current in
  {| schema := schema self;
     question_ids := question_ids self;
     possible_options := <[question_id := updated]> (possible_options self) |}.

(** [data_property.get(key)] as a bound of a range. The code stores whatever
    the schema holds; a schema gives a number (a boolean counts as 0 or 1)
    or nothing, and other values are left out of the model: for them the
    model raises [OutsideModel] here, where the code keeps the value and
    raises [TypeError] if it later compares it with a number. *)
Definition get_bound (data_property : list (string * pyval)) (key : string)
  : result (option pynum) :=
  match dict_get data_property key with
  | None | Some VNone => OK None
  | Some (VBool b) => OK (Some (PInt (Z.b2z b)))
  | Some (VNum n) => OK (Some n)
  | Some _ => Raise (OutsideModel "bound that is not a number")
  end.

(** The set built from the members of [data_property["enum"]]. *)
Definition enum_options (enum : pyval) : result (list option_value) :=
  match enum with
  | VList items =>
      for_each (fun op s =>
                  match as_literal op with
                  | Some l => OK (set_add (Lit l) s)
                  | None => Raise (TypeError "unhashable type")
                  end) items []
  | VStr s => OK (fold_left (fun acc c => set_add (Lit (LStr c)) acc) (chars s) [])
  | VDict kvs =>
      OK (fold_left (fun acc kv => set_add (Lit (LStr (fst kv))) acc) kvs [])
  | _ => Raise (TypeError "object is not iterable")
  end.

Definition has_format (data_property : list (string * pyval)) (fmt : string)
  : bool :=
  match dict_get data_property "format" with
  | Some v => is_str v fmt
  | None => false
  end.

Definition _handle_string_format (data_property : list (string * pyval))
  : result (list option_value) :=
  if has_format data_property "date" then OK [FormDate]
  else if has_format data_property "time" then OK [FormTime]
  else if has_format data_property "date-time" then OK [FormDateTime]
  else match dict_get data_property "enum" with
       | Some enum => enum_options enum
       | None => OK [FormString]
       end.

Definition _get_data_options (data_type : pyval)
    (data_property : list (string * pyval)) : result (list option_value) :=
  if is_str data_type "boolean" then OK [Lit (LBool true); Lit (LBool false)]
  else if is_str data_type "integer" then
    lo <- get_bound data_property "minimum";;
    hi <- get_bound data_property "maximum";;
    OK [FormInteger lo hi]
  else if is_str data_type "number" then
    lo <- get_bound data_property "minimum";;
    hi <- get_bound data_property "maximum";;
    OK [FormNumber lo hi]
  else if is_str data_type "null" then OK [Lit LNone]
  else if is_str data_type "string" then _handle_string_format data_property
  else Raise (ValueError (UnsupportedDataType data_type)).

Definition add_question_id (self : FormDefinition) (question_id : string)
  : FormDefinition :=
  {| schema := schema self;
     question_ids := {[question_id]} ∪ question_ids self;
     possible_options := possible_options self |}.

(** [f"{base_id}.{prop_id}" if base_id else prop_id]. *)
Definition child_id (base_id prop_id : string) : string :=
  if String.eqb base_id "" then prop_id
  else String.append base_id (String.append "." prop_id).

(** The branch [if "type" in data and data['type'] != 'object']. *)
Definition register_types (O : set_iteration) (ty : pyval)
    (data : list (string * pyval)) (base_id : string) (self : FormDefinition)
  : result FormDefinition :=
  let data_types := match ty with VList l => l | _ => [ty] end in
  self' <- for_each (fun dtype self =>
                       options <- _get_data_options dtype data;;
                       OK (_add_options O self base_id options))
                    data_types self;;
  OK (add_question_id self' base_id).

(** The branch [elif "enum" in data]. *)
Definition register_enum (O : set_iteration) (data : list (string * pyval))
    (base_id : string) (self : FormDefinition) : result FormDefinition :=
  options <- _get_data_options (VStr "string") data;;
  OK (add_question_id (_add_options O self base_id options) base_id).

(** Which branch the registration takes on a mapping. *)
Inductive registration : Type :=
  | ByType (ty : pyval)
  | ByEnum
  | NoRegistration.

Definition registration_of (data : list (string * pyval)) : registration :=
  match dict_get data "type" with
  | Some ty =>
      if negb (is_str ty "object") then ByType ty
      else if dict_has data "enum" then ByEnum else NoRegistration
  | None => if dict_has data "enum" then ByEnum else NoRegistration
  end.

(** The registration that follows each key of a mapping [data]: the
    [if ... elif ...] at the end of the loop body. *)
Definition register (O : set_iteration) (data : list (string * pyval))
    (base_id : string) (self : FormDefinition) : result FormDefinition :=
  match registration_of data with
  | ByType ty => register_types O ty data base_id self
  | ByEnum => register_enum O data base_id self
  | NoRegistration => OK self
  end.

(** [for prop_id in value] followed by [value[prop_id]] when [value] is not
    a mapping. A non-empty list is left out of the model. *)
Definition properties_not_a_dict (value : pyval) (self : FormDefinition)
  : result FormDefinition :=
  match value with
  | VStr s =>
      if String.eqb s "" then OK self
      else Raise (TypeError "string indices must be integers")
  | VList [] => OK self
  | VList _ => Raise (OutsideModel "properties given as a list")
  | _ => Raise (TypeError "object is not iterable")
  end.

(** [_extract_question_ids]: the registration is inside the loop over the
    items of the mapping and runs once per key. *)
Fixpoint _extract_question_ids (O : set_iteration) (data : pyval)
    (base_id : string) (self : FormDefinition) {struct data}
  : result FormDefinition :=
  match data with
  | VDict kvs =>
      for_each
        (fun kv self =>
           self1 <-
             (if String.eqb (fst kv) "properties" then
                match snd kv with
                | VDict props =>
                    for_each
                      (fun p self =>
                         _extract_question_ids O (snd p)
                           (child_id base_id (fst p)) self)
                      props self
                | value => properties_not_a_dict value self
                end
              else _extract_question_ids O (snd kv) base_id self);;
           register O kvs base_id self1)
        kvs self
  | VList items =>
      for_each (fun item self => _extract_question_ids O item base_id self)
        items self
  | _ => OK self
  end.

(** [__init__] after [json.load]. *)
Definition new_FormDefinition (O : set_iteration) (schema : pyval)
  : result FormDefinition :=
  _extract_question_ids O schema ""
    {| schema := schema; question_ids := ∅; possible_options := ∅ |}.

(** ** Reports *)

Record answer : Type := {
  answer_type : pyval;
  text : pyval;
  answer_start : pyval
}.

Record qa : Type := {
  qa_id : string;
  question_id : string;
  enumeration_value_id : pyval;
  answers : list answer
}.

Record paragraph : Type := {
  context : string;
  qas : list qa
}.

Record report : Type := {
  report_id : string;
  paragraphs : list paragraph
}.

(** ** The report validator *)

Definition _validate_qa (self : FormDefinition) (q : qa) (r : report)
    (used_ids : gset string) : result (gset string) :=
  let expected_id := String.append (report_id r) (String.append "_" (question_id q)) in
  if negb (String.eqb (qa_id q) expected_id) then
    Raise (ValueError (IdMismatch (qa_id q) expected_id))
  else if bool_decide (qa_id q ∈ used_ids) then
    Raise (ValueError (DuplicateId (qa_id q) (report_id r)))
  else if negb (bool_decide (question_id q ∈ question_ids self)) then
    Raise (ValueError (UndefinedQuestion (question_id q)))
  else OK ({[qa_id q]} ∪ used_ids).

Definition str_len (s : string) : Z := Z.of_nat (String.length s).

Definition _validate_single_answer (a : answer) (context : string)
  : result unit :=
  match text a, as_int (answer_start a) with
  | VStr t, Some start =>
      if negb ((1 <=? str_len t) && (0 <=? start)) then
        Raise (ValueError (AnswerEmptyOrNegative (text a) (answer_start a)))
      else if negb (String.eqb (py_slice context start (start + str_len t)) t) then
        Raise (ValueError (AnswerNotFound (text a) (answer_start a)))
      else OK tt
  | _, _ => Raise (ValueError (AnswerFormat (text a) (answer_start a)))
  end.

(** [zip(texts, starts)]. *)
Fixpoint zip (texts starts : list pyval) : list (pyval * pyval) :=
  match texts, starts with
  | t :: texts', s :: starts' => (t, s) :: zip texts' starts'
  | _, _ => []
  end.

Definition _validate_complex_answer (a : answer) (context : string)
  : result unit :=
  match text a, answer_start a with
  | VList texts, VList starts =>
      if negb (Nat.eqb (List.length texts) (List.length starts))
         || Nat.leb (List.length texts) 1 then
        Raise (ValueError (ComplexLength (text a) (answer_start a)))
      else
        for_each
          (fun ts _ =>
             _validate_single_answer
               {| answer_type := VNone; text := fst ts; answer_start := snd ts |}
               context)
          (zip texts starts) tt
  | _, _ => Raise (ValueError (ComplexFormat (text a) (answer_start a)))
  end.

Definition _validate_evidences (q : qa) (context : string) : result unit :=
  for_each
    (fun a _ =>
       if is_str (answer_type a) "single" then _validate_single_answer a context
       else if is_str (answer_type a) "complex" then
         _validate_complex_answer a context
       else Raise (ValueError (UnsupportedAnswerType (answer_type a))))
    (answers q) tt.

(** [isinstance(op, (FormNumber, FormInteger, FormDate, FormDateTime,
    FormTime, FormString))]. *)
Definition is_form (op : option_value) : bool :=
  match op with
  | Lit _ => false
  | _ => true
  end.

(** [value == op]: an instance of a [Form*] class equals no JSON value. *)
Definition value_eq (value : pyval) (op : option_value) : bool :=
  match op with
  | Lit l => eq_literal value l
  | _ => false
  end.

Definition _validate_enumeration_value_ids (self : FormDefinition) (q : qa)
  : result unit :=
  match possible_options self !! question_id q with
  | None => Raise (KeyError (question_id q))
  | Some options =>
      let value := enumeration_value_id q in
      if existsb (fun op => value_eq value op || (is_form op && is_valid op value))
           options
      then OK tt
      else Raise (ValueError (InvalidValue value (question_id q) options))
  end.

(** The walk of [_validate_against_schema] along [parts] from [current],
    ending with the assignment of [value]. *)
Fixpoint set_path (parts : list string) (value : pyval) (current : pyval)
  : result pyval :=
  match parts with
  | [] => OK current
  | [last] =>
      match current with
      | VDict kvs => OK (VDict (dict_set kvs last value))
      | _ => Raise (TypeError "object does not support item assignment")
      end
  | part :: rest =>
      match current with
      | VDict kvs =>
          let child := match dict_get kvs part with
                       | Some c => c
                       | None => VDict []
                       end in
          child' <- set_path rest value child;;
          OK (VDict (dict_set kvs part child'))
      | _ => Raise (AttributeError "setdefault")
      end
  end.

Section validation.
(** The external structural validator [jsonschema.validate(instance,
    schema)]: it returns, or raises the exception given here. *)
Context (validate : pyval -> pyval -> option exn).

Definition _validate_against_schema (self : FormDefinition) (p : paragraph)
  : result unit :=
  resq_form_answers <-
    for_each (fun q current =>
                set_path (split_dot (question_id q)) (enumeration_value_id q)
                  current)
             (qas p) (VDict []);;
  match validate resq_form_answers (schema self) with
  | None => OK tt
  | Some e => Raise e
  end.

(** The first loop of [validate_report]: the set keeps the ids added
    before a failure. *)
Fixpoint validate_qas (self : FormDefinition) (r : report) (l : list qa)
    (used_ids : gset string) : gset string * result unit :=
  match l with
  | [] => (used_ids, OK tt)
  | q :: rest =>
      match _validate_qa self q r used_ids with
      | OK used_ids' => validate_qas self r rest used_ids'
      | Raise e => (used_ids, Raise e)
      end
  end.

(** [validate_report] on the set object [used_ids] it works with. *)
Definition validate_report_with (self : FormDefinition) (r : report)
    (required_fields_validation : bool) (used_ids : gset string)
  : gset string * result unit :=
  match paragraphs r with
  | [p] =>
      let '(used_ids', checked) := validate_qas self r (qas p) used_ids in
      (used_ids',
       _ <- checked;;
       _ <- for_each (fun q _ => _validate_evidences q (context p)) (qas p) tt;;
       _ <- for_each (fun q _ => _validate_enumeration_value_ids self q)
              (qas p) tt;;
       if required_fields_validation then _validate_against_schema self p
       else OK tt)
  | ps => (used_ids, Raise (ValueError (ParagraphCount (List.length ps))))
  end.

(** [used_ids = used_ids or set()]: an argument that is [None] or an empty
    set is replaced by a new set, and only a non-empty argument is the
    object the function then mutates. *)
Definition works_on_argument (used_ids : option (gset string)) : bool :=
  match used_ids with
  | Some s => negb (bool_decide (s = ∅))
  | None => false
  end.

(** [validate_report]: the result is the state of the caller's set after
    the call, with what the call returned or raised. *)
Definition validate_report (self : FormDefinition) (r : report)
    (required_fields_validation : bool) (used_ids : option (gset string))
  : option (gset string) * result unit :=
  match used_ids with
  | Some s =>
      if works_on_argument used_ids then
        let '(s', res) :=
          validate_report_with self r required_fields_validation s in
        (Some s', res)
      else
        (used_ids,
         snd (validate_report_with self r required_fields_validation ∅))
  | None =>
      (None, snd (validate_report_with self r required_fields_validation ∅))
  end.

(** ** The dataset validator *)

Inductive log_record : Type :=
  | LogError (report_id : string) (m : message)
  | LogInfo (text : string).

Definition summary (invalid_report_count total : nat) : string :=
  String.append (pretty invalid_report_count)
    (String.append "/" (String.append (pretty total) " reports were invalid.")).

(** The loop of [validate_dataset]: the caller's set, the counter and the
    log so far; an exception that no [except] clause names leaves the
    loop. *)
Fixpoint validate_reports (self : FormDefinition) (reports : list report)
    (required_fields_validation : bool) (used_ids : gset string)
    (invalid_report_count : nat) (log : list log_record)
  : list log_record * result nat :=
  match reports with
  | [] => (log, OK invalid_report_count)
  | r :: rest =>
      let '(used_ids', res) :=
        validate_report self r required_fields_validation (Some used_ids) in
      let used_ids' := match used_ids' with Some s => s | None => used_ids end in
      match res with
      | OK _ =>
          validate_reports self rest required_fields_validation used_ids'
            invalid_report_count log
      | Raise (ValidationError m) =>
          validate_reports self rest required_fields_validation used_ids'
            (S invalid_report_count) (log ++ [LogError (report_id r) (Text m)])
      | Raise (ValueError m) =>
          validate_reports self rest required_fields_validation used_ids'
            (S invalid_report_count) (log ++ [LogError (report_id r) m])
      | Raise e => (log, Raise e)
      end
  end.

(** [validate_dataset]: the records logged, and whether the call returned
    or raised. *)
Definition validate_dataset (self : FormDefinition) (dataset : list report)
    (required_fields_validation : bool) : list log_record * result unit :=
  match validate_reports self dataset required_fields_validation ∅ 0%nat []
  with
  | (log, OK invalid_report_count) =>
      (log ++ [LogInfo (summary invalid_report_count (List.length dataset))],
       OK tt)
  | (log, Raise e) => (log, Raise e)
  end.
End validation.

(** ** The query helper *)

Definition is_str_literal (op : option_value) : bool :=
  match op with
  | Lit (LStr _) => true
  | _ => false
  end.

Definition has_data_type (dtype : string) (op : option_value) : bool :=
  is_form op
  && match data_type op with
     | Some d => String.eqb d dtype
     | None => false
     end.

Definition question_includes_datatype (self : FormDefinition)
    (question_id : string) (dtype : string) : result bool :=
  match possible_options self !! question_id with
  | None => Raise (KeyError question_id)
  | Some options =>
      if String.eqb dtype "boolean" then
        OK (set_mem (Lit (LBool true)) options
            || set_mem (Lit (LBool false)) options)
      else if String.eqb dtype "null" then OK (set_mem (Lit LNone) options)
      else if String.eqb dtype "enum" then OK (existsb is_str_literal options)
      else OK (existsb (has_data_type dtype) options)
  end.

(** ** Vocabulary of the properties *)

(** What equals [True] or [False]: the two booleans and the numbers 1 and
    0. *)
Definition equals_a_boolean (l : literal) : bool :=
  match l with
  | LBool _ => true
  | LNum n => num_eq n (PInt 1) || num_eq n (PInt 0)
  | _ => false
  end.

Definition add_all (O : set_iteration) (options s : list option_value)
  : list option_value :=
  fold_left (fun s new_option => add_option O new_option s)
    (map snd (iterate O options)) s.

Definition is_FormInteger (op : option_value) : bool :=
  match op with
  | FormInteger _ _ => true
  | _ => false
  end.

(** A maximum that [x or float('inf')] leaves as it is. *)
Definition absent_or_nonzero (x : option pynum) : Prop :=
  match x with
  | Some n => num_truthy n = true
  | None => True
  end.

Definition empty_FormDefinition : FormDefinition :=
  {| schema := VNone; question_ids := ∅; possible_options := ∅ |}.

(** The turns of the loop over the items of a mapping, in the order the walk
    takes them: each is the path and the mapping at which the registration
    runs. The path grows through the keys of a "properties" mapping only. *)
Fixpoint visits (data : pyval) (base_id : string)
  : list (string * list (string * pyval)) :=
  match data with
  | VDict kvs =>
      flat_map
        (fun kv =>
           (if String.eqb (fst kv) "properties" then
              match snd kv with
              | VDict props =>
                  flat_map
                    (fun p => visits (snd p) (child_id base_id (fst p)))
                    props
              | _ => []
              end
            else visits (snd kv) base_id)
           ++ [(base_id, kvs)])
        kvs
  | VList items => flat_map (fun item => visits item base_id) items
  | _ => []
  end.

(** The mapping declares a "type" other than "object", or an "enum". *)
Definition declares_type_or_enum (data : list (string * pyval)) : bool :=
  match dict_get data "type" with
  | Some ty => negb (is_str ty "object")
  | None => false
  end
  || dict_has data "enum".

Definition data_types_of (ty : pyval) : list pyval :=
  match ty with
  | VList l => l
  | _ => [ty]
  end.

Definition yields_option (data : list (string * pyval)) (dtype : pyval) : bool :=
  match _get_data_options dtype data with
  | OK (_ :: _) => true
  | _ => false
  end.

(** The declaration of the mapping gives at least one option. *)
Definition declares_option (data : list (string * pyval)) : bool :=
  match registration_of data with
  | ByType ty => existsb (yields_option data) (data_types_of ty)
  | ByEnum => yields_option data (VStr "string")
  | NoRegistration => false
  end.

Definition run_visits (O : set_iteration)
    (l : list (string * list (string * pyval))) (self : FormDefinition)
  : result FormDefinition :=
  for_each (fun v self => register O (snd v) (fst v) self) l self.

Definition runs_its_visits (O : set_iteration) (data : pyval) : Prop :=
  forall base_id self self',
    _extract_question_ids O data base_id self = OK self' ->
    run_visits O (visits data base_id) self = OK self'.

(** Every key is kept and a non-empty set stays non-empty. *)
Definition keeps_options (self self' : FormDefinition) : Prop :=
  forall q s,
    possible_options self !! q = Some s ->
    exists s', possible_options self' !! q = Some s' /\ (s <> [] -> s' <> []).

Definition has_option (self : FormDefinition) (q : string) : Prop :=
  exists s, possible_options self !! q = Some s /\ s <> [].

Definition add_declared (O : set_iteration) (data : list (string * pyval))
    (base_id : string) (dtype : pyval) (self : FormDefinition)
  : result FormDefinition :=
  options <- _get_data_options dtype data;;
  OK (_add_options O self base_id options).

Definition ids_have_options (self : FormDefinition) : Prop :=
  forall p, p ∈ question_ids self -> is_Some (possible_options self !! p).

(** What [__init__] leaves in [self] when it returns. *)
Definition built (O : set_iteration) (schema : pyval) : FormDefinition :=
  match new_FormDefinition O schema with
  | OK fd => fd
  | Raise _ => {| schema := schema; question_ids := ∅; possible_options := ∅ |}
  end.

Definition schema_two_leaves : pyval :=
  VDict [("type"%string, VStr "object");
         ("properties"%string,
          VDict [("onset"%string,
                  VDict [("type"%string, VStr "string");
                         ("format"%string, VStr "date")]);
                 ("nihss"%string,
                  VDict [("type"%string, VStr "integer");
                         ("minimum"%string, VNum (PInt 0));
                         ("maximum"%string, VNum (PInt 42))])])].

(** A container with a schema under "additionalProperties", and a leaf whose
    "enum" is empty. *)
Definition schema_container : pyval :=
  VDict [("properties"%string,
          VDict [("p"%string,
                  VDict [("type"%string, VStr "object");
                         ("properties"%string,
                          VDict [("x"%string,
                                  VDict [("type"%string, VStr "string")])]);
                         ("additionalProperties"%string,
                          VDict [("type"%string, VStr "integer")])]);
                 ("e"%string, VDict [("enum"%string, VList [])])])].

(** No visited mapping has the empty list as its "type". *)
Definition no_empty_type_list (schema : pyval) : bool :=
  forallb (fun v => match dict_get (snd v) "type" with
                    | Some (VList []) => false
                    | _ => true
                    end)
    (visits schema "").

Definition schema_empty_type : pyval :=
  VDict [("properties"%string,
          VDict [("q"%string, VDict [("type"%string, VList [])])])].

(** The text repeats one character. *)
Fixpoint constant_text (t : string) : bool :=
  match t with
  | String c (String d _ as rest) => Ascii.eqb c d && constant_text rest
  | _ => true
  end.

Definition single (t : string) (start : Z) : answer :=
  {| answer_type := VStr "single"; text := VStr t;
     answer_start := VNum (PInt start) |}.


(** The report raised an exception that no [except] clause names. *)
Definition escapes (res : result unit) : bool :=
  match res with
  | OK _ | Raise (ValueError _) | Raise (ValidationError _) => false
  | Raise _ => true
  end.



Definition schema_q1 : pyval :=
  VDict [("properties"%string,
          VDict [("q1"%string, VDict [("type"%string, VStr "string")])])].

Definition qa_q1 (start : Z) : qa :=
  {| qa_id := "R1_q1"; question_id := "q1";
     enumeration_value_id := VStr "yes";
     answers := [single "fever" start] |}.

(** A report whose only answer is found at its offset. *)
Definition report_R1 : report :=
  {| report_id := "R1";
     paragraphs := [{| context := "patient has fever"; qas := [qa_q1 12] |}] |}.

(** The same report with the offset one too low. *)
Definition report_R1_bad : report :=
  {| report_id := "R1";
     paragraphs := [{| context := "patient has fever"; qas := [qa_q1 11] |}] |}.

(** A report that carries the same QA twice. *)
Definition report_R1_twice : report :=
  {| report_id := "R1";
     paragraphs :=
       [{| context := "patient has fever"; qas := [qa_q1 12; qa_q1 12] |}] |}.



(** The structural validator that accepts every instance. *)
Definition accept_all (instance schema : pyval) : option exn := None.

Definition schema_numeric_enum : pyval :=
  VDict [("properties"%string,
          VDict [("q"%string, VDict [("enum"%string, VList [VNum (PInt 2)])])])].

(** A year as [%Y] accepts it: four digits. *)
Inductive year_text : string -> Z -> Prop :=
  | year_four c1 c2 c3 c4 d1 d2 d3 d4 :
      digit_of c1 = Some d1 -> digit_of c2 = Some d2 ->
      digit_of c3 = Some d3 -> digit_of c4 = Some d4 ->
      year_text (String c1 (String c2 (String c3 (String c4 ""))))
        (1000 * d1 + 100 * d2 + 10 * d3 + d4).

(** A month as [%m] accepts it: two digits from 01 to 12, or one digit from
    1 to 9. *)
Inductive month_text : string -> Z -> Prop :=
  | month_two c1 c2 d1 d2 :
      digit_of c1 = Some d1 -> digit_of c2 = Some d2 ->
      1 <= 10 * d1 + d2 <= 12 ->
      month_text (String c1 (String c2 "")) (10 * d1 + d2)
  | month_one c d :
      digit_of c = Some d -> 1 <= d <= 9 -> month_text (String c "") d.

(** A day as [%d] accepts it: two digits from 01 to 31, one digit from 1 to
    9, or a space and one digit from 1 to 9. *)
Inductive day_text : string -> Z -> Prop :=
  | day_two c1 c2 d1 d2 :
      digit_of c1 = Some d1 -> digit_of c2 = Some d2 ->
      1 <= 10 * d1 + d2 <= 31 ->
      day_text (String c1 (String c2 "")) (10 * d1 + d2)
  | day_one c d :
      digit_of c = Some d -> 1 <= d <= 9 -> day_text (String c "") d
  | day_space c d :
      digit_of c = Some d -> 1 <= d <= 9 ->
      day_text (String " " (String c "")) d.

(** A text that the pattern of "%Y-%m-%d" matches in full, with the year,
    month and day it reads. *)
Inductive date_text : string -> Z * Z * Z -> Prop :=
  | date_text_intro ys ms ds y m d :
      year_text ys y -> month_text ms m -> day_text ds d ->
      date_text
        (String.append ys
           (String "-" (String.append ms (String "-" ds))))
        (y, m, d).

(** ** Vocabulary of the further properties *)

(** The test that [_validate_enumeration_value_ids] makes on one member. *)
Definition accepts (op : option_value) (value : pyval) : bool :=
  value_eq value op || (is_form op && is_valid op value).

Definition accepted_by (s : list option_value) (value : pyval) : bool :=
  existsb (fun op => accepts op value) s.

(** An instance of a [Form*] class, [None], or a string literal: the options
    whose addition does not depend on the numbers and booleans already in
    the set. *)
Definition typed_null_or_string (op : option_value) : bool :=
  match op with
  | Lit (LNum _) | Lit (LBool _) => false
  | _ => true
  end.

(** [op] is one of the options that the registration of the mapping
    computes. *)
Definition declared (data : list (string * pyval)) (op : option_value) : Prop :=
  match registration_of data with
  | ByType ty =>
      exists dtype options,
        In dtype (data_types_of ty)
        /\ _get_data_options dtype data = OK options /\ In op options
  | ByEnum =>
      exists options,
        _get_data_options (VStr "string") data = OK options /\ In op options
  | NoRegistration => False
  end.

(** The set of the path [p] exists and has the property [Q]. *)
Definition holds_at (Q : list option_value -> Prop) (self : FormDefinition)
    (p : string) : Prop :=
  exists s, possible_options self !! p = Some s /\ Q s.

(** The set of the path accepts the value. *)
Definition accepts_at (self : FormDefinition) (p : string) (v : pyval) : Prop :=
  holds_at (fun s => accepted_by s v = true) self p.

(** An option whose turn of the loop makes the set accept what it accepts. *)
Definition widens (v : pyval) (x : option_value) : Prop :=
  typed_null_or_string x = true /\ accepts x v = true.

(** The rule of a "single" answer on a text and an offset. *)
Definition single_rule (context : string) (t s : pyval) : Prop :=
  exists str start,
    t = VStr str /\ as_int s = Some start /\ str <> ""%string
    /\ 0 <= start /\ py_slice context start (start + str_len str) = str.

(** [f"{report['report_id']}_{qa['question_id']}"]. *)
Definition expected_id (r : report) (q : qa) : string :=
  String.append (report_id r) (String.append "_" (question_id q)).

(** The value found in [current] along the keys [parts]. *)
Fixpoint get_path (parts : list string) (current : pyval) : option pyval :=
  match parts with
  | [] => Some current
  | part :: rest =>
      match current with
      | VDict kvs =>
          match dict_get kvs part with
          | Some child => get_path rest child
          | None => None
          end
      | _ => None
      end
  end.

Fixpoint is_prefix (a b : list string) : bool :=
  match a, b with
  | [], _ => true
  | x :: a', y :: b' => String.eqb x y && is_prefix a' b'
  | _ :: _, [] => false
  end.

(** Neither path continues the other; a path is comparable with itself. *)
Definition incomparable (a b : list string) : bool :=
  negb (is_prefix a b) && negb (is_prefix b a).

Fixpoint pairwise_incomparable (l : list (list string)) : bool :=
  match l with
  | [] => true
  | a :: rest => forallb (incomparable a) rest && pairwise_incomparable rest
  end.

(** The dotted path of a QA. *)
Definition path_of (q : qa) : list string := split_dot (question_id q).

(** The loop of [_validate_against_schema] from the object [current]. *)
Definition reassemble (l : list qa) (current : pyval) : result pyval :=
  for_each (fun q current =>
              set_path (split_dot (question_id q)) (enumeration_value_id q)
                current)
    l current.

(** Every value of [current] that is not a mapping lies at or below one of
    the paths [done]. *)
Definition leaves_below (done : list (list string)) (current : pyval) : Prop :=
  forall w x,
    get_path w current = Some x ->
    (exists kvs, x = VDict kvs)
    \/ (exists p, In p done /\ is_prefix p w = true).

Definition paragraph_two_branches : paragraph :=
  {| context := "ctx";
     qas := [{| qa_id := "R1_a.b"; question_id := "a.b";
                enumeration_value_id := VStr "x"; answers := [] |};
             {| qa_id := "R1_a.c"; question_id := "a.c";
                enumeration_value_id := VNum (PInt 5); answers := [] |}] |}.

(** An hour as [%H] accepts it: two digits from 00 to 23, or one digit. *)
Inductive hour_text : string -> Z -> Prop :=
  | hour_two c1 c2 d1 d2 :
      digit_of c1 = Some d1 -> digit_of c2 = Some d2 ->
      10 * d1 + d2 <= 23 ->
      hour_text (String c1 (String c2 "")) (10 * d1 + d2)
  | hour_one c d :
      digit_of c = Some d -> hour_text (String c "") d.

(** A minute as [%M] accepts it: two digits from 00 to 59, or one digit. *)
Inductive minute_text : string -> Z -> Prop :=
  | minute_two c1 c2 d1 d2 :
      digit_of c1 = Some d1 -> digit_of c2 = Some d2 ->
      10 * d1 + d2 <= 59 ->
      minute_text (String c1 (String c2 "")) (10 * d1 + d2)
  | minute_one c d :
      digit_of c = Some d -> minute_text (String c "") d.

(** A second as [%S] accepts it: two digits from 00 to 61, or one digit. *)
Inductive second_text : string -> Z -> Prop :=
  | second_two c1 c2 d1 d2 :
      digit_of c1 = Some d1 -> digit_of c2 = Some d2 ->
      10 * d1 + d2 <= 61 ->
      second_text (String c1 (String c2 "")) (10 * d1 + d2)
  | second_one c d :
      digit_of c = Some d -> second_text (String c "") d.

(** A text that the pattern of "%H:%M:%S" matches in full, with the hour,
    minute and second it reads. *)
Inductive time_text : string -> Z * Z * Z -> Prop :=
  | time_text_intro hs ms ss h m s :
      hour_text hs h -> minute_text ms m -> second_text ss s ->
      time_text
        (String.append hs
           (String ":" (String.append ms (String ":" ss))))
        (h, m, s).

(** The type names that [_get_data_options] knows. *)
Definition supported_type (t : pyval) : bool :=
  is_str t "boolean" || is_str t "integer" || is_str t "number"
  || is_str t "null" || is_str t "string".

(** The walk raises a [ValueError] only where a registration does. *)
Definition raises_in_a_visit (O : set_iteration) (data : pyval) : Prop :=
  forall base_id self m,
    _extract_question_ids O data base_id self = Raise (ValueError m) ->
    exists v s,
      In v (visits data base_id)
      /\ register O (snd v) (fst v) s = Raise (ValueError m).

(** A schema with a list of strings. *)
Definition schema_array : pyval :=
  VDict [("properties"%string,
          VDict [("tags"%string,
                  VDict [("type"%string, VStr "array");
                         ("items"%string,
                          VDict [("type"%string, VStr "string")])])])].

(** The answer of [question_includes_datatype] on the set [s]. *)
Definition includes (s : list option_value) (dtype : string) : bool :=
  if String.eqb dtype "boolean" then
    set_mem (Lit (LBool true)) s || set_mem (Lit (LBool false)) s
  else if String.eqb dtype "null" then set_mem (Lit LNone) s
  else if String.eqb dtype "enum" then existsb is_str_literal s
  else existsb (has_data_type dtype) s.

(** The name under which the helper finds an option: the [data_type] of an
    instance, "boolean", "null", and "enum" for a string literal. A number
    of an enumeration has none. *)
Definition query_of (op : option_value) : option string :=
  match op with
  | Lit LNone => Some "null"%string
  | Lit (LBool _) => Some "boolean"%string
  | Lit (LStr _) => Some "enum"%string
  | Lit (LNum _) => None
  | _ => data_type op
  end.

(** A test on members that does not look at the bounds of a range. *)
Definition ignores_bounds (P : option_value -> bool) : Prop :=
  (forall a b c d, P (FormInteger a b) = P (FormInteger c d))
  /\ (forall a b c d, P (FormNumber a b) = P (FormNumber c d)).

Definition includes_at (self : FormDefinition) (p : string) (dtype : string)
  : Prop :=
  holds_at (fun s => includes s dtype = true) self p.


(** The set holds at most one instance of each [Form*] class. *)
Definition one_per_class (s : list option_value) : Prop :=
  forall i j x y,
    s !! i = Some x -> s !! j = Some y ->
    is_form x = true -> same_kind x y = true -> i = j.

(** Every set of the model has the property [Q]. *)
Definition every_set (Q : list option_value -> Prop) (self : FormDefinition)
  : Prop :=
  forall p s, possible_options self !! p = Some s -> Q s.

(** Every key of [possible_options] is [base_id] or one of [ids]. *)
Definition keys_within (ids : gset string) (base_id : string)
    (self : FormDefinition) : Prop :=
  question_ids self = ids
  /\ forall p, is_Some (possible_options self !! p) -> p = base_id \/ p ∈ ids.

Definition keys_are_ids (self : FormDefinition) : Prop :=
  forall p, is_Some (possible_options self !! p) -> p ∈ question_ids self.

(** [__init__]: opening the file and [json.load] are outside the program,
    and [loaded] is what they give: the schema, or the exception they raise.
    A [JSONDecodeError] and a [UnicodeDecodeError] are [ValueError]s. *)
Definition __init__ (O : set_iteration) (loaded : result pyval)
  : result FormDefinition :=
  json <- loaded;;
  new_FormDefinition O json.




(** * Properties *)

(** ** Numbers *)

Lemma float_compare_antisym (a b : pyfloat) :
  float_compare b a = CompOpp (float_compare a b).
Proof.
  destruct a, b; simpl; try reflexivity.
  rewrite (Z.min_comm e0 e). apply Z.compare_antisym.
Qed.

Lemma float_compare_refl (a : pyfloat) : float_compare a a = Eq.
Proof. destruct a; simpl; try reflexivity. apply Z.compare_refl. Qed.

Lemma num_le_int (a b : Z) : num_le (PInt a) (PInt b) = (a <=? b).
Proof.
  unfold num_le, num_compare. simpl. rewrite Z.min_id, Z.sub_diag. simpl.
  rewrite !Z.mul_1_r. unfold Z.leb. destruct (a ?= b); reflexivity.
Qed.

Lemma num_le_neg_inf (n : pynum) : num_le neg_inf n = true.
Proof. destruct n as [z|[]]; reflexivity. Qed.

Lemma num_le_pos_inf (n : pynum) : num_le n pos_inf = true.
Proof. destruct n as [z|[]]; reflexivity. Qed.

Lemma num_lt_false_le (a b : pynum) : num_lt b a = false -> num_le a b = true.
Proof.
  unfold num_lt, num_le, num_compare.
  rewrite (float_compare_antisym (float_of_num a) (float_of_num b)).
  destruct (float_compare (float_of_num a) (float_of_num b)); simpl; congruence.
Qed.

Lemma num_lt_true_le (a b : pynum) : num_lt b a = true -> num_le b a = true.
Proof.
  unfold num_lt, num_le. destruct (num_compare b a); congruence.
Qed.

Lemma num_le_refl (a : pynum) : num_le a a = true.
Proof. unfold num_le, num_compare. now rewrite float_compare_refl. Qed.

(** [min(a, b)] is one of its arguments and is below both. *)
Lemma py_min_spec (a b : pynum) :
  (py_min a b = a \/ py_min a b = b)
  /\ num_le (py_min a b) a = true /\ num_le (py_min a b) b = true.
Proof.
  unfold py_min. destruct (num_lt b a) eqn:E.
  - split; [now right|]. split; [now apply num_lt_true_le | apply num_le_refl].
  - split; [now left|]. split; [apply num_le_refl | now apply num_lt_false_le].
Qed.

(** [max(a, b)] is one of its arguments and is above both. *)
Lemma py_max_spec (a b : pynum) :
  (py_max a b = a \/ py_max a b = b)
  /\ num_le a (py_max a b) = true /\ num_le b (py_max a b) = true.
Proof.
  unfold py_max. destruct (num_lt a b) eqn:E.
  - split; [now right|]. split; [now apply num_lt_true_le | apply num_le_refl].
  - split; [now left|]. split; [apply num_le_refl | now apply num_lt_false_le].
Qed.

(** ** Domain value types *)

Lemma as_int_spec (var : pyval) (z : Z) :
  as_int var = Some z
  <-> var = VNum (PInt z) \/ exists b, var = VBool b /\ z = Z.b2z b.
Proof.
  split.
  - destruct var as [|b|[n|f]|s|l|kvs]; simpl; try discriminate.
    + intros [= <-]. right. now exists b.
    + intros [= <-]. now left.
  - intros [->|[b [-> ->]]]; reflexivity.
Qed.

Lemma in_range_spec (minimum maximum : option pynum) (n : pynum) :
  in_range minimum maximum n = true
  <-> (forall lo, minimum = Some lo -> num_le lo n = true)
      /\ (forall hi, maximum = Some hi -> num_le n hi = true).
Proof.
  unfold in_range. rewrite andb_true_iff. split.
  - intros [Hlo Hhi]. split.
    + intros lo ->. exact Hlo.
    + intros hi ->. exact Hhi.
  - intros [Hlo Hhi]. split.
    + destruct minimum; auto.
    + destruct maximum; auto.
Qed.

(** C7 (as amended). [FormInteger(minimum, maximum).is_valid(var)] accepts
    exactly the values that are Python [int]s, a [bool] counting as 0 or 1,
    and lie within the bounds that are set; a [float] is rejected whatever
    its value, 5.0 included. *)
Theorem FormInteger_is_valid_iff (minimum maximum : option pynum) (var : pyval) :
  (is_valid (FormInteger minimum maximum) var = true
   <-> exists z,
         (var = VNum (PInt z) \/ exists b, var = VBool b /\ z = Z.b2z b)
         /\ (forall lo, minimum = Some lo -> num_le lo (PInt z) = true)
         /\ (forall hi, maximum = Some hi -> num_le (PInt z) hi = true))
  /\ (forall f, is_valid (FormInteger minimum maximum) (VNum (PFloat f)) = false).
Proof.
  split; [|reflexivity].
  simpl. split.
  - destruct (as_int var) as [z|] eqn:E; [|discriminate].
    intros H. exists z. split; [now apply as_int_spec|].
    now apply in_range_spec.
  - intros [z [Hz Hr]]. apply as_int_spec in Hz. rewrite Hz.
    now apply in_range_spec.
Qed.

(** C7, counterexample. The float 5.0 equals the integer 5 and is rejected
    by an unbounded [FormInteger]. *)
Lemma FormInteger_rejects_integral_float :
  num_eq (PFloat (Dyadic 5 0)) (PInt 5) = true
  /\ is_valid (FormInteger None None) (VNum (PFloat (Dyadic 5 0))) = false
  /\ is_valid (FormInteger None None) (VNum (PInt 5)) = true.
Proof. repeat split. Qed.

(** ** The query helper *)

Lemma set_mem_lit (l : literal) (s : list option_value) :
  set_mem (Lit l) s = true
  <-> exists l', In (Lit l') s /\ eq_literal (literal_value l) l' = true.
Proof.
  simpl. rewrite existsb_exists. split.
  - intros [[l'| | | | | |] [Hin H]]; try discriminate. now exists l'.
  - intros [l' [Hin H]]. now exists (Lit l').
Qed.

Lemma num_eq_sym (a b : pynum) : num_eq a b = num_eq b a.
Proof.
  unfold num_eq, num_compare.
  rewrite (float_compare_antisym (float_of_num a) (float_of_num b)).
  destruct (float_compare (float_of_num a) (float_of_num b)); reflexivity.
Qed.

Lemma equals_a_boolean_spec (l : literal) :
  equals_a_boolean l = true
  <-> eq_literal (VBool true) l = true \/ eq_literal (VBool false) l = true.
Proof.
  destruct l as [|[]|n|s]; simpl; try (intuition congruence).
  rewrite orb_true_iff, (num_eq_sym n (PInt 1)), (num_eq_sym n (PInt 0)).
  reflexivity.
Qed.

(** C8 (as amended). On a QuestionId of the model the helper answers: for
    "boolean", whether some member equals [True] or [False] in Python's sense
    (the booleans, and the numbers 1 and 0); for "null", whether [None] is a
    member; for "enum", whether some string literal is a member (a number or
    a boolean literal does not count); for any other name, whether some
    instance of a [Form*] class has that [data_type]. *)
Theorem question_includes_datatype_spec (self : FormDefinition)
    (question_id dtype : string) (options : list option_value) :
  possible_options self !! question_id = Some options ->
  exists answer,
    question_includes_datatype self question_id dtype = OK answer
    /\ (answer = true <->
        if String.eqb dtype "boolean" then
          exists l, In (Lit l) options /\ equals_a_boolean l = true
        else if String.eqb dtype "null" then In (Lit LNone) options
        else if String.eqb dtype "enum" then
          exists s, In (Lit (LStr s)) options
        else exists op, In op options /\ is_form op = true
                        /\ data_type op = Some dtype).
Proof.
  intros Hq. unfold question_includes_datatype. rewrite Hq.
  destruct (String.eqb dtype "boolean").
  { eexists. split; [reflexivity|].
    rewrite orb_true_iff, !set_mem_lit. split.
    - intros [[l [Hin H]]|[l [Hin H]]]; exists l; split; auto;
        apply equals_a_boolean_spec; auto.
    - intros [l [Hin H]]. apply equals_a_boolean_spec in H.
      destruct H; [left|right]; now exists l. }
  destruct (String.eqb dtype "null").
  { eexists. split; [reflexivity|]. rewrite set_mem_lit. split.
    - intros [l [Hin H]]. destruct l; simpl in H; try discriminate. exact Hin.
    - intros Hin. now exists LNone. }
  destruct (String.eqb dtype "enum").
  { eexists. split; [reflexivity|]. rewrite existsb_exists. split.
    - intros [[[| | |s]| | | | | |] [Hin H]]; try discriminate. now exists s.
    - intros [s Hin]. now exists (Lit (LStr s)). }
  eexists. split; [reflexivity|]. rewrite existsb_exists. split.
  - intros [op [Hin H]]. exists op. unfold has_data_type in H.
    apply andb_true_iff in H as [Hf H]. repeat split; auto.
    destruct (data_type op) as [d|]; [|discriminate].
    apply String.eqb_eq in H. now subst.
  - intros [op [Hin [Hf H]]]. exists op. split; auto.
    unfold has_data_type. rewrite Hf, H. simpl. apply String.eqb_refl.
Qed.

(** ** Possible-options sets *)

Lemma iter_order_elem (O : set_iteration) (s : list option_value) (i : nat) :
  In i (iter_order O s) <-> (i < List.length s)%nat.
Proof.
  split.
  - intros H. apply (Permutation_in _ (iter_perm O s)) in H.
    apply in_seq in H. lia.
  - intros H. apply (Permutation_in _ (Permutation_sym (iter_perm O s))).
    apply in_seq. lia.
Qed.

(** Iteration meets every member once, whatever the order. *)
Lemma iterate_In (O : set_iteration) (s : list option_value) (i : nat)
    (x : option_value) :
  In (i, x) (iterate O s) <-> s !! i = Some x.
Proof.
  unfold iterate. rewrite <- list_elem_of_In, list_elem_of_omap. split.
  - intros [j [_ Hj]]. destruct (s !! j) eqn:E; simpl in Hj; [|discriminate].
    now inversion Hj; subst.
  - intros H. exists i. split.
    + apply list_elem_of_In, iter_order_elem. now apply lookup_lt_Some in H.
    + now rewrite H.
Qed.

Lemma iterate_nil (O : set_iteration) : iterate O [] = [].
Proof.
  unfold iterate.
  now rewrite (Permutation_nil (Permutation_sym (iter_perm O []))).
Qed.

Lemma iterate_singleton (O : set_iteration) (x : option_value) :
  iterate O [x] = [(0%nat, x)].
Proof.
  unfold iterate.
  now rewrite (Permutation_length_1_inv (Permutation_sym (iter_perm O [x]))).
Qed.

Lemma iterate_not_nil (O : set_iteration) (s : list option_value) :
  s <> [] -> map snd (iterate O s) <> [].
Proof.
  destruct s as [|x s]; [congruence|]. intros _ H.
  assert (Hin : In (0%nat, x) (iterate O (x :: s))) by now apply iterate_In.
  apply (in_map snd) in Hin. rewrite H in Hin. destruct Hin.
Qed.

Lemma set_add_not_nil (x : option_value) (s : list option_value) :
  set_add x s <> [].
Proof.
  unfold set_add. destruct (set_mem x s) eqn:E.
  - destruct s; [|congruence]. destruct x; discriminate.
  - destruct s; discriminate.
Qed.

Lemma insert_not_nil (s : list option_value) (i : nat) (x : option_value) :
  s <> [] -> <[i := x]> s <> [].
Proof.
  intros Hs H. apply (f_equal List.length) in H. rewrite length_insert in H.
  destruct s; [congruence|discriminate].
Qed.

(** A turn of the loop of [_add_options] leaves the set non-empty. *)
Lemma add_option_not_nil (O : set_iteration) (x : option_value)
    (s : list option_value) :
  add_option O x s <> [].
Proof.
  unfold add_option.
  destruct (List.find _ (iterate O s)) as [[i y]|] eqn:E.
  - assert (Hs : s <> []).
    { apply find_some in E as [Hin _]. apply iterate_In in Hin.
      intros ->. discriminate. }
    destruct x, y; try (destruct (truthy _)); auto using set_add_not_nil,
      insert_not_nil.
  - destruct x; apply set_add_not_nil.
Qed.

Lemma fold_add_not_nil (O : set_iteration) (l s : list option_value) :
  l <> [] \/ s <> [] ->
  fold_left (fun s new_option => add_option O new_option s) l s <> [].
Proof.
  revert s. induction l as [|x l IH]; intros s H; simpl.
  - destruct H; congruence.
  - apply IH. right. apply add_option_not_nil.
Qed.

Lemma add_all_not_nil (O : set_iteration) (options s : list option_value) :
  options <> [] \/ s <> [] -> add_all O options s <> [].
Proof.
  intros [H|H]; apply fold_add_not_nil; auto. left. now apply iterate_not_nil.
Qed.

Lemma _add_options_lookup (O : set_iteration) (self : FormDefinition)
    (q : string) (options : list option_value) :
  possible_options (_add_options O self q options) !! q
  = Some (add_all O options
            (match possible_options self !! q with Some s => s | None => [] end)).
Proof. unfold _add_options. simpl. now rewrite lookup_insert_eq. Qed.

Lemma _add_options_lookup_ne (O : set_iteration) (self : FormDefinition)
    (q q' : string) (options : list option_value) :
  q <> q' ->
  possible_options (_add_options O self q options) !! q'
  = possible_options self !! q'.
Proof. intros H. unfold _add_options. simpl. now rewrite lookup_insert_ne. Qed.

(** [_add_options] keeps every key, and a non-empty set stays non-empty. *)
Lemma _add_options_keeps (O : set_iteration) (self : FormDefinition)
    (q q' : string) (options s : list option_value) :
  possible_options self !! q' = Some s ->
  exists s', possible_options (_add_options O self q options) !! q' = Some s'
             /\ (s <> [] -> s' <> []).
Proof.
  intros H. destruct (decide (q = q')) as [->|Hne].
  - rewrite _add_options_lookup, H. eexists. split; [reflexivity|].
    intros Hs. apply add_all_not_nil. now right.
  - rewrite _add_options_lookup_ne, H by done. now exists s.
Qed.

(** ** Merging two declarations of the integer kind *)

Lemma same_kind_integer (a b : option pynum) (y : option_value) :
  same_kind (FormInteger a b) y = is_FormInteger y.
Proof. destruct y; reflexivity. Qed.

Lemma filter_nil_forall (s : list option_value) :
  List.filter is_FormInteger s = [] ->
  forall i y, s !! i = Some y -> is_FormInteger y = false.
Proof.
  intros H i y Hy. destruct (is_FormInteger y) eqn:E; [|reflexivity].
  assert (Hin : In y (List.filter is_FormInteger s)).
  { apply filter_In. split; [|exact E].
    apply list_elem_of_In, list_elem_of_lookup. now exists i. }
  rewrite H in Hin. destruct Hin.
Qed.

(** The first declaration of the integer kind adds its instance. *)
Lemma add_option_first_integer (O : set_iteration) (a b : option pynum)
    (s : list option_value) :
  List.filter is_FormInteger s = [] ->
  add_option O (FormInteger a b) s = s ++ [FormInteger a b].
Proof.
  intros Hs. unfold add_option.
  destruct (List.find _ (iterate O s)) as [[i y]|] eqn:E.
  - apply find_some in E as [Hin Hk]. apply iterate_In in Hin.
    cbn [snd] in Hk. rewrite same_kind_integer in Hk.
    rewrite (filter_nil_forall s Hs i y Hin) in Hk. discriminate.
  - reflexivity.
Qed.

(** A later declaration finds that instance, in whatever order the set is
    iterated, and rewrites its bounds in place. *)
Lemma add_option_second_integer (O : set_iteration) (a b c d : option pynum)
    (s : list option_value) :
  List.filter is_FormInteger s = [] ->
  add_option O (FormInteger c d) (s ++ [FormInteger a b])
  = s ++ [FormInteger (Some (merged_minimum a c)) (Some (merged_maximum b d))].
Proof.
  intros Hs. unfold add_option.
  destruct (List.find _ (iterate O (s ++ [FormInteger a b]))) as [[i y]|] eqn:E.
  - apply find_some in E as [Hin Hk]. apply iterate_In in Hin.
    cbn [snd] in Hk. rewrite same_kind_integer in Hk.
    destruct (decide (i < List.length s)%nat) as [Hi|Hi].
    + rewrite lookup_app_l in Hin by exact Hi.
      rewrite (filter_nil_forall s Hs i y Hin) in Hk. discriminate.
    + rewrite lookup_app_r in Hin by lia.
      destruct (i - List.length s)%nat as [|k] eqn:Ek; simpl in Hin;
        [|discriminate].
      inversion Hin; subst y.
      replace i with (List.length s + 0)%nat by lia.
      now rewrite insert_app_r.
  - assert (Hin : In (List.length s, FormInteger a b)
                      (iterate O (s ++ [FormInteger a b]))).
    { apply iterate_In. rewrite lookup_app_r by lia. now rewrite Nat.sub_diag. }
    apply (find_none _ _ E) in Hin. discriminate.
Qed.

Lemma add_all_singleton (O : set_iteration) (x : option_value)
    (s : list option_value) :
  add_all O [x] s = add_option O x s.
Proof. unfold add_all. now rewrite iterate_singleton. Qed.

Lemma py_or_nonzero (x : option pynum) (d : pynum) :
  absent_or_nonzero x -> py_or x d = if_not_none x d.
Proof. destruct x as [n|]; simpl; [|reflexivity]. now intros ->. Qed.

(** C1 (as amended). When a QuestionId whose set holds no [FormInteger] yet
    receives two declarations of the integer kind, its set holds exactly one
    [FormInteger] afterwards; its minimum is the [min] of the two minimums
    with an absent one read as minus infinity, and its maximum is the [max]
    of the two maximums with an absent one read as plus infinity (stated
    for maximums that are absent or not zero). *)
Theorem add_options_merges_integers (O : set_iteration) (self : FormDefinition)
    (q : string) (a b c d : option pynum) :
  (forall s, possible_options self !! q = Some s ->
             List.filter is_FormInteger s = []) ->
  absent_or_nonzero b ->
  absent_or_nonzero d ->
  exists s,
    possible_options
      (_add_options O (_add_options O self q [FormInteger a b]) q
         [FormInteger c d]) !! q = Some s
    /\ List.filter is_FormInteger s
       = [FormInteger
            (Some (py_min (if_not_none a neg_inf) (if_not_none c neg_inf)))
            (Some (py_max (if_not_none b pos_inf) (if_not_none d pos_inf)))].
Proof.
  intros Hs Hb Hd.
  set (s0 := match possible_options self !! q with Some s => s | None => [] end).
  assert (H0 : List.filter is_FormInteger s0 = []).
  { unfold s0. destruct (possible_options self !! q) eqn:E; auto. }
  rewrite _add_options_lookup, _add_options_lookup.
  fold s0. rewrite !add_all_singleton.
  rewrite (add_option_first_integer O a b s0 H0).
  rewrite (add_option_second_integer O a b c d s0 H0).
  eexists. split; [reflexivity|].
  rewrite List.filter_app, H0. simpl.
  unfold merged_minimum, merged_maximum.
  now rewrite !py_or_nonzero.
Qed.

Lemma add_options_merges_integers_witness :
  exists s,
    possible_options
      (_add_options insertion_order
         (_add_options insertion_order empty_FormDefinition "q"
            [FormInteger (Some (PInt 0)) None]) "q"
         [FormInteger None (Some (PInt 10))]) !! "q" = Some s
    /\ List.filter is_FormInteger s
       = [FormInteger (Some neg_inf) (Some pos_inf)].
Proof.
  apply (add_options_merges_integers insertion_order empty_FormDefinition "q"
           (Some (PInt 0)) None None (Some (PInt 10))).
  - intros s H. vm_compute in H. discriminate.
  - exact I.
  - reflexivity.
Defined.

(** C1, counterexample. [Integer(min=0,max=None)] merged with
    [Integer(min=None,max=10)] leaves one instance with minimum minus
    infinity and maximum plus infinity, not [Integer(min=0,max=10)]. *)
Lemma merge_is_not_intersection :
  possible_options
    (_add_options insertion_order
       (_add_options insertion_order empty_FormDefinition "q"
          [FormInteger (Some (PInt 0)) None]) "q"
       [FormInteger None (Some (PInt 10))]) !! "q"
  = Some [FormInteger (Some neg_inf) (Some pos_inf)]
  /\ [FormInteger (Some neg_inf) (Some pos_inf)]
     <> [FormInteger (Some (PInt 0)) (Some (PInt 10))].
Proof. split; [vm_compute; reflexivity | discriminate]. Qed.

(** ** The walk of the flattener *)

Lemma pyval_induction (P : pyval -> Prop) :
  P VNone ->
  (forall b, P (VBool b)) ->
  (forall n, P (VNum n)) ->
  (forall s, P (VStr s)) ->
  (forall l, Forall P l -> P (VList l)) ->
  (forall kvs, Forall (fun kv => P (snd kv)) kvs -> P (VDict kvs)) ->
  forall v, P v.
Proof.
  intros HN HB HNum HS HL HD.
  fix IH 1. intros [|b|n|s|l|kvs].
  - exact HN.
  - apply HB.
  - apply HNum.
  - apply HS.
  - apply HL.
    exact ((fix go (l : list pyval) : Forall P l :=
              match l with
              | [] => List.Forall_nil P
              | x :: r => List.Forall_cons P x r (IH x) (go r)
              end) l).
  - apply HD.
    exact ((fix go (l : list (string * pyval))
              : Forall (fun kv => P (snd kv)) l :=
              match l with
              | [] => List.Forall_nil _
              | x :: r => List.Forall_cons _ x r (IH (snd x)) (go r)
              end) kvs).
Qed.

Section for_each_facts.
Context {A S : Type} (body : A -> S -> result S).

Lemma for_each_app (l1 l2 : list A) (st : S) :
  for_each body (l1 ++ l2) st
  = bind (for_each body l1 st) (for_each body l2).
Proof.
  revert st. induction l1 as [|x l1 IH]; intros st; simpl; [reflexivity|].
  destruct (body x st); simpl; auto.
Qed.

(** A property kept by every turn holds after the loop. *)
Lemma for_each_preserves (Q : S -> Prop) (l : list A) (st st' : S) :
  for_each body l st = OK st' ->
  (forall x s s', In x l -> body x s = OK s' -> Q s -> Q s') ->
  Q st -> Q st'.
Proof.
  revert st. induction l as [|x l IH]; intros st H Hstep Hst; simpl in H.
  - now inversion H; subst.
  - destruct (body x st) as [s1|e] eqn:E; [|discriminate].
    apply (IH s1); auto.
    + intros y s s' Hy. apply Hstep. now right.
    + apply (Hstep x st s1); auto. now left.
Qed.

(** A property set up by one turn and kept by the others holds after the
    loop. *)
Lemma for_each_establishes (Q : S -> Prop) (l : list A) (st st' : S) (x : A) :
  for_each body l st = OK st' ->
  In x l ->
  (forall s s', body x s = OK s' -> Q s') ->
  (forall y s s', In y l -> body y s = OK s' -> Q s -> Q s') ->
  Q st'.
Proof.
  revert st. induction l as [|y l IH]; intros st H Hin Hset Hkeep;
    [destruct Hin|]. simpl in H.
  destruct (body y st) as [s1|e] eqn:E; [|discriminate].
  destruct Hin as [->|Hin].
  - apply (for_each_preserves Q l s1 st'); auto.
    + intros z s s' Hz. apply Hkeep. now right.
    + now apply (Hset st).
  - apply (IH s1); auto. intros z s s' Hz. apply Hkeep. now right.
Qed.
End for_each_facts.

Lemma bind_OK {A B} (r : result A) (k : A -> result B) (b : B) :
  bind r k = OK b -> exists a, r = OK a /\ k a = OK b.
Proof. destruct r as [a|e]; simpl; [|discriminate]. intros H. now exists a. Qed.

(** A loop whose turns each unfold into a run of visits is a run of the
    visits of all turns. *)
Lemma for_each_run_visits {A} (O : set_iteration)
    (body : A -> FormDefinition -> result FormDefinition)
    (turn : A -> list (string * list (string * pyval))) (l : list A) :
  Forall (fun x => forall self self',
            body x self = OK self' -> run_visits O (turn x) self = OK self') l ->
  forall self self',
    for_each body l self = OK self' ->
    run_visits O (flat_map turn l) self = OK self'.
Proof.
  induction 1 as [|x l Hx Hl IH]; intros self self' H; simpl in *.
  - exact H.
  - destruct (body x self) as [s1|e] eqn:E; [|discriminate].
    unfold run_visits. rewrite for_each_app.
    fold (run_visits O (turn x) self). rewrite (Hx self s1 E). simpl.
    now apply IH.
Qed.

Lemma extract_runs_visits_deep (O : set_iteration) (data : pyval) :
  runs_its_visits O data
  /\ (forall props, data = VDict props ->
        Forall (fun p => runs_its_visits O (snd p)) props).
Proof.
  induction data as [| | | |l IH|kvs IH] using pyval_induction;
    try (split; [intros base_id self self' H; exact H|discriminate]).
  - split; [|discriminate].
    intros base_id self self'. simpl.
    apply for_each_run_visits.
    eapply Forall_impl; [exact IH|]. intros x [Hx _] self0 self0'. apply Hx.
  - split.
    2:{ intros props [= <-]. eapply Forall_impl; [exact IH|].
        now intros x [Hx _]. }
    intros base_id self self'. simpl.
    apply for_each_run_visits.
    eapply Forall_impl; [exact IH|]. clear IH.
    intros [key value] [Hv Hprops] self0 self0' H. simpl in *.
    apply bind_OK in H as [self1 [H1 H2]].
    unfold run_visits. rewrite for_each_app.
    assert (Hsub : run_visits O
              (if String.eqb key "properties" then
                 match value with
                 | VDict props =>
                     flat_map
                       (fun p => visits (snd p) (child_id base_id (fst p)))
                       props
                 | _ => []
                 end
               else visits value base_id) self0 = OK self1).
    { destruct (String.eqb key "properties").
      - destruct value as [| | |s|[|x l]|props]; simpl in H1;
          try discriminate; try exact H1.
        + destruct (String.eqb s ""); [exact H1|discriminate].
        + revert H1. apply for_each_run_visits.
          eapply Forall_impl; [exact (Hprops props eq_refl)|].
          intros p Hp s0 s0'. apply Hp.
      - now apply Hv. }
    unfold run_visits in Hsub. rewrite Hsub. simpl. now rewrite H2.
Qed.

(** The walk is the run of its visits. *)
Lemma extract_runs_visits (O : set_iteration) (data : pyval)
    (base_id : string) (self self' : FormDefinition) :
  _extract_question_ids O data base_id self = OK self' ->
  run_visits O (visits data base_id) self = OK self'.
Proof. apply extract_runs_visits_deep. Qed.

(** ** One registration *)

Lemma keeps_options_refl (self : FormDefinition) : keeps_options self self.
Proof. intros q s H. now exists s. Qed.

Lemma keeps_options_trans (a b c : FormDefinition) :
  keeps_options a b -> keeps_options b c -> keeps_options a c.
Proof.
  intros Hab Hbc q s H. destruct (Hab q s H) as [s1 [H1 N1]].
  destruct (Hbc q s1 H1) as [s2 [H2 N2]]. exists s2. split; auto.
Qed.

Lemma keeps_options_add (O : set_iteration) (self : FormDefinition)
    (q : string) (options : list option_value) :
  keeps_options self (_add_options O self q options).
Proof. intros q' s H. now apply _add_options_keeps. Qed.

Lemma has_option_kept (self self' : FormDefinition) (q : string) :
  keeps_options self self' -> has_option self q -> has_option self' q.
Proof.
  intros Hk [s [H N]]. destruct (Hk q s H) as [s' [H' N']].
  exists s'. auto.
Qed.

Lemma add_declared_ids O data base_id dtype self self' :
  add_declared O data base_id dtype self = OK self' ->
  question_ids self' = question_ids self.
Proof.
  unfold add_declared. intros H. apply bind_OK in H as [options [_ H]].
  now inversion H.
Qed.

Lemma add_declared_keeps O data base_id dtype self self' :
  add_declared O data base_id dtype self = OK self' ->
  keeps_options self self'.
Proof.
  unfold add_declared. intros H. apply bind_OK in H as [options [_ H]].
  inversion H. apply keeps_options_add.
Qed.

Lemma add_declared_key O data base_id dtype self self' :
  add_declared O data base_id dtype self = OK self' ->
  is_Some (possible_options self' !! base_id).
Proof.
  unfold add_declared. intros H. apply bind_OK in H as [options [_ H]].
  inversion H. rewrite _add_options_lookup. eauto.
Qed.

Lemma add_declared_option O data base_id dtype self self' :
  add_declared O data base_id dtype self = OK self' ->
  yields_option data dtype = true ->
  has_option self' base_id.
Proof.
  unfold add_declared, yields_option. intros H Hy.
  apply bind_OK in H as [options [Ho H]]. rewrite Ho in Hy.
  inversion H. unfold has_option. rewrite _add_options_lookup.
  eexists. split; [reflexivity|]. apply add_all_not_nil. left.
  destruct options; [discriminate|congruence].
Qed.

Lemma register_types_unfold O ty data base_id self :
  register_types O ty data base_id self
  = (self' <- for_each (add_declared O data base_id) (data_types_of ty) self;;
     OK (add_question_id self' base_id))%result.
Proof. reflexivity. Qed.

Lemma register_enum_unfold O data base_id self :
  register_enum O data base_id self
  = (self' <- add_declared O data base_id (VStr "string") self;;
     OK (add_question_id self' base_id))%result.
Proof.
  unfold register_enum, add_declared.
  destruct (_get_data_options (VStr "string") data); reflexivity.
Qed.

Lemma declares_registration (data : list (string * pyval)) :
  declares_type_or_enum data
  = match registration_of data with
    | NoRegistration => false
    | _ => true
    end.
Proof.
  unfold declares_type_or_enum, registration_of.
  destruct (dict_get data "type") as [ty|]; simpl.
  - destruct (is_str ty "object"); simpl; [|reflexivity].
    destruct (dict_has data "enum"); reflexivity.
  - destruct (dict_has data "enum"); reflexivity.
Qed.

(** What one registration does to the set of QuestionIds. *)
Lemma register_ids O data base_id self self' :
  register O data base_id self = OK self' ->
  question_ids self'
  = if declares_type_or_enum data then {[base_id]} ∪ question_ids self
    else question_ids self.
Proof.
  rewrite declares_registration. unfold register.
  destruct (registration_of data) as [ty| |].
  - rewrite register_types_unfold. intros H.
    apply bind_OK in H as [s1 [H1 H]]. inversion H. simpl. f_equal.
    apply (for_each_preserves _ (fun s => question_ids s = question_ids self)
             _ _ _ H1); [|reflexivity].
    intros x s s' _ Hx Hs. rewrite <- Hs. eapply add_declared_ids, Hx.
  - rewrite register_enum_unfold. intros H.
    apply bind_OK in H as [s1 [H1 H]]. inversion H. simpl. f_equal.
    eapply add_declared_ids, H1.
  - now intros [= <-].
Qed.

Lemma types_loop_keeps O data base_id l self self' :
  for_each (add_declared O data base_id) l self = OK self' ->
  keeps_options self self'.
Proof.
  intros H.
  apply (for_each_preserves _ (keeps_options self) _ _ _ H);
    [|apply keeps_options_refl].
  intros x s s' _ Hx Hs. eapply keeps_options_trans; [exact Hs|].
  eapply add_declared_keeps, Hx.
Qed.

Lemma register_keeps O data base_id self self' :
  register O data base_id self = OK self' -> keeps_options self self'.
Proof.
  unfold register. destruct (registration_of data) as [ty| |].
  - rewrite register_types_unfold. intros H.
    apply bind_OK in H as [s1 [H1 H]]. inversion H.
    intros q s Hq. simpl. eapply types_loop_keeps; eauto.
  - rewrite register_enum_unfold. intros H.
    apply bind_OK in H as [s1 [H1 H]]. inversion H.
    intros q s Hq. simpl. eapply add_declared_keeps; eauto.
  - intros [= <-]. apply keeps_options_refl.
Qed.

(** A registration whose declaration gives an option leaves a non-empty
    set. *)
Lemma register_option O data base_id self self' :
  register O data base_id self = OK self' ->
  declares_option data = true ->
  has_option self' base_id.
Proof.
  unfold register, declares_option.
  destruct (registration_of data) as [ty| |]; [| |discriminate].
  - rewrite register_types_unfold. intros H Hd.
    apply bind_OK in H as [s1 [H1 H]]. inversion H.
    apply existsb_exists in Hd as [dtype [Hin Hy]].
    unfold has_option. simpl.
    apply (for_each_establishes _ (fun s => has_option s base_id)
             _ _ _ dtype H1 Hin).
    + intros s s' Hs. eapply add_declared_option; eauto.
    + intros y s s' _ Hy' Hs. eapply has_option_kept; [|exact Hs].
      eapply add_declared_keeps, Hy'.
  - rewrite register_enum_unfold. intros H Hd.
    apply bind_OK in H as [s1 [H1 H]]. inversion H.
    unfold has_option. simpl. eapply add_declared_option; eauto.
Qed.

(** A registration creates the key unless the "type" is the empty list. *)
Lemma register_key O data base_id self self' :
  register O data base_id self = OK self' ->
  declares_type_or_enum data = true ->
  registration_of data <> ByType (VList []) ->
  is_Some (possible_options self' !! base_id).
Proof.
  rewrite declares_registration. unfold register.
  destruct (registration_of data) as [ty| |]; [| |discriminate].
  - rewrite register_types_unfold. intros H _ Hne.
    apply bind_OK in H as [s1 [H1 H]]. inversion H. simpl.
    assert (Hx : exists x, In x (data_types_of ty)).
    { destruct ty as [| | | |[|x l]|]; simpl; eauto. congruence. }
    destruct Hx as [x Hx].
    apply (for_each_establishes _
             (fun s => is_Some (possible_options s !! base_id))
             _ _ _ x H1 Hx).
    + intros s s'. apply add_declared_key.
    + intros y s s' _ Hy [s0 Hs].
      destruct (add_declared_keeps _ _ _ _ _ _ Hy base_id s0 Hs) as [s2 [Hs2 _]].
      eauto.
  - rewrite register_enum_unfold. intros H _ _.
    apply bind_OK in H as [s1 [H1 H]]. inversion H. simpl.
    eapply add_declared_key, H1.
Qed.

(** ** A run of registrations *)

Lemma run_visits_ids O l : forall self self',
  run_visits O l self = OK self' ->
  forall p,
    p ∈ question_ids self'
    <-> p ∈ question_ids self
        \/ exists d, In (p, d) l /\ declares_type_or_enum d = true.
Proof.
  induction l as [|[p0 d0] l IH]; intros self self' H p; simpl in H.
  - inversion H. split; [now left|]. intros [Hp|[d [[] _]]]. exact Hp.
  - unfold run_visits in H. simpl in H.
    destruct (register O d0 p0 self) as [s1|e] eqn:E; [|discriminate].
    rewrite (IH s1 self' H p), (register_ids _ _ _ _ _ E). clear IH H E.
    destruct (declares_type_or_enum d0) eqn:Ed.
    + rewrite elem_of_union, elem_of_singleton. split.
      * intros [[->|Hp]|[d [Hin Hd]]]; eauto.
        -- right. exists d0. split; [now left|exact Ed].
        -- right. exists d. split; [now right|exact Hd].
      * intros [Hp|[d [[Heq|Hin] Hd]]]; eauto.
        left. left. congruence.
    + split.
      * intros [Hp|[d [Hin Hd]]]; eauto.
        right. exists d. split; [now right|exact Hd].
      * intros [Hp|[d [[Heq|Hin] Hd]]]; eauto.
        inversion Heq; subst. congruence.
Qed.

Lemma run_visits_keeps O l self self' :
  run_visits O l self = OK self' -> keeps_options self self'.
Proof.
  intros H.
  apply (for_each_preserves _ (keeps_options self) _ _ _ H);
    [|apply keeps_options_refl].
  intros x s s' _ Hx Hs. eapply keeps_options_trans; [exact Hs|].
  eapply register_keeps, Hx.
Qed.

Lemma run_visits_option O l self self' p d :
  run_visits O l self = OK self' ->
  In (p, d) l ->
  declares_option d = true ->
  has_option self' p.
Proof.
  intros H Hin Hd.
  apply (for_each_establishes _ (fun s => has_option s p) _ _ _ (p, d) H Hin).
  - intros s s' Hs. eapply register_option; eauto.
  - intros y s s' _ Hy Hs. eapply has_option_kept; [|exact Hs].
    eapply register_keeps, Hy.
Qed.

Lemma run_visits_keys O l self self' :
  run_visits O l self = OK self' ->
  (forall p d, In (p, d) l -> registration_of d <> ByType (VList [])) ->
  ids_have_options self ->
  ids_have_options self'.
Proof.
  intros H Hl.
  apply (for_each_preserves _ ids_have_options _ _ _ H).
  intros [p d] s s' Hin Hx Hs q Hq. simpl in Hx.
  rewrite (register_ids _ _ _ _ _ Hx) in Hq.
  assert (Hold : q ∈ question_ids s -> is_Some (possible_options s' !! q)).
  { intros Hq'. destruct (Hs q Hq') as [s0 H0].
    destruct (register_keeps _ _ _ _ _ Hx q s0 H0) as [s1 [H1 _]]. eauto. }
  destruct (declares_type_or_enum d) eqn:Ed; [|auto].
  apply elem_of_union in Hq as [Hq|Hq]; [|auto].
  apply elem_of_singleton in Hq. subst q.
  eapply register_key; eauto.
Qed.

(** ** What the flattener registers *)

Lemma visits_self (kvs : list (string * pyval)) (base_id : string) :
  kvs <> [] -> In (base_id, kvs) (visits (VDict kvs) base_id).
Proof.
  destruct kvs as [|kv rest]; [congruence|]. intros _.
  change (visits (VDict (kv :: rest)) base_id) with
    (flat_map
       (fun kv' =>
          (if String.eqb (fst kv') "properties" then
             match snd kv' with
             | VDict props =>
                 flat_map (fun p => visits (snd p) (child_id base_id (fst p)))
                   props
             | _ => []
             end
           else visits (snd kv') base_id)
          ++ [(base_id, kv :: rest)]) (kv :: rest)).
  apply in_flat_map. exists kv. split; [now left|].
  apply in_or_app. right. now left.
Qed.

(** Below a key other than "properties" the path stays the same. *)
Lemma visits_other_key (kvs : list (string * pyval)) (base_id key : string)
    (value : pyval) (v : string * list (string * pyval)) :
  In (key, value) kvs ->
  String.eqb key "properties" = false ->
  In v (visits value base_id) ->
  In v (visits (VDict kvs) base_id).
Proof.
  intros Hin Hk Hv. simpl. apply in_flat_map. exists (key, value).
  split; [exact Hin|]. simpl. rewrite Hk. apply in_or_app. now left.
Qed.

(** Below "properties" the path is extended by the name of the property. *)
Lemma visits_property (kvs props : list (string * pyval))
    (base_id prop_id : string) (value : pyval)
    (v : string * list (string * pyval)) :
  In ("properties"%string, VDict props) kvs ->
  In (prop_id, value) props ->
  In v (visits value (child_id base_id prop_id)) ->
  In v (visits (VDict kvs) base_id).
Proof.
  intros Hin Hp Hv. simpl. apply in_flat_map.
  exists ("properties"%string, VDict props). split; [exact Hin|]. simpl.
  apply in_or_app. left. apply in_flat_map. exists (prop_id, value).
  split; [exact Hp|exact Hv].
Qed.

Lemma visits_item (items : list pyval) (base_id : string) (item : pyval)
    (v : string * list (string * pyval)) :
  In item items -> In v (visits item base_id) -> In v (visits (VList items) base_id).
Proof.
  intros Hin Hv. simpl. apply in_flat_map. now exists item.
Qed.

Lemma fold_set_add_not_nil {A} (g : A -> option_value) (l : list A)
    (s : list option_value) :
  s <> [] -> fold_left (fun acc x => set_add (g x) acc) l s <> [].
Proof.
  revert s. induction l as [|x l IH]; intros s Hs; simpl; [exact Hs|].
  apply IH, set_add_not_nil.
Qed.

Lemma enum_options_nil (enum : pyval) :
  enum_options enum = OK [] ->
  enum = VList [] \/ enum = VStr "" \/ enum = VDict [].
Proof.
  destruct enum as [| | |s|items|kvs]; simpl; try discriminate.
  - destruct s as [|c s]; [auto|]. simpl. intros [= H].
    now apply fold_set_add_not_nil in H; [|apply set_add_not_nil].
  - destruct items as [|x items]; [auto|]. simpl.
    destruct (as_literal x) as [l|]; [|discriminate]. intros H. exfalso.
    apply (for_each_preserves _ (fun s => s <> []) _ _ _ H); [| |reflexivity].
    + intros y s0 s1 _ Hy Hs0. destruct (as_literal y); [|discriminate].
      inversion Hy. apply set_add_not_nil.
    + apply set_add_not_nil.
  - destruct kvs as [|kv kvs]; [auto|]. simpl. intros [= H].
    now apply fold_set_add_not_nil in H; [|apply set_add_not_nil].
Qed.

(** X7. A declaration gives no option only for the string kind with an empty
    "enum". *)
Lemma get_data_options_nil (dtype : pyval) (data : list (string * pyval)) :
  _get_data_options dtype data = OK [] ->
  is_str dtype "string" = true
  /\ exists enum,
       dict_get data "enum" = Some enum
       /\ (enum = VList [] \/ enum = VStr "" \/ enum = VDict []).
Proof.
  unfold _get_data_options.
  destruct (is_str dtype "boolean"); [discriminate|].
  destruct (is_str dtype "integer").
  { destruct (get_bound data "minimum"); [|discriminate].
    destruct (get_bound data "maximum"); discriminate. }
  destruct (is_str dtype "number").
  { destruct (get_bound data "minimum"); [|discriminate].
    destruct (get_bound data "maximum"); discriminate. }
  destruct (is_str dtype "null"); [discriminate|].
  destruct (is_str dtype "string"); [|discriminate].
  unfold _handle_string_format.
  destruct (has_format data "date"); [discriminate|].
  destruct (has_format data "time"); [discriminate|].
  destruct (has_format data "date-time"); [discriminate|].
  destruct (dict_get data "enum") as [enum|]; [|discriminate].
  intros H. split; [reflexivity|]. exists enum. split; [reflexivity|].
  now apply enum_options_nil.
Qed.

(** C5 (as amended). When the construction succeeds, the QuestionIds are
    exactly the paths at which the walk visits a mapping that declares a
    "type" other than "object" or an "enum"; the path grows through
    "properties" only, so a schema below any other key of a container
    registers the path of the container. The possible-options set of such a
    path is non-empty when the declaration gives at least one option. *)
Theorem flattener_registers_visited_declarations (O : set_iteration)
    (schema : pyval) (fd : FormDefinition) :
  new_FormDefinition O schema = OK fd ->
  (forall p,
      p ∈ question_ids fd
      <-> exists d, In (p, d) (visits schema "")
                    /\ declares_type_or_enum d = true)
  /\ (forall p d,
        In (p, d) (visits schema "") ->
        declares_option d = true ->
        exists s, possible_options fd !! p = Some s /\ s <> []).
Proof.
  unfold new_FormDefinition. intros H. apply extract_runs_visits in H.
  split.
  - intros p. rewrite (run_visits_ids _ _ _ _ H p). simpl. split.
    + intros [Hp|Hp]; [|exact Hp]. now apply not_elem_of_empty in Hp.
    + intros Hp. now right.
  - intros p d Hin Hd. exact (run_visits_option _ _ _ _ _ _ H Hin Hd).
Qed.

Lemma flattener_registers_visited_declarations_witness :
  (forall p,
      p ∈ question_ids (built insertion_order schema_two_leaves)
      <-> exists d, In (p, d) (visits schema_two_leaves "")
                    /\ declares_type_or_enum d = true)
  /\ (forall p d,
        In (p, d) (visits schema_two_leaves "") ->
        declares_option d = true ->
        exists s,
          possible_options (built insertion_order schema_two_leaves) !! p
          = Some s /\ s <> []).
Proof.
  apply (flattener_registers_visited_declarations insertion_order
           schema_two_leaves (built insertion_order schema_two_leaves)).
  vm_compute. reflexivity.
Defined.

(** C5, counterexample. The path "p" of a pure container is registered as a
    QuestionId, and the leaf "e" is registered with an empty set. *)
Lemma container_registered_and_empty_options :
  exists fd,
    new_FormDefinition insertion_order schema_container = OK fd
    /\ bool_decide ("p"%string ∈ question_ids fd) = true
    /\ possible_options fd !! "p"%string = Some [FormInteger None None]
    /\ bool_decide ("e"%string ∈ question_ids fd) = true
    /\ possible_options fd !! "e"%string = Some [].
Proof.
  eexists. split; [vm_compute; reflexivity|]. vm_compute. repeat split.
Qed.

(** ** Registered identifiers and the keys of [possible_options] *)

Lemma registration_empty_type (d : list (string * pyval)) :
  registration_of d = ByType (VList []) ->
  dict_get d "type" = Some (VList []).
Proof.
  unfold registration_of. destruct (dict_get d "type") as [ty|].
  - destruct (is_str ty "object"); simpl.
    + destruct (dict_has d "enum"); discriminate.
    + now intros [= ->].
  - destruct (dict_has d "enum"); discriminate.
Qed.

(** C10 (as amended). After a construction over a schema in which no visited
    mapping has the empty list as "type", every identifier of [question_ids]
    is a key of [possible_options], and the lookup of the enumeration-value
    stage does not miss for a QA whose [question_id] is registered. *)
Theorem question_ids_are_keys (O : set_iteration) (schema : pyval)
    (fd : FormDefinition) :
  new_FormDefinition O schema = OK fd ->
  no_empty_type_list schema = true ->
  (forall q, q ∈ question_ids fd -> is_Some (possible_options fd !! q))
  /\ (forall q : qa,
        question_id q ∈ question_ids fd ->
        forall key, _validate_enumeration_value_ids fd q <> Raise (KeyError key)).
Proof.
  unfold new_FormDefinition. intros H Hne. apply extract_runs_visits in H.
  assert (Hkeys : ids_have_options fd).
  { apply (run_visits_keys _ _ _ _ H).
    - intros p d Hin Hreg. apply registration_empty_type in Hreg.
      unfold no_empty_type_list in Hne. rewrite forallb_forall in Hne.
      specialize (Hne (p, d) Hin). simpl in Hne. now rewrite Hreg in Hne.
    - intros p Hp. simpl in Hp. now apply not_elem_of_empty in Hp. }
  split; [exact Hkeys|].
  intros q Hq key. destruct (Hkeys _ Hq) as [s Hs].
  unfold _validate_enumeration_value_ids. rewrite Hs.
  destruct (existsb _ s); discriminate.
Qed.

Lemma question_ids_are_keys_witness :
  (forall q, q ∈ question_ids (built insertion_order schema_two_leaves) ->
             is_Some (possible_options (built insertion_order schema_two_leaves)
                        !! q))
  /\ (forall q : qa,
        question_id q ∈ question_ids (built insertion_order schema_two_leaves) ->
        forall key,
          _validate_enumeration_value_ids
            (built insertion_order schema_two_leaves) q
          <> Raise (KeyError key)).
Proof.
  apply (question_ids_are_keys insertion_order schema_two_leaves
           (built insertion_order schema_two_leaves)).
  - vm_compute. reflexivity.
  - vm_compute. reflexivity.
Defined.

(** C10, counterexample. A leaf whose "type" is the empty list is registered
    without a key in [possible_options], and the lookup of the
    enumeration-value stage raises [KeyError] for it. *)
Lemma empty_type_list_has_no_key :
  exists fd,
    new_FormDefinition insertion_order schema_empty_type = OK fd
    /\ bool_decide ("q"%string ∈ question_ids fd) = true
    /\ possible_options fd !! "q"%string = None
    /\ _validate_enumeration_value_ids fd
         {| qa_id := "R1_q"; question_id := "q";
            enumeration_value_id := VNum (PInt 1); answers := [] |}
       = Raise (KeyError "q").
Proof.
  eexists. split; [vm_compute; reflexivity|]. vm_compute. repeat split.
Qed.

(** ** The evidence check of a "single" answer *)

Lemma get_lt (s : string) : forall i,
  (i < String.length s)%nat -> exists c, get i s = Some c.
Proof.
  induction s as [|c s IH]; intros i H; simpl in *; [lia|].
  destruct i as [|i]; [now exists c|]. apply IH. lia.
Qed.

Lemma get_ge (s : string) : forall i,
  (String.length s <= i)%nat -> get i s = None.
Proof.
  induction s as [|c s IH]; intros i H; simpl in *; [reflexivity|].
  destruct i as [|i]; [lia|]. apply IH. lia.
Qed.

Lemma str_len_nonempty (t : string) : 1 <= str_len t <-> t <> ""%string.
Proof.
  unfold str_len. destruct t; simpl; split; intros H; try congruence; lia.
Qed.

Lemma constant_text_adjacent (t : string) :
  (forall i, (i + 1 < String.length t)%nat -> get i t = get (i + 1) t) ->
  constant_text t = true.
Proof.
  induction t as [|c t IH]; intros H; [reflexivity|].
  destruct t as [|d r]; [reflexivity|].
  change (Ascii.eqb c d && constant_text (String d r) = true).
  apply andb_true_iff. split.
  - specialize (H 0%nat). simpl in H. apply Ascii.eqb_eq.
    assert (Some c = Some d) by (apply H; lia). congruence.
  - apply IH. intros i Hi. specialize (H (S i)). simpl in H. simpl.
    apply H. simpl in Hi. lia.
Qed.

(** A slice that equals a non-empty text lies inside the context, and its
    characters are those of the context from the offset on. *)
Lemma slice_characters (context t : string) (start : Z) :
  0 <= start ->
  t <> ""%string ->
  py_slice context start (start + str_len t) = t ->
  forall i, (i < String.length t)%nat ->
            get i t = get (i + Z.to_nat start) context.
Proof.
  intros Hs Ht Heq.
  unfold py_slice, slice_index in Heq.
  apply str_len_nonempty in Ht. unfold str_len in *.
  destruct (start <? 0) eqn:E1; [lia|].
  destruct (start + Z.of_nat (String.length t) <? 0) eqn:E2; [lia|].
  set (len := Z.of_nat (String.length context)) in *.
  set (k := Z.to_nat (Z.min start len)) in *.
  set (m := Z.to_nat (Z.min (start + Z.of_nat (String.length t)) len
                      - Z.min start len)) in *.
  assert (Hget : forall i, (i < String.length t)%nat ->
                           get i t = get (i + k) context).
  { intros i Hi. destruct (le_lt_dec m i) as [Hm|Hm].
    - destruct (get_lt t i Hi) as [c Hc].
      rewrite <- Heq in Hc. rewrite substring_correct2 in Hc by exact Hm.
      discriminate.
    - rewrite <- Heq at 1. now apply substring_correct1. }
  assert (Hk : (k < String.length context)%nat).
  { destruct (le_lt_dec (String.length context) k) as [Hge|Hlt]; [|exact Hlt].
    destruct (get_lt t 0%nat ltac:(lia)) as [c Hc].
    rewrite Hget in Hc by lia. rewrite get_ge in Hc by (simpl; lia).
    discriminate. }
  assert (k = Z.to_nat start) by (unfold k, len in *; lia).
  intros i Hi. rewrite Hget by exact Hi. congruence.
Qed.

(** A text found at two offsets one apart repeats one character. *)
Lemma slice_shift_constant (context t : string) (start : Z) :
  0 <= start ->
  t <> ""%string ->
  py_slice context start (start + str_len t) = t ->
  py_slice context (start + 1) (start + 1 + str_len t) = t ->
  constant_text t = true.
Proof.
  intros Hs Ht H0 H1. apply constant_text_adjacent. intros i Hi.
  rewrite (slice_characters context t (start + 1) ltac:(lia) Ht H1 i)
    by lia.
  rewrite (slice_characters context t start Hs Ht H0 (i + 1)) by lia.
  f_equal. lia.
Qed.

Lemma single_answer_iff (a : answer) (context : string) :
  _validate_single_answer a context = OK tt
  <-> exists t start,
        text a = VStr t
        /\ as_int (answer_start a) = Some start
        /\ t <> ""%string
        /\ 0 <= start
        /\ py_slice context start (start + str_len t) = t.
Proof.
  unfold _validate_single_answer. split.
  - destruct (text a) as [| | |t| |]; try discriminate.
    destruct (as_int (answer_start a)) as [start|]; [|discriminate].
    destruct ((1 <=? str_len t) && (0 <=? start)) eqn:E1; [|discriminate].
    simpl.
    destruct (String.eqb (py_slice context start (start + str_len t)) t)
      eqn:E2; [|discriminate].
    intros _. exists t, start. apply andb_true_iff in E1 as [E1 E3].
    apply String.eqb_eq in E2.
    repeat split; auto; [apply str_len_nonempty|]; lia.
  - intros [t [start [-> [-> [Ht [Hs Hsl]]]]]].
    apply str_len_nonempty in Ht.
    replace ((1 <=? str_len t) && (0 <=? start)) with true
      by (symmetry; apply andb_true_iff; split; lia).
    simpl. rewrite Hsl, String.eqb_refl. reflexivity.
Qed.

(** C3 (as amended). A "single" answer passes the evidence check exactly
    when its text is a non-empty string, its [answer_start] is an [int] that
    is not negative (a [bool] counting as 0 or 1), and the slice of the
    context from [answer_start] of the length of the text equals the text.
    When it passes and the text does not repeat one character, the same text
    at an offset one higher or one lower fails. *)
Theorem single_answer_evidence (context : string) (a : answer) :
  (_validate_single_answer a context = OK tt
   <-> exists t start,
         text a = VStr t
         /\ as_int (answer_start a) = Some start
         /\ t <> ""%string
         /\ 0 <= start
         /\ py_slice context start (start + str_len t) = t)
  /\ (forall t start,
        _validate_single_answer a context = OK tt ->
        text a = VStr t ->
        as_int (answer_start a) = Some start ->
        constant_text t = false ->
        forall a',
          text a' = VStr t ->
          as_int (answer_start a') = Some (start + 1)
          \/ as_int (answer_start a') = Some (start - 1) ->
          _validate_single_answer a' context <> OK tt).
Proof.
  split; [apply single_answer_iff|].
  intros t start Hok Ht Hstart Hconst a' Ht' Hoff Hok'.
  apply single_answer_iff in Hok as [t1 [s1 [Ht1 [Hs1 [Hne [Hpos Hsl]]]]]].
  apply single_answer_iff in Hok' as [t2 [s2 [Ht2 [Hs2 [_ [Hpos' Hsl']]]]]].
  rewrite Ht in Ht1. rewrite Ht' in Ht2. rewrite Hstart in Hs1.
  inversion Ht1; inversion Ht2; inversion Hs1; subst t1 t2 s1. clear Ht1 Ht2 Hs1.
  assert (Hc : constant_text t = true).
  { destruct Hoff as [Hoff|Hoff]; rewrite Hoff in Hs2; inversion Hs2; subst s2.
    - exact (slice_shift_constant context t start Hpos Hne Hsl Hsl').
    - apply (slice_shift_constant context t (start - 1) Hpos' Hne Hsl').
      now replace (start - 1 + 1) with start by lia. }
  congruence.
Qed.

Lemma single_answer_evidence_witness :
  _validate_single_answer (single "fever" 6) "high fever today" <> OK tt
  /\ _validate_single_answer (single "fever" 4) "high fever today" <> OK tt.
Proof.
  pose proof (proj2 (single_answer_evidence "high fever today"
                       (single "fever" 5)) "fever"%string 5) as H.
  split.
  - apply H; try reflexivity. left. reflexivity.
  - apply H; try reflexivity. right. reflexivity.
Defined.

(** C3, counterexample. The text "aa" is found in "aaa" at offset 0 and at
    offset 1: an offset one off passes. *)
Lemma off_by_one_offset_passes :
  _validate_single_answer (single "aa" 0) "aaa" = OK tt
  /\ _validate_single_answer (single "aa" 1) "aaa" = OK tt.
Proof. split; reflexivity. Qed.

(** ** The dataset validator *)

Section dataset_facts.
Context (validate : pyval -> pyval -> option exn).

(** The set created by [validate_dataset] is empty when it is passed, so
    [used_ids or set()] replaces it and it is never written to. *)
Lemma validate_report_leaves_empty_set (self : FormDefinition) (r : report)
    (flag : bool) :
  fst (validate_report validate self r flag (Some ∅)) = Some ∅.
Proof. reflexivity. Qed.

Lemma validate_report_on_empty_set (self : FormDefinition) (r : report)
    (flag : bool) :
  snd (validate_report validate self r flag (Some ∅))
  = snd (validate_report_with validate self r flag ∅).
Proof. reflexivity. Qed.




(** An exception of another kind raised for the first report leaves
    [validate_dataset]. *)
Lemma validate_dataset_escape (self : FormDefinition) (r : report)
    (rest : list report) (flag : bool) (e : exn) :
  snd (validate_report validate self r flag (Some ∅)) = Raise e ->
  escapes (Raise e) = true ->
  validate_dataset validate self (r :: rest) flag = ([], Raise e).
Proof.
  intros Hr He. unfold validate_dataset. cbn [validate_reports].
  destruct (validate_report validate self r flag (Some ∅)) as [u res] eqn:E.
  cbn [snd] in Hr. subst res.
  destruct e; try discriminate He; reflexivity.
Qed.
End dataset_facts.

(** ** Which exceptions the report validator raises *)





Section report_facts.
Context (validate : pyval -> pyval -> option exn).


End report_facts.

(** ** Runs on concrete datasets *)


Example dataset_with_bad_offset :
  validate_dataset accept_all (built insertion_order schema_q1)
    [report_R1; report_R1_bad] true
  = ([LogError "R1" (AnswerNotFound (VStr "fever") (VNum (PInt 11)));
      LogInfo "1/2 reports were invalid."], OK tt).
Proof. vm_compute. reflexivity. Qed.


(** C4, the code at the failing input. The set that [validate_dataset]
    creates is empty, so [validate_report] replaces it and never writes to
    it: two reports of one run that carry the QA id "R1_q1" both pass.
    The duplicate is found when the set passed in already holds the id, and
    when the id occurs twice in one report. *)
Theorem duplicate_in_two_reports_passes
    (validate : pyval -> pyval -> option exn) :
  validate_dataset validate (built insertion_order schema_q1)
    [report_R1; report_R1] false
  = ([LogInfo "0/2 reports were invalid."], OK tt)
  /\ snd (validate_report validate (built insertion_order schema_q1)
            report_R1 false (Some {["R1_q1"%string]}))
     = Raise (ValueError (DuplicateId "R1_q1" "R1"))
  /\ validate_dataset validate (built insertion_order schema_q1)
       [report_R1_twice] false
     = ([LogError "R1" (DuplicateId "R1_q1" "R1");
         LogInfo "1/1 reports were invalid."], OK tt).
Proof. repeat split; vm_compute; reflexivity. Qed.

(** C9, the code at the failing input. A report that fails the evidence
    check leaves its QA id in a non-empty set passed by the caller, but not
    in the set of [validate_dataset], which stays empty: a later report of the
    run that reuses the id passes. *)
Theorem id_of_failed_report_not_kept
    (validate : pyval -> pyval -> option exn) :
  validate_dataset validate (built insertion_order schema_q1)
    [report_R1_bad; report_R1] false
  = ([LogError "R1" (AnswerNotFound (VStr "fever") (VNum (PInt 11)));
      LogInfo "1/2 reports were invalid."], OK tt)
  /\ validate_report validate (built insertion_order schema_q1)
       report_R1_bad false (Some ∅)
     = (Some ∅,
        Raise (ValueError (AnswerNotFound (VStr "fever") (VNum (PInt 11)))))
  /\ validate_report validate (built insertion_order schema_q1)
       report_R1_bad false (Some {["R0_q1"%string]})
     = (Some {["R1_q1"%string; "R0_q1"%string]},
        Raise (ValueError (AnswerNotFound (VStr "fever") (VNum (PInt 11))))).
Proof. repeat split; vm_compute; reflexivity. Qed.

(** C8, counterexample. For a question whose enumeration holds the number 2
    the helper answers false for "enum", although a literal option is
    present. *)
Lemma numeric_enum_is_not_enum :
  exists fd,
    new_FormDefinition insertion_order schema_numeric_enum = OK fd
    /\ possible_options fd !! "q"%string = Some [Lit (LNum (PInt 2))]
    /\ question_includes_datatype fd "q" "enum" = OK false.
Proof.
  eexists. split; [vm_compute; reflexivity|]. vm_compute. split; reflexivity.
Qed.

Lemma question_includes_datatype_spec_witness :
  exists answer,
    question_includes_datatype (built insertion_order schema_two_leaves)
      "nihss" "integer" = OK answer
    /\ (answer = true <->
        exists op, In op [FormInteger (Some (PInt 0)) (Some (PInt 42))]
                   /\ is_form op = true
                   /\ data_type op = Some "integer"%string).
Proof.
  apply (question_includes_datatype_spec
           (built insertion_order schema_two_leaves) "nihss" "integer"
           [FormInteger (Some (PInt 0)) (Some (PInt 42))]).
  vm_compute. reflexivity.
Defined.

(** ** Dates *)

Lemma digit_of_inv (c : ascii) (d : Z) :
  digit_of c = Some d ->
  0 <= d <= 9 /\ c = ascii_of_nat (Z.to_nat (d + 48)).
Proof.
  unfold digit_of.
  destruct ((48 <=? Z.of_nat (nat_of_ascii c))
            && (Z.of_nat (nat_of_ascii c) <=? 57)) eqn:E; [|discriminate].
  intros [= <-]. apply andb_true_iff in E as [E1 E2].
  split; [lia|].
  replace (Z.of_nat (nat_of_ascii c) - 48 + 48) with (Z.of_nat (nat_of_ascii c))
    by lia.
  now rewrite Nat2Z.id, ascii_nat_embedding.
Qed.

Lemma digit_of_not_dash (c : ascii) (d : Z) :
  digit_of c = Some d -> Ascii.eqb "-" c = false.
Proof.
  intros H. apply Ascii.eqb_neq. intros <-. discriminate H.
Qed.

Section parser_facts.
Context {A B : Type}.

Lemma In_p_bind (p : parser A) (f : A -> parser B) (s r : string) (b : B) :
  In (b, r) (p_bind p f s)
  <-> exists a r', In (a, r') (p s) /\ In (b, r) (f a r').
Proof.
  unfold p_bind. rewrite in_flat_map. split.
  - intros [[a r'] [H1 H2]]. now exists a, r'.
  - intros [a [r' [H1 H2]]]. now exists (a, r').
Qed.

Lemma In_p_alt (p q : parser A) (s : string) (x : A * string) :
  In x (p_alt p q s) <-> In x (p s) \/ In x (q s).
Proof. unfold p_alt. apply in_app_iff. Qed.

(** The first match of a sequence is the first match of the continuation
    on the first match of the head, when there is one. *)
Lemma p_bind_first (p : parser A) (f : A -> parser B) (s r : string)
    (a : A) (tl : list (A * string)) (x : B * string)
    (tl' : list (B * string)) :
  p s = (a, r) :: tl ->
  f a r = x :: tl' ->
  exists rest, p_bind p f s = x :: rest.
Proof.
  intros Hp Hf. unfold p_bind. rewrite Hp. simpl. rewrite Hf.
  simpl. eauto.
Qed.
End parser_facts.

Lemma In_p_digit (lo hi : Z) (s r : string) (d : Z) :
  In (d, r) (p_digit lo hi s)
  <-> exists c, s = String c r /\ digit_of c = Some d /\ lo <= d <= hi.
Proof.
  unfold p_digit. split.
  - destruct s as [|c s]; [intros []|].
    destruct (digit_of c) as [d'|] eqn:E; [|intros []].
    destruct ((lo <=? d') && (d' <=? hi)) eqn:R; [|intros []].
    intros [[= <- <-]|[]]. apply andb_true_iff in R as [R1 R2].
    exists c. repeat split; auto; lia.
  - intros [c [-> [Hc Hr]]]. rewrite Hc.
    replace ((lo <=? d) && (d <=? hi)) with true
      by (symmetry; apply andb_true_iff; split; lia).
    now left.
Qed.

Lemma In_p_two (lo1 hi1 lo2 hi2 : Z) (s r : string) (v : Z) :
  In (v, r) (p_two lo1 hi1 lo2 hi2 s)
  <-> exists c1 c2 d1 d2,
        s = String c1 (String c2 r)
        /\ digit_of c1 = Some d1 /\ digit_of c2 = Some d2
        /\ lo1 <= d1 <= hi1 /\ lo2 <= d2 <= hi2 /\ v = 10 * d1 + d2.
Proof.
  unfold p_two. rewrite In_p_bind. split.
  - intros [d1 [r1 [H1 H2]]]. apply In_p_digit in H1 as [c1 [-> [Hc1 R1]]].
    apply In_p_bind in H2 as [d2 [r2 [H2 H3]]].
    apply In_p_digit in H2 as [c2 [-> [Hc2 R2]]].
    destruct H3 as [[= <- <-]|[]]. exists c1, c2, d1, d2. auto 10.
  - intros [c1 [c2 [d1 [d2 [-> [Hc1 [Hc2 [R1 [R2 ->]]]]]]]]].
    exists d1, (String c2 r). split; [apply In_p_digit; eauto|].
    apply In_p_bind. exists d2, r. split; [apply In_p_digit; eauto|].
    now left.
Qed.

Lemma In_p_lit (c : ascii) (s r : string) :
  In (tt, r) (p_lit c s) <-> s = String c r.
Proof.
  unfold p_lit, p_char. split.
  - destruct s as [|c' s]; [intros []|].
    destruct (Ascii.eqb c c') eqn:E; [|intros []].
    apply Ascii.eqb_eq in E. subst. now intros [[= <-]|[]].
  - intros ->. rewrite Ascii.eqb_refl. now left.
Qed.

(** Every match of a directive reads a text of its shape. *)
Lemma In_re_Y (s r : string) (y : Z) :
  In (y, r) (re_Y s) -> exists ys, s = String.append ys r /\ year_text ys y.
Proof.
  unfold re_Y. intros H.
  apply In_p_bind in H as [hi [r1 [H1 H]]].
  apply In_p_two in H1 as [c1 [c2 [d1 [d2 [-> [Hc1 [Hc2 [_ [_ ->]]]]]]]]].
  apply In_p_bind in H as [lo [r2 [H2 H]]].
  apply In_p_two in H2 as [c3 [c4 [d3 [d4 [-> [Hc3 [Hc4 [_ [_ ->]]]]]]]]].
  destruct H as [[= <- <-]|[]].
  exists (String c1 (String c2 (String c3 (String c4 "")))).
  split; [reflexivity|].
  replace (100 * (10 * d1 + d2) + (10 * d3 + d4))
    with (1000 * d1 + 100 * d2 + 10 * d3 + d4) by lia.
  now constructor.
Qed.

Lemma In_re_m (s r : string) (m : Z) :
  In (m, r) (re_m s) -> exists ms, s = String.append ms r /\ month_text ms m.
Proof.
  unfold re_m. intros H.
  repeat (apply In_p_alt in H as [H|H]).
  - apply In_p_two in H as [c1 [c2 [d1 [d2 [-> [Hc1 [Hc2 [R1 [R2 ->]]]]]]]]].
    exists (String c1 (String c2 "")). split; [reflexivity|].
    constructor; auto; lia.
  - apply In_p_two in H as [c1 [c2 [d1 [d2 [-> [Hc1 [Hc2 [R1 [R2 ->]]]]]]]]].
    exists (String c1 (String c2 "")). split; [reflexivity|].
    constructor; auto; lia.
  - apply In_p_digit in H as [c [-> [Hc R]]].
    exists (String c ""). split; [reflexivity|]. now constructor.
Qed.

Lemma In_re_d (s r : string) (d : Z) :
  In (d, r) (re_d s) -> exists ds, s = String.append ds r /\ day_text ds d.
Proof.
  unfold re_d. intros H.
  repeat (apply In_p_alt in H as [H|H]).
  1-3: apply In_p_two in H as [c1 [c2 [d1 [d2 [-> [Hc1 [Hc2 [R1 [R2 ->]]]]]]]]];
    exists (String c1 (String c2 "")); (split; [reflexivity|]);
    constructor; auto; lia.
  - apply In_p_digit in H as [c [-> [Hc R]]].
    exists (String c ""). split; [reflexivity|]. now constructor.
  - apply In_p_bind in H as [[] [r1 [H1 H]]].
    apply In_p_lit in H1 as ->.
    apply In_p_digit in H as [c [-> [Hc R]]].
    exists (String " " (String c "")). split; [reflexivity|].
    now apply day_space.
Qed.

Lemma append_assoc (a b c : string) :
  String.append (String.append a b) c = String.append a (String.append b c).
Proof.
  induction a as [|x a IH]; [reflexivity|].
  change (String x (String.append (String.append a b) c)
          = String x (String.append a (String.append b c))).
  now rewrite IH.
Qed.

Lemma append_empty (a : string) : String.append a "" = a.
Proof.
  induction a as [|x a IH]; [reflexivity|].
  change (String x (String.append a "") = String x a). now rewrite IH.
Qed.

Lemma append_cons (x : ascii) (a b : string) :
  String.append (String x a) b = String x (String.append a b).
Proof. reflexivity. Qed.

Lemma In_re_Ymd (s r : string) (ymd : Z * Z * Z) :
  In (ymd, r) (re_Ymd s) ->
  exists t, s = String.append t r /\ date_text t ymd.
Proof.
  unfold re_Ymd. intros H.
  apply In_p_bind in H as [y [r1 [Hy H]]].
  apply In_re_Y in Hy as [ys [-> Hys]].
  apply In_p_bind in H as [[] [r2 [H1 H]]]. apply In_p_lit in H1 as ->.
  apply In_p_bind in H as [m [r3 [Hm H]]].
  apply In_re_m in Hm as [ms [-> Hms]].
  apply In_p_bind in H as [[] [r4 [H2 H]]]. apply In_p_lit in H2 as ->.
  apply In_p_bind in H as [d [r5 [Hd H]]].
  apply In_re_d in Hd as [ds [-> Hds]].
  destruct H as [[= <- <-]|[]].
  exists (String.append ys (String "-" (String.append ms (String "-" ds)))).
  split; [|now constructor].
  now rewrite !append_assoc, append_cons, !append_assoc, append_cons.
Qed.

(** What [strptime] accepts reads as a date text. *)
Lemma full_match_date_text (s : string) (ymd : Z * Z * Z) :
  full_match re_Ymd s = Some ymd -> date_text s ymd.
Proof.
  unfold full_match. destruct (re_Ymd s) as [|[a r] tl] eqn:E; [discriminate|].
  destruct r; [|discriminate]. intros [= <-].
  assert (H : In (a, ""%string) (re_Ymd s)) by (rewrite E; now left).
  apply In_re_Ymd in H as [t [-> Ht]]. now rewrite append_empty.
Qed.

Ltac digit_char H :=
  let R := fresh "R" in apply digit_of_inv in H as [R ->].

Ltac digit_values d :=
  let H := fresh "H" in
  assert (H : d = 0 \/ d = 1 \/ d = 2 \/ d = 3 \/ d = 4 \/ d = 5 \/ d = 6
              \/ d = 7 \/ d = 8 \/ d = 9) by lia;
  destruct H as [->|[->|[->|[->|[->|[->|[->|[->|[->| ->]]]]]]]]].

Lemma p_digit_any (c : ascii) (d : Z) (r : string) :
  digit_of c = Some d -> p_digit 0 9 (String c r) = [(d, r)].
Proof.
  intros H. unfold p_digit. rewrite H.
  apply digit_of_inv in H as [R _].
  replace ((0 <=? d) && (d <=? 9)) with true
    by (symmetry; apply andb_true_iff; split; lia).
  reflexivity.
Qed.

(** The text of a year is matched in one way. *)
Lemma re_Y_first (ys r : string) (y : Z) :
  year_text ys y -> re_Y (String.append ys r) = [(y, r)].
Proof.
  intros [c1 c2 c3 c4 d1 d2 d3 d4 H1 H2 H3 H4].
  unfold re_Y, p_two, p_bind. rewrite !append_cons.
  rewrite (p_digit_any c1 d1 _ H1). cbn [flat_map fst snd app].
  rewrite (p_digit_any c2 d2 _ H2). cbn [flat_map fst snd app p_ret].
  rewrite (p_digit_any c3 d3 _ H3). cbn [flat_map fst snd app].
  rewrite (p_digit_any c4 d4 _ H4). cbn [flat_map fst snd app p_ret].
  do 2 f_equal. lia.
Qed.

(** Before a hyphen, the text of a month is matched first as a whole. *)
Lemma re_m_first (ms r : string) (m : Z) :
  month_text ms m ->
  exists tl, re_m (String.append ms (String "-" r)) = (m, String "-" r) :: tl.
Proof.
  intros [c1 c2 d1 d2 H1 H2 R|c d H R].
  - digit_char H1. digit_char H2.
    digit_values d1; digit_values d2; try lia;
      vm_compute; eexists; reflexivity.
  - digit_char H. digit_values d; try lia; vm_compute; eexists; reflexivity.
Qed.

(** At the end of the string, the text of a day is matched first as a
    whole. *)
Lemma re_d_first (ds : string) (d : Z) :
  day_text ds d -> exists tl, re_d ds = (d, ""%string) :: tl.
Proof.
  intros [c1 c2 d1 d2 H1 H2 R|c d' H R|c d' H R].
  - digit_char H1. digit_char H2.
    digit_values d1; digit_values d2; try lia;
      vm_compute; eexists; reflexivity.
  - digit_char H. digit_values d'; try lia; vm_compute; eexists; reflexivity.
  - digit_char H. digit_values d'; try lia; vm_compute; eexists; reflexivity.
Qed.

Lemma p_lit_first (c : ascii) (r : string) : p_lit c (String c r) = [(tt, r)].
Proof. unfold p_lit, p_char. now rewrite Ascii.eqb_refl. Qed.

(** A date text is what [strptime] accepts, with the same reading. *)
Lemma date_text_full_match (s : string) (ymd : Z * Z * Z) :
  date_text s ymd -> full_match re_Ymd s = Some ymd.
Proof.
  intros [ys ms ds y m d Hy Hm Hd].
  destruct (re_m_first ms ds m Hm) as [tlm Em].
  destruct (re_d_first ds d Hd) as [tld Ed].
  assert (H5 : exists rest,
             p_bind re_d (fun d0 => p_ret (y, m, d0)) ds
             = ((y, m, d), ""%string) :: rest).
  { eapply p_bind_first; [exact Ed|reflexivity]. }
  destruct H5 as [r5 H5].
  assert (H4 : exists rest,
             p_bind (p_lit "-")
               (fun _ => p_bind re_d (fun d0 => p_ret (y, m, d0)))
               (String "-" ds)
             = ((y, m, d), ""%string) :: rest).
  { eapply p_bind_first; [apply p_lit_first|exact H5]. }
  destruct H4 as [r4 H4].
  assert (H3 : exists rest,
             p_bind re_m
               (fun m0 => p_bind (p_lit "-")
                  (fun _ => p_bind re_d (fun d0 => p_ret (y, m0, d0))))
               (String.append ms (String "-" ds))
             = ((y, m, d), ""%string) :: rest).
  { eapply p_bind_first; [exact Em|exact H4]. }
  destruct H3 as [r3 H3].
  assert (H2 : exists rest,
             p_bind (p_lit "-")
               (fun _ => p_bind re_m
                  (fun m0 => p_bind (p_lit "-")
                     (fun _ => p_bind re_d (fun d0 => p_ret (y, m0, d0)))))
               (String "-" (String.append ms (String "-" ds)))
             = ((y, m, d), ""%string) :: rest).
  { eapply p_bind_first; [apply p_lit_first|exact H3]. }
  destruct H2 as [r2 H2].
  assert (H1 : exists rest,
             re_Ymd (String.append ys
                       (String "-" (String.append ms (String "-" ds))))
             = ((y, m, d), ""%string) :: rest).
  { unfold re_Ymd. eapply p_bind_first; [apply re_Y_first, Hy|exact H2]. }
  destruct H1 as [r1 H1].
  unfold full_match. now rewrite H1.
Qed.

(** C6 (as amended). [FormDate().is_valid(var)] accepts exactly the strings
    that read as a four-digit year, a hyphen, a month written with two
    digits or with one, a hyphen, and a day written with two digits, with one,
    or with a space and one digit, and that name a day of the calendar.
    "2023-02-30" is rejected and "2023-02-28" is accepted; so is "2023-2-3",
    which is not of the shape YYYY-MM-DD. The characters of a string are
    single bytes here, so a digit is one of 0 to 9. *)
Theorem FormDate_is_valid_iff (var : pyval) :
  (is_valid FormDate var = true
   <-> exists s ymd,
         var = VStr s /\ date_text s ymd /\ valid_date ymd = true)
  /\ is_valid FormDate (VStr "2023-02-30") = false
  /\ is_valid FormDate (VStr "2023-02-28") = true
  /\ is_valid FormDate (VStr "2023-2-3") = true.
Proof.
  split; [|repeat split].
  simpl. split.
  - destruct var as [| | |s| |]; try discriminate.
    unfold strptime_date.
    destruct (full_match re_Ymd s) as [ymd|] eqn:E; [|discriminate].
    intros Hv. exists s, ymd. repeat split; auto.
    now apply full_match_date_text.
  - intros [s [ymd [-> [Ht Hv]]]]. unfold strptime_date.
    now rewrite (date_text_full_match s ymd Ht).
Qed.

(** C6, counterexample. A month and a day written with one digit are
    accepted: "2023-2-3" is valid for a date. *)
Lemma one_digit_month_and_day_accepted :
  is_valid FormDate (VStr "2023-2-3") = true
  /\ String.length "2023-2-3" <> String.length "YYYY-MM-DD".
Proof. split; [reflexivity|discriminate]. Qed.

(** ** Further runs of the model *)

Example strptime_examples :
  strptime_date "2024-02-29" = true
  /\ strptime_date "2023-02-29" = false
  /\ strptime_date "2023-13-01" = false
  /\ strptime_date "2023-02-281" = false
  /\ strptime_date "0000-01-01" = false
  /\ strptime_time "23:59:59" = true
  /\ strptime_time "1:2:60" = false
  /\ strptime_datetime "2023-02-28T10:00:59" = true
  /\ strptime_datetime "2023-02-28 10:00:59" = false.
Proof. vm_compute. repeat split. Qed.

(** Two declarations of the integer kind for one path, under "anyOf": the
    set of the path holds one instance, without bounds. *)
Example merge_through_schema :
  possible_options
    (built insertion_order
       (VDict [("properties"%string,
                VDict [("q"%string,
                        VDict [("anyOf"%string,
                                VList [VDict [("type"%string, VStr "integer");
                                              ("minimum"%string, VNum (PInt 0))];
                                       VDict [("type"%string, VStr "integer");
                                              ("maximum"%string,
                                               VNum (PInt 10))]])])])]))
    !! "q"%string
  = Some [FormInteger (Some neg_inf) (Some pos_inf)].
Proof. vm_compute. reflexivity. Qed.

(** The registration runs once per key of a mapping, so a leaf with two keys
    is merged with itself; a maximum of zero is read as absent by
    [x or float('inf')] and becomes plus infinity. *)
Example maximum_zero_after_registration :
  possible_options
    (built insertion_order
       (VDict [("properties"%string,
                VDict [("q"%string,
                        VDict [("type"%string, VStr "integer");
                               ("maximum"%string, VNum (PInt 0))])])]))
    !! "q"%string
  = Some [FormInteger (Some neg_inf) (Some pos_inf)].
Proof. vm_compute. reflexivity. Qed.

Example split_and_slice :
  split_dot "a.b..c" = ["a"; "b"; ""; "c"]%string
  /\ split_dot "" = [""%string]
  /\ py_slice "hello" 1 3 = "el"%string
  /\ py_slice "hello" 3 10 = "lo"%string
  /\ py_slice "hello" (-3) (-1) = "ll"%string.
Proof. vm_compute. repeat split. Qed.

(** * Further properties *)

(** ** Order of numbers and widening *)

Lemma compare_scale (a b p : Z) : 0 < p -> (a * p ?= b * p) = (a ?= b).
Proof.
  intros Hp.
  destruct (Z.compare_spec a b) as [->|H|H].
  - apply Z.compare_refl.
  - apply Z.compare_lt_iff. nia.
  - apply Z.compare_gt_iff. nia.
Qed.

Lemma dyadic_compare_scale (m1 e1 m2 e2 e : Z) :
  e <= e1 -> e <= e2 ->
  (m1 * 2 ^ (e1 - e) ?= m2 * 2 ^ (e2 - e))
  = (m1 * 2 ^ (e1 - Z.min e1 e2) ?= m2 * 2 ^ (e2 - Z.min e1 e2)).
Proof.
  intros H1 H2. set (mn := Z.min e1 e2).
  assert (Hmn : e <= mn) by (unfold mn; lia).
  replace (e1 - e) with ((e1 - mn) + (mn - e)) by lia.
  replace (e2 - e) with ((e2 - mn) + (mn - e)) by lia.
  rewrite !Z.pow_add_r by (unfold mn; lia).
  rewrite !Z.mul_assoc.
  apply compare_scale.
  apply Z.pow_pos_nonneg; lia.
Qed.

Lemma float_le_trans (a b c : pyfloat) :
  float_compare a b <> Gt -> float_compare b c <> Gt -> float_compare a c <> Gt.
Proof.
  destruct a as [| |m1 e1], b as [| |m2 e2], c as [| |m3 e3]; simpl;
    try congruence.
  set (e := Z.min e1 (Z.min e2 e3)).
  rewrite <- (dyadic_compare_scale m1 e1 m2 e2 e) by (unfold e; lia).
  rewrite <- (dyadic_compare_scale m2 e2 m3 e3 e) by (unfold e; lia).
  rewrite <- (dyadic_compare_scale m1 e1 m3 e3 e) by (unfold e; lia).
  rewrite !Z.compare_gt_iff. lia.
Qed.

Lemma num_le_iff (a b : pynum) :
  num_le a b = true <-> num_compare a b <> Gt.
Proof.
  unfold num_le. destruct (num_compare a b); split; congruence.
Qed.

Lemma num_le_trans (a b c : pynum) :
  num_le a b = true -> num_le b c = true -> num_le a c = true.
Proof.
  rewrite !num_le_iff. unfold num_compare. apply float_le_trans.
Qed.

Lemma py_or_above (x : option pynum) (n hi : pynum) :
  x = Some hi -> num_le n hi = true -> num_le n (py_or x pos_inf) = true.
Proof.
  intros -> H. simpl. destruct (num_truthy hi); [exact H|].
  apply num_le_pos_inf.
Qed.

(** The bounds written by a merge contain the range of the instance that
    was there and the range of the new declaration. *)
Lemma in_range_merged (a b c d : option pynum) (n : pynum) :
  in_range a b n = true \/ in_range c d n = true ->
  in_range (Some (merged_minimum a c)) (Some (merged_maximum b d)) n = true.
Proof.
  intros H. apply in_range_spec. split.
  - intros lo [= <-]. unfold merged_minimum.
    destruct (py_min_spec (if_not_none a neg_inf) (if_not_none c neg_inf))
      as [_ [Ha Hc]].
    destruct H as [H|H]; apply in_range_spec in H as [Hlo _].
    + eapply num_le_trans; [exact Ha|].
      destruct a as [lo|]; [now apply Hlo | apply num_le_neg_inf].
    + eapply num_le_trans; [exact Hc|].
      destruct c as [lo|]; [now apply Hlo | apply num_le_neg_inf].
  - intros hi [= <-]. unfold merged_maximum.
    destruct (py_max_spec (py_or b pos_inf) (py_or d pos_inf))
      as [_ [Hb Hd]].
    destruct H as [H|H]; apply in_range_spec in H as [_ Hhi].
    + eapply num_le_trans; [|exact Hb].
      destruct b as [hi|]; [eapply py_or_above; eauto | apply num_le_pos_inf].
    + eapply num_le_trans; [|exact Hd].
      destruct d as [hi|]; [eapply py_or_above; eauto | apply num_le_pos_inf].
Qed.

(** X1. [FormNumber(minimum, maximum).is_valid(var)] accepts exactly the numbers,
    a [bool] counting as 0 or 1, within the bounds that are set; it accepts
    whatever [FormInteger] with the same bounds accepts. *)
Theorem FormNumber_is_valid_iff (minimum maximum : option pynum) (var : pyval) :
  (is_valid (FormNumber minimum maximum) var = true
   <-> exists n,
         (var = VNum n \/ exists b, var = VBool b /\ n = PInt (Z.b2z b))
         /\ (forall lo, minimum = Some lo -> num_le lo n = true)
         /\ (forall hi, maximum = Some hi -> num_le n hi = true))
  /\ (is_valid (FormInteger minimum maximum) var = true ->
      is_valid (FormNumber minimum maximum) var = true).
Proof.
  split.
  - simpl. split.
    + destruct var as [|b|n|s|l|kvs]; simpl; try discriminate.
      * intros H. exists (PInt (Z.b2z b)). split; [right; eauto|].
        now apply in_range_spec.
      * intros H. exists n. split; [now left|]. now apply in_range_spec.
    + intros [n [[->|[b [-> ->]]] Hr]]; simpl; now apply in_range_spec.
  - simpl. destruct var as [|b|[z|f]|s|l|kvs]; simpl; auto; discriminate.
Qed.

(** ** Declared options and the enumeration-value stage *)

Lemma is_valid_merged_integer (a b c d : option pynum) (v : pyval) :
  is_valid (FormInteger a b) v = true \/ is_valid (FormInteger c d) v = true ->
  is_valid (FormInteger (Some (merged_minimum a c)) (Some (merged_maximum b d)))
    v = true.
Proof.
  simpl. destruct (as_int v) as [z|]; [apply in_range_merged|].
  intros [H|H]; discriminate.
Qed.

Lemma is_valid_merged_number (a b c d : option pynum) (v : pyval) :
  is_valid (FormNumber a b) v = true \/ is_valid (FormNumber c d) v = true ->
  is_valid (FormNumber (Some (merged_minimum a c)) (Some (merged_maximum b d)))
    v = true.
Proof.
  simpl. destruct (as_number v) as [n|]; [apply in_range_merged|].
  intros [H|H]; discriminate.
Qed.

Lemma accepted_by_In (s : list option_value) (v : pyval) :
  accepted_by s v = true <-> exists op, In op s /\ accepts op v = true.
Proof. apply existsb_exists. Qed.

Lemma accepted_by_set_add (x : option_value) (s : list option_value)
    (v : pyval) :
  accepted_by s v = true -> accepted_by (set_add x s) v = true.
Proof.
  unfold set_add. destruct (set_mem x s); [auto|].
  intros H. unfold accepted_by in *. rewrite existsb_app. now rewrite H.
Qed.

(** Replacing a member by one that accepts at least as much. *)
Lemma accepted_by_insert (s : list option_value) (i : nat)
    (old new : option_value) (v : pyval) :
  s !! i = Some old ->
  (accepts old v = true -> accepts new v = true) ->
  accepted_by s v = true -> accepted_by (<[i := new]> s) v = true.
Proof.
  intros Hi Hw H. apply accepted_by_In in H as [op [Hin Hop]].
  apply list_elem_of_In, list_elem_of_lookup in Hin as [j Hj].
  apply accepted_by_In. destruct (decide (i = j)) as [->|Hne].
  - exists new. split.
    + apply list_elem_of_In, list_elem_of_lookup. exists j.
      apply list_lookup_insert_eq. now apply lookup_lt_Some in Hi.
    + apply Hw. congruence.
  - exists op. split; [|exact Hop].
    apply list_elem_of_In, list_elem_of_lookup. exists j.
    now rewrite list_lookup_insert_ne.
Qed.

Lemma accepts_integer (a b : option pynum) (v : pyval) :
  accepts (FormInteger a b) v = is_valid (FormInteger a b) v.
Proof. reflexivity. Qed.

Lemma accepts_number (a b : option pynum) (v : pyval) :
  accepts (FormNumber a b) v = is_valid (FormNumber a b) v.
Proof. reflexivity. Qed.

Lemma find_existing (O : set_iteration) (x : option_value)
    (s : list option_value) (i : nat) (y : option_value) :
  List.find (fun io => same_kind x (snd io)) (iterate O s) = Some (i, y) ->
  s !! i = Some y /\ same_kind x y = true.
Proof.
  intros H. apply find_some in H as [Hin Hk]. now apply iterate_In in Hin.
Qed.

(** A turn of the loop of [_add_options] never makes the set reject a value
    it accepted. *)
Lemma add_option_keeps_accepted (O : set_iteration) (x : option_value)
    (s : list option_value) (v : pyval) :
  accepted_by s v = true -> accepted_by (add_option O x s) v = true.
Proof.
  intros H. unfold add_option.
  destruct (List.find _ (iterate O s)) as [[i y]|] eqn:E.
  - apply find_existing in E as [Hi Hk].
    destruct x as [l|a b|a b| | | |]; destruct y as [l'|c d|c d| | | |];
      try (destruct (truthy _); auto using accepted_by_set_add).
    + eapply accepted_by_insert; eauto. rewrite !accepts_integer.
      intros Hv. apply is_valid_merged_integer. now left.
    + eapply accepted_by_insert; eauto. rewrite !accepts_number.
      intros Hv. apply is_valid_merged_number. now left.
  - destruct x; now apply accepted_by_set_add.
Qed.

Lemma accepted_by_here (s : list option_value) (i : nat) (op : option_value)
    (v : pyval) :
  s !! i = Some op -> accepts op v = true -> accepted_by s v = true.
Proof.
  intros Hi Hv. apply accepted_by_In. exists op. split; [|exact Hv].
  apply list_elem_of_In, list_elem_of_lookup. eauto.
Qed.

Lemma accepted_by_new_form (x : option_value) (s : list option_value)
    (v : pyval) :
  is_form x = true -> accepts x v = true ->
  accepted_by (set_add x s) v = true.
Proof.
  intros Hf Hv. unfold set_add.
  replace (set_mem x s) with false by (destruct x; try reflexivity; discriminate).
  unfold accepted_by. rewrite existsb_app. simpl. rewrite Hv.
  now rewrite orb_true_r.
Qed.

Lemma accepted_by_new_literal (l : literal) (s : list option_value)
    (v : pyval) :
  typed_null_or_string (Lit l) = true -> accepts (Lit l) v = true ->
  accepted_by (set_add (Lit l) s) v = true.
Proof.
  intros Hl Hv. unfold set_add. destruct (set_mem (Lit l) s) eqn:Em.
  - apply set_mem_lit in Em as [l' [Hin He]].
    apply accepted_by_In. exists (Lit l'). split; [exact Hin|].
    destruct l as [| | |t]; try discriminate Hl; destruct l' as [| | |t'];
      simpl in He; try discriminate He; auto.
    apply String.eqb_eq in He. now subst.
  - unfold accepted_by. rewrite existsb_app. simpl. rewrite Hv.
    now rewrite orb_true_r.
Qed.

(** After the turn for a new option that is typed, null or a string, the
    set accepts what the option accepts. *)
Lemma add_option_accepts_new (O : set_iteration) (x : option_value)
    (s : list option_value) (v : pyval) :
  typed_null_or_string x = true ->
  accepts x v = true ->
  accepted_by (add_option O x s) v = true.
Proof.
  intros Hx Hv. unfold add_option.
  destruct (List.find _ (iterate O s)) as [[i y]|] eqn:E.
  - apply find_existing in E as [Hi Hk].
    destruct x as [[| | |t]|a b|a b| | | |]; try discriminate Hx;
      destruct y as [[| | |t']|c d|c d| | | |]; try discriminate Hk.
    + simpl. now apply accepted_by_new_literal.
    + apply accepted_by_In.
      exists (FormInteger (Some (merged_minimum c a))
                          (Some (merged_maximum d b))).
      split.
      * apply list_elem_of_In, list_elem_of_lookup. exists i.
        apply list_lookup_insert_eq. now apply lookup_lt_Some in Hi.
      * rewrite accepts_integer. apply is_valid_merged_integer. now right.
    + apply accepted_by_In.
      exists (FormNumber (Some (merged_minimum c a))
                         (Some (merged_maximum d b))).
      split.
      * apply list_elem_of_In, list_elem_of_lookup. exists i.
        apply list_lookup_insert_eq. now apply lookup_lt_Some in Hi.
      * rewrite accepts_number. apply is_valid_merged_number. now right.
    + simpl. eapply accepted_by_here; eauto.
    + simpl. eapply accepted_by_here; eauto.
    + simpl. eapply accepted_by_here; eauto.
    + simpl. eapply accepted_by_here; eauto.
  - destruct x as [l|a b|a b| | | |];
      try (now apply accepted_by_new_form).
    now apply accepted_by_new_literal.
Qed.

(** ** Properties of a set that registrations keep *)

Section kept_by_registration.
Context (O : set_iteration) (Q : list option_value -> Prop).
Hypothesis Q_kept : forall y s, Q s -> Q (add_option O y s).

Lemma fold_add_keeps (l s : list option_value) :
  Q s -> Q (fold_left (fun s new_option => add_option O new_option s) l s).
Proof.
  revert s. induction l as [|x l IH]; intros s H; simpl; [exact H|].
  apply IH. now apply Q_kept.
Qed.

Lemma add_options_keeps_holds (self : FormDefinition) (q p : string)
    (options : list option_value) :
  holds_at Q self p -> holds_at Q (_add_options O self q options) p.
Proof.
  intros [s [Hs Hv]]. unfold holds_at.
  destruct (decide (q = p)) as [->|Hne].
  - rewrite _add_options_lookup, Hs. eexists. split; [reflexivity|].
    now apply fold_add_keeps.
  - rewrite _add_options_lookup_ne by done. eauto.
Qed.

Lemma add_declared_keeps_holds data base_id dtype self self' p :
  add_declared O data base_id dtype self = OK self' ->
  holds_at Q self p -> holds_at Q self' p.
Proof.
  unfold add_declared. intros H. apply bind_OK in H as [options [_ H]].
  inversion H. apply add_options_keeps_holds.
Qed.

Lemma register_keeps_holds data base_id self self' p :
  register O data base_id self = OK self' ->
  holds_at Q self p -> holds_at Q self' p.
Proof.
  unfold register. destruct (registration_of data) as [ty| |].
  - rewrite register_types_unfold. intros H Ha.
    apply bind_OK in H as [s1 [H1 H]]. inversion H.
    unfold holds_at. simpl.
    apply (for_each_preserves _ (fun s => holds_at Q s p) _ _ _ H1);
      [|exact Ha].
    intros x s s' _ Hx. eapply add_declared_keeps_holds, Hx.
  - rewrite register_enum_unfold. intros H Ha.
    apply bind_OK in H as [s1 [H1 H]]. inversion H.
    unfold holds_at. simpl. eapply add_declared_keeps_holds; eauto.
  - now intros [= <-].
Qed.

Lemma run_visits_keeps_holds l self self' p :
  run_visits O l self = OK self' ->
  holds_at Q self p -> holds_at Q self' p.
Proof.
  intros H.
  apply (for_each_preserves _ (fun s => holds_at Q s p) _ _ _ H).
  intros y s s' _ Hy. eapply register_keeps_holds, Hy.
Qed.

(** Options whose own turn of the loop sets the property up. *)
Context (sets_up : option_value -> Prop).
Hypothesis Q_set_up : forall x s, sets_up x -> Q (add_option O x s).

Lemma fold_add_sets_up (l s : list option_value) (x : option_value) :
  In x l -> sets_up x ->
  Q (fold_left (fun s new_option => add_option O new_option s) l s).
Proof.
  revert s. induction l as [|y l IH]; intros s Hin Hx; [destruct Hin|].
  simpl. destruct Hin as [->|Hin].
  - apply fold_add_keeps. now apply Q_set_up.
  - now apply IH.
Qed.

Lemma add_options_sets_up (self : FormDefinition) (p : string)
    (options : list option_value) (x : option_value) :
  In x options -> sets_up x ->
  holds_at Q (_add_options O self p options) p.
Proof.
  intros Hin Hx. unfold holds_at. rewrite _add_options_lookup.
  eexists. split; [reflexivity|].
  apply (fold_add_sets_up _ _ x); auto.
  apply list_elem_of_In, list_elem_of_lookup in Hin as [i Hi].
  apply (in_map snd _ (i, x)). now apply iterate_In.
Qed.

Lemma add_declared_sets_up data base_id dtype self self' options x :
  add_declared O data base_id dtype self = OK self' ->
  _get_data_options dtype data = OK options ->
  In x options -> sets_up x ->
  holds_at Q self' base_id.
Proof.
  unfold add_declared. intros H Ho Hin Hx. rewrite Ho in H. simpl in H.
  inversion H. eapply add_options_sets_up; eauto.
Qed.

Lemma register_sets_up data base_id self self' x :
  register O data base_id self = OK self' ->
  declared data x -> sets_up x ->
  holds_at Q self' base_id.
Proof.
  unfold register, declared.
  destruct (registration_of data) as [ty| |].
  - rewrite register_types_unfold.
    intros H [dtype [options [Hin [Ho Hx]]]] Ht.
    apply bind_OK in H as [s1 [H1 H]]. inversion H.
    unfold holds_at. simpl.
    apply (for_each_establishes _ (fun s => holds_at Q s base_id)
             _ _ _ dtype H1 Hin).
    + intros s s' Hs. eapply add_declared_sets_up; eauto.
    + intros y s s' _ Hy. eapply add_declared_keeps_holds, Hy.
  - rewrite register_enum_unfold. intros H [options [Ho Hx]] Ht.
    apply bind_OK in H as [s1 [H1 H]]. inversion H.
    unfold holds_at. simpl. eapply add_declared_sets_up; eauto.
  - intros _ [].
Qed.

(** What the declaration of a visited mapping sets up holds after the run. *)
Lemma run_visits_sets_up l self self' p d x :
  run_visits O l self = OK self' ->
  In (p, d) l -> declared d x -> sets_up x ->
  holds_at Q self' p.
Proof.
  intros H Hin Hd Hx.
  apply (for_each_establishes _ (fun s => holds_at Q s p) _ _ _ (p, d) H Hin).
  - intros s s' Hs. eapply register_sets_up; eauto.
  - intros y s s' _ Hy. eapply register_keeps_holds, Hy.
Qed.
End kept_by_registration.

(** ** Values that the options of a path accept *)

Lemma widens_add_option (O : set_iteration) (v : pyval) (x : option_value)
    (s : list option_value) :
  widens v x -> accepted_by (add_option O x s) v = true.
Proof. intros [Hx Hv]. now apply add_option_accepts_new. Qed.

(** X2. [_add_options] only widens: a value that the set of a path accepted is
    accepted afterwards, and so is a value accepted by one of the new
    options, when that option is an instance of a [Form*] class, [None] or a
    string literal. The bounds of the instances, those of the set and those
    of the new options, are numbers other than NaN, as they are in every set
    of this model: beside a bound that is NaN, [min] and [max] keep the NaN,
    and the instance that results accepts nothing. *)
Theorem add_options_only_widens (O : set_iteration) (self : FormDefinition)
    (q p : string) (options : list option_value) (v : pyval) :
  accepts_at self p v
  \/ (p = q /\ exists x, In x options /\ widens v x) ->
  accepts_at (_add_options O self q options) p v.
Proof.
  intros [H|[-> [x [Hin Hx]]]].
  - apply add_options_keeps_holds; [|exact H].
    intros y s. apply add_option_keeps_accepted.
  - apply (add_options_sets_up O _
             (fun y s => add_option_keeps_accepted O y s v) (widens v)
             (widens_add_option O v) self q options x Hin Hx).
Qed.

Lemma add_options_only_widens_witness :
  accepts_at
    (_add_options insertion_order
       (_add_options insertion_order empty_FormDefinition "q"
          [FormInteger (Some (PInt 0)) (Some (PInt 5))])
       "q" [FormInteger (Some (PInt 10)) (Some (PInt 20))])
    "q" (VNum (PInt 3))
  /\ accepts_at
       (_add_options insertion_order
          (_add_options insertion_order empty_FormDefinition "q"
             [FormInteger (Some (PInt 0)) (Some (PInt 5))])
          "q" [FormInteger (Some (PInt 10)) (Some (PInt 20))])
       "q" (VNum (PInt 15)).
Proof.
  split.
  - apply (add_options_only_widens insertion_order
             (_add_options insertion_order empty_FormDefinition "q"
                [FormInteger (Some (PInt 0)) (Some (PInt 5))])
             "q" "q" [FormInteger (Some (PInt 10)) (Some (PInt 20))]
             (VNum (PInt 3))).
    left. eexists. split; [vm_compute; reflexivity|]. vm_compute. reflexivity.
  - apply (add_options_only_widens insertion_order
             (_add_options insertion_order empty_FormDefinition "q"
                [FormInteger (Some (PInt 0)) (Some (PInt 5))])
             "q" "q" [FormInteger (Some (PInt 10)) (Some (PInt 20))]
             (VNum (PInt 15))).
    right. split; [reflexivity|].
    exists (FormInteger (Some (PInt 10)) (Some (PInt 20))).
    split; [now left|]. split; reflexivity.
Defined.



(** ** The query helper after the construction *)

(** What a turn of the loop of [_add_options] does to the set: nothing, an
    addition at the end, or new bounds for an instance of a range. *)
Lemma add_option_shape (O : set_iteration) (y : option_value)
    (s : list option_value) :
  add_option O y s = s
  \/ add_option O y s = s ++ [y]
  \/ (exists i a b c d,
        s !! i = Some (FormInteger a b)
        /\ add_option O y s = <[i := FormInteger c d]> s)
  \/ (exists i a b c d,
        s !! i = Some (FormNumber a b)
        /\ add_option O y s = <[i := FormNumber c d]> s).
Proof.
  assert (Hadd : set_add y s = s \/ set_add y s = s ++ [y])
    by (unfold set_add; destruct (set_mem y s); auto).
  unfold add_option.
  destruct (List.find _ (iterate O s)) as [[i x]|] eqn:E;
    [|destruct y; tauto].
  apply find_existing in E as [Hi Hk].
  destruct y as [l|a b|a b| | | |];
    destruct x as [l'|c d|c d| | | |];
    try (destruct (truthy _); tauto).
  - right. right. left. eauto 10.
  - right. right. right. eauto 10.
Qed.

Lemma existsb_insert_same (P : option_value -> bool) (s : list option_value)
    (i : nat) (old new : option_value) :
  s !! i = Some old -> P new = P old ->
  existsb P (<[i := new]> s) = existsb P s.
Proof.
  revert i. induction s as [|x s IH]; intros [|i]; simpl; try discriminate.
  - intros [= ->] ->. reflexivity.
  - intros Hi Hp. now rewrite (IH i Hi Hp).
Qed.

Lemma existsb_add_option (P : option_value -> bool) (O : set_iteration)
    (y : option_value) (s : list option_value) :
  ignores_bounds P ->
  existsb P s = true -> existsb P (add_option O y s) = true.
Proof.
  intros [Hint Hnum] H.
  destruct (add_option_shape O y s)
    as [->|[->|[[i [a [b [c [d [Hi ->]]]]]]|[i [a [b [c [d [Hi ->]]]]]]]]].
  - exact H.
  - rewrite existsb_app, H. reflexivity.
  - rewrite (existsb_insert_same P s i _ _ Hi (Hint _ _ _ _)). exact H.
  - rewrite (existsb_insert_same P s i _ _ Hi (Hnum _ _ _ _)). exact H.
Qed.

Lemma set_mem_ignores_bounds (l : literal) :
  ignores_bounds (fun y => match y with
                           | Lit l' => eq_literal (literal_value l) l'
                           | _ => false
                           end).
Proof. split; reflexivity. Qed.

Lemma set_mem_add_option (l : literal) (O : set_iteration) (y : option_value)
    (s : list option_value) :
  set_mem (Lit l) s = true -> set_mem (Lit l) (add_option O y s) = true.
Proof. apply existsb_add_option, set_mem_ignores_bounds. Qed.

(** No turn of the loop makes the helper lose an answer. *)
Lemma includes_add_option (O : set_iteration) (y : option_value)
    (s : list option_value) (dtype : string) :
  includes s dtype = true -> includes (add_option O y s) dtype = true.
Proof.
  unfold includes.
  destruct (String.eqb dtype "boolean").
  { rewrite !orb_true_iff.
    intros [H|H]; [left|right]; now apply set_mem_add_option. }
  destruct (String.eqb dtype "null"); [apply set_mem_add_option|].
  destruct (String.eqb dtype "enum");
    apply existsb_add_option; split; reflexivity.
Qed.

Lemma eq_literal_refl (l : literal) :
  match l with LNum _ => True | _ => eq_literal (literal_value l) l = true end.
Proof.
  destruct l as [|[|]|n|t]; simpl; try reflexivity; try exact I.
  apply String.eqb_refl.
Qed.

Lemma set_mem_set_add (l : literal) (s : list option_value) :
  eq_literal (literal_value l) l = true ->
  set_mem (Lit l) (set_add (Lit l) s) = true.
Proof.
  intros Hl. unfold set_add. destruct (set_mem (Lit l) s) eqn:E; [exact E|].
  simpl. rewrite existsb_app. simpl. rewrite Hl. now rewrite orb_true_r.
Qed.

Lemma includes_boolean (s : list option_value) :
  includes s "boolean"
  = set_mem (Lit (LBool true)) s || set_mem (Lit (LBool false)) s.
Proof. reflexivity. Qed.

Lemma includes_null (s : list option_value) :
  includes s "null" = set_mem (Lit LNone) s.
Proof. reflexivity. Qed.

Lemma includes_enum (s : list option_value) :
  includes s "enum" = existsb is_str_literal s.
Proof. reflexivity. Qed.

Lemma includes_form (s : list option_value) (x : option_value) (dtype : string) :
  is_form x = true -> data_type x = Some dtype ->
  includes s dtype = existsb (has_data_type dtype) s.
Proof. destruct x; try discriminate; intros _ [= <-]; reflexivity. Qed.

Lemma has_data_type_self (x : option_value) (dtype : string) :
  is_form x = true -> data_type x = Some dtype -> has_data_type dtype x = true.
Proof.
  intros Hf Hd. unfold has_data_type. rewrite Hf, Hd. simpl.
  apply String.eqb_refl.
Qed.

Lemma includes_member (s : list option_value) (x : option_value)
    (dtype : string) :
  In x s -> query_of x = Some dtype -> includes s dtype = true.
Proof.
  intros Hin Hq.
  assert (Hform : is_form x = true -> includes s dtype = true).
  { intros Hf. assert (Hd : data_type x = Some dtype)
      by (destruct x; try discriminate Hf; exact Hq).
    rewrite (includes_form s x dtype Hf Hd).
    apply existsb_exists. exists x. split; [exact Hin|].
    now apply has_data_type_self. }
  destruct x as [[|b|n|t]|a b|a b| | | |];
    try discriminate Hq; try (now apply Hform); clear Hform;
    injection Hq as <-.
  - rewrite includes_null. apply set_mem_lit. exists LNone. auto.
  - rewrite includes_boolean. apply orb_true_iff.
    destruct b; [left|right];
      apply set_mem_lit; eexists; (split; [exact Hin|reflexivity]).
  - rewrite includes_enum. apply existsb_exists. eexists.
    split; [exact Hin|reflexivity].
Qed.

Lemma In_insert_here (s : list option_value) (i : nat) (old new : option_value) :
  s !! i = Some old -> In new (<[i := new]> s).
Proof.
  intros Hi. apply list_elem_of_In, list_elem_of_lookup. exists i.
  apply list_lookup_insert_eq. now apply lookup_lt_Some in Hi.
Qed.

Lemma In_lookup (s : list option_value) (i : nat) (x : option_value) :
  s !! i = Some x -> In x s.
Proof. intros H. apply list_elem_of_In, list_elem_of_lookup. eauto. Qed.

Lemma includes_set_add (x : option_value) (s : list option_value)
    (dtype : string) :
  query_of x = Some dtype -> includes (set_add x s) dtype = true.
Proof.
  intros Hq. unfold set_add. destruct (set_mem x s) eqn:E.
  - destruct x as [[|b|n|t]| | | | | |]; try discriminate E;
      try discriminate Hq; injection Hq as <-.
    + rewrite includes_null. exact E.
    + rewrite includes_boolean. apply orb_true_iff. destruct b; auto.
    + rewrite includes_enum. apply set_mem_lit in E as [l' [Hin He]].
      apply existsb_exists. exists (Lit l'). split; [exact Hin|].
      destruct l'; simpl in He; try discriminate He. reflexivity.
  - apply (includes_member (s ++ [x]) x); [|exact Hq].
    apply in_or_app. right. now left.
Qed.

(** After its turn of the loop, an option is found under its name. *)
Lemma includes_add_option_new (O : set_iteration) (x : option_value)
    (s : list option_value) (dtype : string) :
  query_of x = Some dtype -> includes (add_option O x s) dtype = true.
Proof.
  intros Hq. unfold add_option.
  destruct (List.find _ (iterate O s)) as [[i y]|] eqn:E.
  - apply find_existing in E as [Hi Hk].
    destruct x as [[|b|n|t]|a b|a b| | | |]; try discriminate Hq;
      destruct y as [[|b'|n'|t']|c d|c d| | | |]; try discriminate Hk;
      cbv iota beta.
    + simpl. now apply includes_set_add.
    + assert (Hs : includes s dtype = true).
      { apply (includes_member s (Lit (LBool b'))); [|exact Hq].
        eapply In_lookup, Hi. }
      destruct (truthy (Lit (LBool b'))); [exact Hs|].
      unfold set_add. destruct (set_mem _ s); [exact Hs|].
      injection Hq as <-. rewrite includes_boolean in *.
      apply orb_true_iff in Hs. apply orb_true_iff.
      unfold set_mem in *. rewrite !existsb_app.
      destruct Hs as [Hs|Hs]; rewrite Hs; auto.
    + eapply includes_member; [eapply In_insert_here, Hi|exact Hq].
    + eapply includes_member; [eapply In_insert_here, Hi|exact Hq].
    + simpl. eapply includes_member; [eapply In_lookup, Hi|exact Hq].
    + simpl. eapply includes_member; [eapply In_lookup, Hi|exact Hq].
    + simpl. eapply includes_member; [eapply In_lookup, Hi|exact Hq].
    + simpl. eapply includes_member; [eapply In_lookup, Hi|exact Hq].
  - destruct x; now apply includes_set_add.
Qed.

Lemma question_includes_datatype_unfold (self : FormDefinition)
    (p dtype : string) (s : list option_value) :
  possible_options self !! p = Some s ->
  question_includes_datatype self p dtype = OK (includes s dtype).
Proof.
  intros Hs. unfold question_includes_datatype, includes. rewrite Hs.
  destruct (String.eqb dtype "boolean"); [reflexivity|].
  destruct (String.eqb dtype "null"); [reflexivity|].
  destruct (String.eqb dtype "enum"); reflexivity.
Qed.

(** X4. After the construction, the helper answers [True] for the name of every
    option that a visited mapping declares for the path: the [data_type] of
    an instance of a [Form*] class, "boolean" for [True] and [False], "null"
    for [None], "enum" for a string of an enumeration. Later registrations
    for the path do not take the answer away. *)
Theorem declared_option_is_queried (O : set_iteration) (json : pyval)
    (fd : FormDefinition) (p : string) (d : list (string * pyval))
    (op : option_value) (dtype : string) :
  new_FormDefinition O json = OK fd ->
  In (p, d) (visits json "") ->
  declared d op ->
  query_of op = Some dtype ->
  question_includes_datatype fd p dtype = OK true.
Proof.
  unfold new_FormDefinition. intros H Hin Hd Hq.
  apply extract_runs_visits in H.
  destruct (run_visits_sets_up O (fun s => includes s dtype = true)
              (fun y s => includes_add_option O y s dtype)
              (fun x => query_of x = Some dtype)
              (fun x s => includes_add_option_new O x s dtype)
              _ _ _ p d op H Hin Hd Hq) as [s [Hs Ha]].
  rewrite (question_includes_datatype_unfold fd p dtype s Hs).
  now rewrite Ha.
Qed.

Lemma declared_option_is_queried_witness :
  question_includes_datatype (built insertion_order schema_two_leaves)
    "onset" "date" = OK true.
Proof.
  apply (declared_option_is_queried insertion_order schema_two_leaves
           (built insertion_order schema_two_leaves) "onset"
           [("type"%string, VStr "string"); ("format"%string, VStr "date")]
           FormDate "date").
  - vm_compute. reflexivity.
  - vm_compute. auto 10.
  - exists (VStr "string"), [FormDate]. repeat split; now left.
  - reflexivity.
Defined.

(** ** One instance of a class per path *)

Section kept_in_every_set.
Context (O : set_iteration) (Q : list option_value -> Prop).
Hypothesis Q_nil : Q [].
Hypothesis Q_kept : forall y s, Q s -> Q (add_option O y s).

Lemma add_options_every_set (self : FormDefinition) (q : string)
    (options : list option_value) :
  every_set Q self -> every_set Q (_add_options O self q options).
Proof.
  intros H p s. destruct (decide (q = p)) as [->|Hne].
  - rewrite _add_options_lookup. intros [= <-]. unfold add_all.
    apply fold_add_keeps; [exact Q_kept|].
    destruct (possible_options self !! p) as [s0|] eqn:E; [|exact Q_nil].
    apply (H p s0 E).
  - rewrite _add_options_lookup_ne by done. apply H.
Qed.

Lemma add_declared_every_set data base_id dtype self self' :
  add_declared O data base_id dtype self = OK self' ->
  every_set Q self -> every_set Q self'.
Proof.
  unfold add_declared. intros H. apply bind_OK in H as [options [_ H]].
  inversion H. apply add_options_every_set.
Qed.

Lemma register_every_set data base_id self self' :
  register O data base_id self = OK self' ->
  every_set Q self -> every_set Q self'.
Proof.
  unfold register. destruct (registration_of data) as [ty| |].
  - rewrite register_types_unfold. intros H Ha.
    apply bind_OK in H as [s1 [H1 H]]. inversion H.
    unfold every_set. simpl.
    apply (for_each_preserves _ (every_set Q) _ _ _ H1); [|exact Ha].
    intros x s s' _ Hx. eapply add_declared_every_set, Hx.
  - rewrite register_enum_unfold. intros H Ha.
    apply bind_OK in H as [s1 [H1 H]]. inversion H.
    unfold every_set. simpl. eapply add_declared_every_set; eauto.
  - now intros [= <-].
Qed.

Lemma run_visits_every_set l self self' :
  run_visits O l self = OK self' ->
  every_set Q self -> every_set Q self'.
Proof.
  intros H. apply (for_each_preserves _ (every_set Q) _ _ _ H).
  intros y s s' _ Hy. eapply register_every_set, Hy.
Qed.
End kept_in_every_set.

Lemma same_kind_form_sym (x y : option_value) :
  is_form x = true -> same_kind x y = true -> same_kind y x = true.
Proof.
  destruct x as [l|a b|a b| | | |]; try discriminate;
    destruct y as [[| |[]|]|c d|c d| | | |]; try discriminate; reflexivity.
Qed.

Lemma same_kind_form (x y : option_value) :
  is_form x = true -> same_kind x y = true -> is_form y = true.
Proof.
  destruct x as [l|a b|a b| | | |]; try discriminate;
    destruct y as [[| |[]|]|c d|c d| | | |]; try discriminate; reflexivity.
Qed.

Lemma find_none_no_kind (O : set_iteration) (y : option_value)
    (s : list option_value) (i : nat) (x : option_value) :
  List.find (fun io => same_kind y (snd io)) (iterate O s) = None ->
  s !! i = Some x -> same_kind y x = false.
Proof.
  intros H Hi.
  apply (find_none _ _ H (i, x)). now apply iterate_In.
Qed.

Lemma one_per_class_nil : one_per_class [].
Proof. intros i j x y H. destruct i; discriminate H. Qed.

(** Adding a member of which no member of the set has the kind. *)
Lemma one_per_class_app (s : list option_value) (y : option_value) :
  one_per_class s ->
  (is_form y = true -> forall i x, s !! i = Some x -> same_kind y x = false) ->
  one_per_class (s ++ [y]).
Proof.
  intros Hs Hy i j x x' Hi Hj Hf Hk.
  destruct (decide (i < List.length s)%nat) as [Hli|Hli];
    destruct (decide (j < List.length s)%nat) as [Hlj|Hlj].
  - rewrite lookup_app_l in Hi, Hj by done. eapply Hs; eauto.
  - rewrite lookup_app_l in Hi by done.
    rewrite lookup_app_r in Hj by lia.
    destruct (j - List.length s)%nat as [|k] eqn:Ej; [|destruct k; discriminate].
    injection Hj as <-.
    pose proof (same_kind_form x y Hf Hk) as Hfy.
    apply same_kind_form_sym in Hk; [|exact Hf].
    rewrite (Hy Hfy i x Hi) in Hk. discriminate.
  - rewrite lookup_app_l in Hj by done.
    rewrite lookup_app_r in Hi by lia.
    destruct (i - List.length s)%nat as [|k] eqn:Ei; [|destruct k; discriminate].
    injection Hi as <-. rewrite (Hy Hf j x' Hj) in Hk. discriminate.
  - rewrite lookup_app_r in Hi, Hj by lia.
    destruct (i - List.length s)%nat as [|k] eqn:Ei; [|destruct k; discriminate].
    destruct (j - List.length s)%nat as [|k] eqn:Ej; [|destruct k; discriminate].
    lia.
Qed.

(** New bounds for an instance leave its class as it is. *)
Lemma one_per_class_insert (s : list option_value) (i0 : nat)
    (old new : option_value) :
  one_per_class s ->
  s !! i0 = Some old ->
  is_form new = is_form old ->
  (forall z, same_kind new z = same_kind old z) ->
  (forall z, same_kind z new = same_kind z old) ->
  one_per_class (<[i0 := new]> s).
Proof.
  intros Hs H0 Hf Hl Hr i j x y Hi Hj Hfx Hk.
  pose proof (lookup_lt_Some _ _ _ H0) as Hlt.
  destruct (decide (i = i0)) as [->|Hni]; destruct (decide (j = i0)) as [->|Hnj];
    [reflexivity| | |].
  - rewrite list_lookup_insert_eq in Hi by done. injection Hi as <-.
    rewrite list_lookup_insert_ne in Hj by done.
    apply (Hs i0 j old y H0 Hj); [now rewrite <- Hf|now rewrite <- Hl].
  - rewrite list_lookup_insert_ne in Hi by done.
    rewrite list_lookup_insert_eq in Hj by done. injection Hj as <-.
    apply (Hs i i0 x old Hi H0 Hfx). now rewrite <- Hr.
  - rewrite list_lookup_insert_ne in Hi, Hj by done. eapply Hs; eauto.
Qed.

Lemma one_per_class_set_add (s : list option_value) (y : option_value) :
  one_per_class s ->
  (is_form y = true -> forall i x, s !! i = Some x -> same_kind y x = false) ->
  one_per_class (set_add y s).
Proof.
  intros Hs Hy. unfold set_add. destruct (set_mem y s); [exact Hs|].
  now apply one_per_class_app.
Qed.

Lemma one_per_class_add_option (O : set_iteration) (y : option_value)
    (s : list option_value) :
  one_per_class s -> one_per_class (add_option O y s).
Proof.
  intros Hs. unfold add_option.
  destruct (List.find _ (iterate O s)) as [[i0 x0]|] eqn:E.
  - apply find_existing in E as [H0 Hk].
    destruct y as [l|a b|a b| | | |];
      destruct x0 as [l'|c d|c d| | | |]; try discriminate Hk;
      try (exact Hs);
      try (destruct (truthy _); [exact Hs|];
           apply one_per_class_set_add; [exact Hs|discriminate]).
    + eapply one_per_class_insert; eauto.
    + eapply one_per_class_insert; eauto.
  - assert (Hadd : one_per_class (set_add y s)).
    { apply one_per_class_set_add; [exact Hs|].
      intros _ i x Hi. eapply find_none_no_kind; eauto. }
    destruct y; exact Hadd.
Qed.

(** X19. After the construction, the set of every path holds at most one instance
    of each [Form*] class: a second declaration of a class for a path is
    merged into the instance that is there, or dropped, whatever the order in
    which the sets are iterated. *)
Theorem one_instance_per_class (O : set_iteration) (json : pyval)
    (fd : FormDefinition) (p : string) (s : list option_value) :
  new_FormDefinition O json = OK fd ->
  possible_options fd !! p = Some s ->
  one_per_class s.
Proof.
  unfold new_FormDefinition. intros H Hs. apply extract_runs_visits in H.
  apply (run_visits_every_set O one_per_class one_per_class_nil
           (one_per_class_add_option O) _ _ _ H) in Hs; [exact Hs|].
  intros q s0 Hq. simpl in Hq. rewrite lookup_empty in Hq. discriminate.
Qed.

Lemma one_instance_per_class_witness :
  one_per_class [FormInteger (Some neg_inf) (Some pos_inf)].
Proof.
  apply (one_instance_per_class insertion_order
           (VDict [("properties"%string,
                    VDict [("q"%string,
                            VDict [("anyOf"%string,
                                    VList [VDict [("type"%string, VStr "integer");
                                                  ("minimum"%string, VNum (PInt 0))];
                                           VDict [("type"%string, VStr "integer");
                                                  ("maximum"%string,
                                                   VNum (PInt 10))]])])])])
           (built insertion_order
              (VDict [("properties"%string,
                    VDict [("q"%string,
                            VDict [("anyOf"%string,
                                    VList [VDict [("type"%string, VStr "integer");
                                                  ("minimum"%string, VNum (PInt 0))];
                                           VDict [("type"%string, VStr "integer");
                                                  ("maximum"%string,
                                                   VNum (PInt 10))]])])])]))
           "q").
  - vm_compute. reflexivity.
  - vm_compute. reflexivity.
Defined.

(** ** When the construction raises *)

Lemma for_each_Raise {A S} (body : A -> S -> result S) (l : list A) (e : exn) :
  forall st,
    for_each body l st = Raise e ->
    exists x s, In x l /\ body x s = Raise e.
Proof.
  induction l as [|x l IH]; intros st; simpl; [discriminate|].
  destruct (body x st) as [s1|e'] eqn:E.
  - intros H. destruct (IH s1 H) as [y [s [Hy Hb]]].
    exists y, s. split; [now right|exact Hb].
  - intros [= ->]. exists x, st. split; [now left|exact E].
Qed.

Lemma for_each_OK_each {A S} (body : A -> S -> result S) (l : list A) (x : A) :
  forall st st',
    for_each body l st = OK st' -> In x l ->
    exists s s', body x s = OK s'.
Proof.
  induction l as [|y l IH]; intros st st' H Hin; [destruct Hin|].
  simpl in H. destruct (body y st) as [s1|e] eqn:E; [|discriminate].
  destruct Hin as [->|Hin]; [eauto|]. apply (IH s1 st' H Hin).
Qed.

Lemma bind_Raise {A B} (r : result A) (k : A -> result B) (e : exn) :
  bind r k = Raise e -> r = Raise e \/ exists a, r = OK a /\ k a = Raise e.
Proof. destruct r as [a|e']; simpl; [eauto|]. intros [= ->]. now left. Qed.

Lemma get_bound_no_value_error data key m :
  get_bound data key <> Raise (ValueError m).
Proof.
  unfold get_bound. destruct (dict_get data key) as [[| | | | |]|]; discriminate.
Qed.

Lemma enum_options_no_value_error enum m :
  enum_options enum <> Raise (ValueError m).
Proof.
  destruct enum as [| | |s|items|kvs]; simpl; try discriminate.
  intros H. apply for_each_Raise in H as [x [s [_ H]]].
  destruct (as_literal x); discriminate.
Qed.

(** [_get_data_options] raises [ValueError] for the names it does not know,
    and for these only. *)
Lemma get_data_options_value_error (t : pyval) (data : list (string * pyval))
    (m : message) :
  _get_data_options t data = Raise (ValueError m) ->
  supported_type t = false /\ m = UnsupportedDataType t.
Proof.
  unfold _get_data_options, supported_type.
  destruct (is_str t "boolean"); [discriminate|].
  destruct (is_str t "integer").
  { intros H. apply bind_Raise in H as [H|[lo [_ H]]];
      [now apply get_bound_no_value_error in H|].
    apply bind_Raise in H as [H|[hi [_ H]]];
      [now apply get_bound_no_value_error in H|discriminate]. }
  destruct (is_str t "number").
  { intros H. apply bind_Raise in H as [H|[lo [_ H]]];
      [now apply get_bound_no_value_error in H|].
    apply bind_Raise in H as [H|[hi [_ H]]];
      [now apply get_bound_no_value_error in H|discriminate]. }
  destruct (is_str t "null"); [discriminate|].
  destruct (is_str t "string").
  { unfold _handle_string_format.
    destruct (has_format data "date"); [discriminate|].
    destruct (has_format data "time"); [discriminate|].
    destruct (has_format data "date-time"); [discriminate|].
    destruct (dict_get data "enum") as [enum|]; [|discriminate].
    intros H. now apply enum_options_no_value_error in H. }
  intros [= <-]. auto.
Qed.

Lemma get_data_options_unsupported (t : pyval) (data : list (string * pyval)) :
  supported_type t = false ->
  _get_data_options t data = Raise (ValueError (UnsupportedDataType t)).
Proof.
  unfold _get_data_options, supported_type. intros H.
  repeat (apply orb_false_iff in H as [H ?]).
  repeat match goal with E : is_str t _ = false |- _ => rewrite E; clear E end.
  reflexivity.
Qed.

Lemma registration_by_type (d : list (string * pyval)) (ty : pyval) :
  registration_of d = ByType ty ->
  dict_get d "type" = Some ty /\ is_str ty "object" = false.
Proof.
  unfold registration_of. destruct (dict_get d "type") as [ty'|].
  - destruct (is_str ty' "object") eqn:E; simpl.
    + destruct (dict_has d "enum"); discriminate.
    + intros [= ->]. auto.
  - destruct (dict_has d "enum"); discriminate.
Qed.

Lemma register_value_error O d p s m :
  register O d p s = Raise (ValueError m) ->
  exists ty t,
    registration_of d = ByType ty /\ In t (data_types_of ty)
    /\ supported_type t = false /\ m = UnsupportedDataType t.
Proof.
  unfold register. destruct (registration_of d) as [ty| |]; [| |discriminate].
  - rewrite register_types_unfold. intros H.
    apply bind_Raise in H as [H|[s1 [_ H]]]; [|discriminate].
    apply for_each_Raise in H as [t [s0 [Hin H]]].
    unfold add_declared in H.
    apply bind_Raise in H as [H|[o [_ H]]]; [|discriminate].
    apply get_data_options_value_error in H as [Hs ->].
    exists ty, t. auto.
  - rewrite register_enum_unfold. intros H.
    apply bind_Raise in H as [H|[s1 [_ H]]]; [|discriminate].
    unfold add_declared in H.
    apply bind_Raise in H as [H|[o [_ H]]]; [|discriminate].
    apply get_data_options_value_error in H as [Hs _]. discriminate Hs.
Qed.

Lemma register_unsupported O d p s s' ty t :
  registration_of d = ByType ty -> In t (data_types_of ty) ->
  supported_type t = false ->
  register O d p s <> OK s'.
Proof.
  intros Hr Hin Hs. unfold register. rewrite Hr, register_types_unfold.
  intros H. apply bind_OK in H as [s1 [H _]].
  destruct (for_each_OK_each _ _ t _ _ H Hin) as [s0 [s2 H2]].
  unfold add_declared in H2.
  rewrite (get_data_options_unsupported t d Hs) in H2. discriminate.
Qed.

Lemma extract_raises_in_a_visit_deep (O : set_iteration) (data : pyval) :
  raises_in_a_visit O data
  /\ (forall props, data = VDict props ->
        Forall (fun p => raises_in_a_visit O (snd p)) props).
Proof.
  induction data as [| | | |l IH|kvs IH] using pyval_induction;
    try (split; [intros base_id self m H; discriminate H|discriminate]).
  - split; [|discriminate].
    intros base_id self m H. cbn [_extract_question_ids] in H.
    apply for_each_Raise in H as [item [s [Hin H]]].
    rewrite List.Forall_forall in IH.
    destruct (proj1 (IH item Hin) base_id s m H) as [v [s' [Hv Hr]]].
    exists v, s'. split; [|exact Hr]. eapply visits_item; eauto.
  - split.
    2:{ intros props [= <-]. eapply Forall_impl; [exact IH|].
        now intros x [Hx _]. }
    intros base_id self m H. cbn [_extract_question_ids] in H.
    apply for_each_Raise in H as [[key value] [s [Hin H]]].
    rewrite List.Forall_forall in IH.
    destruct (IH (key, value) Hin) as [Hv Hprops]. cbn [fst snd] in *.
    apply bind_Raise in H as [H|[s1 [_ H]]].
    + destruct (String.eqb key "properties") eqn:Ek.
      * apply String.eqb_eq in Ek. subst key.
        destruct value as [| | |str|[|x l]|props]; simpl in H;
          try discriminate H.
        -- destruct (String.eqb str ""); discriminate H.
        -- apply for_each_Raise in H as [[prop_id pv] [s0 [Hp H]]].
           specialize (Hprops props eq_refl).
           rewrite List.Forall_forall in Hprops.
           destruct (Hprops (prop_id, pv) Hp _ _ _ H) as [v [s' [Hin' Hr]]].
           exists v, s'. split; [|exact Hr].
           eapply visits_property; eauto.
      * destruct (Hv _ _ _ H) as [v [s' [Hin' Hr]]].
        exists v, s'. split; [|exact Hr].
        eapply visits_other_key; eauto.
    + exists (base_id, kvs), s1. split; [|exact H].
      apply visits_self. intros ->. destruct Hin.
Qed.

Lemma walk_value_error (O : set_iteration) (json : pyval) (m : message) :
  new_FormDefinition O json = Raise (ValueError m) ->
  exists p d ty t,
    In (p, d) (visits json "")
    /\ dict_get d "type" = Some ty /\ In t (data_types_of ty)
    /\ supported_type t = false /\ m = UnsupportedDataType t.
Proof.
  unfold new_FormDefinition. intros H.
  apply (proj1 (extract_raises_in_a_visit_deep O json)) in H
    as [[p d] [s [Hin H]]].
  apply register_value_error in H as [ty [t [Hr [Ht [Hs ->]]]]].
  apply registration_by_type in Hr as [Hty _].
  exists p, d, ty, t. auto.
Qed.

(** X5. A [ValueError] of the construction is the one that opening or loading
    the file raised (a [JSONDecodeError] or a [UnicodeDecodeError] of
    [json.load] is one), or it names a type that a visited mapping of the
    loaded schema declares and that is none of "boolean", "integer",
    "number", "null" and "string". *)
Theorem construction_value_error (O : set_iteration) (loaded : result pyval)
    (m : message) :
  __init__ O loaded = Raise (ValueError m) ->
  loaded = Raise (ValueError m)
  \/ exists json p d ty t,
       loaded = OK json
       /\ In (p, d) (visits json "")
       /\ dict_get d "type" = Some ty /\ In t (data_types_of ty)
       /\ supported_type t = false /\ m = UnsupportedDataType t.
Proof.
  unfold __init__. destruct loaded as [json|e]; simpl.
  - intros H. right.
    apply walk_value_error in H as [p [d [ty [t H]]]].
    exists json, p, d, ty, t. auto.
  - intros [= ->]. now left.
Qed.

Lemma construction_value_error_witness :
  OK schema_array = Raise (ValueError (UnsupportedDataType (VStr "array")))
  \/ exists json p d ty t,
       OK schema_array = OK json
       /\ In (p, d) (visits json "")
       /\ dict_get d "type" = Some ty /\ In t (data_types_of ty)
       /\ supported_type t = false
       /\ UnsupportedDataType (VStr "array") = UnsupportedDataType t.
Proof.
  apply (construction_value_error insertion_order (OK schema_array)
           (UnsupportedDataType (VStr "array"))).
  vm_compute. reflexivity.
Defined.

(** X6. The construction does not return for a schema in which a visited mapping
    declares, as its "type" or in the list of its types, a name that is none
    of the five: a schema with a "type" of "array" cannot be loaded. *)
Theorem unsupported_type_fails_construction (O : set_iteration) (json : pyval)
    (p : string) (d : list (string * pyval)) (ty t : pyval) :
  In (p, d) (visits json "") ->
  dict_get d "type" = Some ty ->
  is_str ty "object" = false ->
  In t (data_types_of ty) ->
  supported_type t = false ->
  forall fd, new_FormDefinition O json <> OK fd.
Proof.
  intros Hin Hty Hobj Ht Hs fd H. unfold new_FormDefinition in H.
  apply extract_runs_visits in H.
  destruct (for_each_OK_each _ _ (p, d) _ _ H Hin) as [s [s' Hr]].
  cbn [fst snd] in Hr. revert Hr.
  apply (register_unsupported O d p s s' ty t); auto.
  unfold registration_of. now rewrite Hty, Hobj.
Qed.

Lemma unsupported_type_fails_construction_witness :
  supported_type (VStr "array") = false
  /\ new_FormDefinition insertion_order schema_array
     <> OK empty_FormDefinition.
Proof.
  split; [reflexivity|].
  apply (unsupported_type_fails_construction insertion_order schema_array
           "tags"
           [("type"%string, VStr "array");
            ("items"%string, VDict [("type"%string, VStr "string")])]
           (VStr "array") (VStr "array")).
  - vm_compute. auto.
  - reflexivity.
  - reflexivity.
  - now left.
  - reflexivity.
Defined.

Lemma get_data_options_nil_witness :
  is_str (VStr "string") "string" = true
  /\ exists enum,
       dict_get [("enum"%string, VList [])] "enum" = Some enum
       /\ (enum = VList [] \/ enum = VStr "" \/ enum = VDict []).
Proof.
  apply (get_data_options_nil (VStr "string") [("enum"%string, VList [])]).
  reflexivity.
Defined.

(** ** Complex answers and the evidence stage *)

Lemma for_each_unit {A} (f : A -> result unit) (l : list A) :
  for_each (fun x _ => f x) l tt = OK tt <-> Forall (fun x => f x = OK tt) l.
Proof.
  induction l as [|x l IH]; simpl.
  - split; [constructor|reflexivity].
  - destruct (f x) as [[]|e] eqn:E.
    + rewrite IH. split.
      * intros H. now constructor.
      * intros H. now inversion H.
    + split; [discriminate|]. intros H. inversion H. congruence.
Qed.

Lemma single_rule_iff (a : answer) (context : string) :
  _validate_single_answer a context = OK tt
  <-> single_rule context (text a) (answer_start a).
Proof. apply single_answer_iff. Qed.

Lemma Forall_zip {P : pyval -> pyval -> Prop} (texts starts : list pyval) :
  List.length texts = List.length starts ->
  (Forall (fun ts => P (fst ts) (snd ts)) (zip texts starts)
   <-> Forall2 P texts starts).
Proof.
  revert starts. induction texts as [|t texts IH]; intros [|s starts] Hlen;
    simpl in *; try discriminate.
  - split; constructor.
  - injection Hlen as Hlen. split.
    + intros H. inversion H; subst. constructor; [assumption|].
      now apply IH.
    + intros H. inversion H; subst. constructor; [assumption|].
      now apply IH.
Qed.

(** X8. A "complex" answer passes exactly when its text and its offsets are
    lists of the same length, longer than one, and each text with its offset
    satisfies the rule of a "single" answer; a list of one entry fails
    whatever it holds. *)
Theorem complex_answer_iff (a : answer) (context : string) :
  _validate_complex_answer a context = OK tt
  <-> exists texts starts,
        text a = VList texts /\ answer_start a = VList starts
        /\ List.length texts = List.length starts
        /\ (2 <= List.length texts)%nat
        /\ Forall2 (single_rule context) texts starts.
Proof.
  unfold _validate_complex_answer. split.
  - destruct (text a) as [| | | |texts|]; try discriminate.
    destruct (answer_start a) as [| | | |starts|]; try discriminate.
    destruct (negb (Nat.eqb (List.length texts) (List.length starts))
              || Nat.leb (List.length texts) 1) eqn:E; [discriminate|].
    apply orb_false_iff in E as [E1 E2].
    apply negb_false_iff, Nat.eqb_eq in E1. apply Nat.leb_gt in E2.
    intros H. exists texts, starts. repeat split; auto.
    apply for_each_unit in H. apply Forall_zip; [exact E1|].
    eapply Forall_impl; [exact H|]. intros [t s] Hts.
    now apply single_rule_iff in Hts.
  - intros [texts [starts [-> [-> [Hlen [H2 H]]]]]].
    replace (negb (Nat.eqb (List.length texts) (List.length starts))
             || Nat.leb (List.length texts) 1) with false.
    + apply for_each_unit. apply Forall_zip in H; [|exact Hlen].
      eapply Forall_impl; [exact H|]. intros [t s] Hts.
      now apply single_rule_iff.
    + symmetry. apply orb_false_iff. split.
      * apply negb_false_iff, Nat.eqb_eq, Hlen.
      * apply Nat.leb_gt. lia.
Qed.

(** X9. The evidence stage passes for a QA exactly when each of its answers is
    of type "single" and satisfies the single rule, or of type "complex" and
    satisfies the complex rule; a QA without answers passes. *)
Theorem evidences_iff (q : qa) (context : string) :
  _validate_evidences q context = OK tt
  <-> Forall (fun a =>
                (answer_type a = VStr "single"
                 /\ _validate_single_answer a context = OK tt)
                \/ (answer_type a = VStr "complex"
                    /\ _validate_complex_answer a context = OK tt))
        (answers q).
Proof.
  unfold _validate_evidences. rewrite for_each_unit.
  apply Forall_iff. intros a.
  destruct (answer_type a) as [| | |t| |]; simpl;
    try (split; [discriminate|intros [[H _]|[H _]]; discriminate]).
  destruct (String.eqb t "single") eqn:E1.
  - apply String.eqb_eq in E1. subst. split; [now left|].
    intros [[_ H]|[H _]]; [exact H|discriminate].
  - destruct (String.eqb t "complex") eqn:E2.
    + apply String.eqb_eq in E2. subst. split; [now right|].
      intros [[H _]|[_ H]]; [discriminate|exact H].
    + split; [discriminate|].
      intros [[[= ->] _]|[[= ->] _]]; discriminate.
Qed.

(** X10. The span of an answer that passes lies inside the context, although a
    slice that runs past the end raises nothing by itself. *)
Theorem single_answer_span_in_context (a : answer) (context : string) :
  _validate_single_answer a context = OK tt ->
  exists str start,
    text a = VStr str /\ as_int (answer_start a) = Some start
    /\ 0 <= start /\ start + str_len str <= str_len context.
Proof.
  intros H. apply single_answer_iff in H
    as [str [start [Ht [Hs [Hne [Hpos Hsl]]]]]].
  exists str, start. repeat split; auto.
  pose proof (slice_characters context str start Hpos Hne Hsl) as Hget.
  assert (Hlen : (0 < String.length str)%nat).
  { apply str_len_nonempty in Hne. unfold str_len in Hne. lia. }
  destruct (get_lt str (String.length str - 1)%nat ltac:(lia)) as [c Hc].
  rewrite Hget in Hc by lia.
  destruct (le_lt_dec (String.length context)
              (String.length str - 1 + Z.to_nat start)) as [Hge|Hlt].
  - rewrite get_ge in Hc by exact Hge. discriminate.
  - unfold str_len. lia.
Qed.

Lemma single_answer_span_in_context_witness :
  exists str start,
    text (single "fever" 12) = VStr str
    /\ as_int (answer_start (single "fever" 12)) = Some start
    /\ 0 <= start /\ start + str_len str <= str_len "patient has fever".
Proof.
  apply (single_answer_span_in_context (single "fever" 12) "patient has fever").
  reflexivity.
Defined.

(** ** The identity and uniqueness loop *)

Lemma _validate_qa_OK (self : FormDefinition) (q : qa) (r : report)
    (u u' : gset string) :
  _validate_qa self q r u = OK u'
  <-> qa_id q = expected_id r q /\ (qa_id q ∉ u)
      /\ question_id q ∈ question_ids self /\ u' = {[qa_id q]} ∪ u.
Proof.
  unfold _validate_qa, expected_id.
  destruct (String.eqb_spec (qa_id q)
              (String.append (report_id r)
                 (String.append "_" (question_id q)))) as [He|He]; simpl.
  - destruct (bool_decide (qa_id q ∈ u)) eqn:E1.
    + apply bool_decide_eq_true in E1. split; [discriminate|tauto].
    + apply bool_decide_eq_false in E1.
      destruct (bool_decide (question_id q ∈ question_ids self)) eqn:E2; simpl.
      * apply bool_decide_eq_true in E2. split.
        -- intros [= <-]. auto.
        -- intros [_ [_ [_ ->]]]. reflexivity.
      * apply bool_decide_eq_false in E2. split; [discriminate|tauto].
  - split; [discriminate|tauto].
Qed.

(** The set only grows in the loop, also when the loop raises. *)
Lemma validate_qas_grows (self : FormDefinition) (r : report) (l : list qa) :
  forall u, u ⊆ fst (validate_qas self r l u).
Proof.
  induction l as [|q l IH]; intros u; simpl; [done|].
  destruct (_validate_qa self q r u) as [u1|e] eqn:E; [|done].
  apply _validate_qa_OK in E as [_ [_ [_ ->]]].
  etrans; [|apply IH]. set_solver.
Qed.

Lemma validate_qas_OK (self : FormDefinition) (r : report) (l : list qa) :
  forall u,
    snd (validate_qas self r l u) = OK tt
    <-> Forall (fun q => qa_id q = expected_id r q
                         /\ question_id q ∈ question_ids self) l
        /\ NoDup (map qa_id l)
        /\ Forall (fun q => qa_id q ∉ u) l.
Proof.
  induction l as [|q l IH]; intros u; simpl.
  - split; [intros _; repeat split; constructor|reflexivity].
  - destruct (_validate_qa self q r u) as [u1|e] eqn:E.
    + apply _validate_qa_OK in E as [He [Hu [Hq ->]]].
      rewrite IH. rewrite !Forall_cons, NoDup_cons. split.
      * intros [Hf [Hn Hd]]. repeat split; auto.
        -- intros Hin. apply list_elem_of_In, in_map_iff in Hin
             as [q' [Hq' Hin]].
           rewrite Forall_forall in Hd.
           apply (Hd q' (proj2 (list_elem_of_In _ _) Hin)).
           rewrite Hq'. set_solver.
        -- eapply Forall_impl; [exact Hd|]. intros q' Hq'. set_solver.
      * intros [[[_ _] Hf] [[Hnin Hn] [_ Hd]]]. repeat split; auto.
        rewrite Forall_forall in *. intros q' Hin Hq'.
        apply elem_of_union in Hq' as [Hq'|Hq'].
        -- apply elem_of_singleton in Hq'. apply Hnin.
           rewrite <- Hq'. apply list_elem_of_In, in_map.
           now apply list_elem_of_In.
        -- now apply (Hd q' Hin).
    + simpl. split; [discriminate|].
      intros [Hf [Hn Hd]]. exfalso.
      apply Forall_cons in Hf as [[He Hq] _].
      apply Forall_cons in Hd as [Hu _].
      assert (H : _validate_qa self q r u = OK ({[qa_id q]} ∪ u))
        by now apply _validate_qa_OK.
      congruence.
Qed.

Lemma validate_qas_set (self : FormDefinition) (r : report) (l : list qa) :
  forall u,
    snd (validate_qas self r l u) = OK tt ->
    fst (validate_qas self r l u) = list_to_set (map qa_id l) ∪ u.
Proof.
  induction l as [|q l IH]; intros u; simpl.
  - intros _. set_solver.
  - destruct (_validate_qa self q r u) as [u1|e] eqn:E; [|discriminate].
    apply _validate_qa_OK in E as [_ [_ [_ ->]]].
    intros H. rewrite (IH _ H). set_solver.
Qed.

(** X11. The first loop of [validate_report] returns exactly when every QA id has
    the expected form, the ids are pairwise different and none is in the set
    already, and every [question_id] is registered; the set then holds the
    ids of the report besides what it held. Whatever happens, nothing is
    removed from the set. *)
Theorem validate_qas_spec (self : FormDefinition) (r : report) (l : list qa)
    (u : gset string) :
  (snd (validate_qas self r l u) = OK tt
   <-> Forall (fun q => qa_id q = expected_id r q
                        /\ question_id q ∈ question_ids self) l
       /\ NoDup (map qa_id l)
       /\ Forall (fun q => qa_id q ∉ u) l)
  /\ (snd (validate_qas self r l u) = OK tt ->
      fst (validate_qas self r l u) = list_to_set (map qa_id l) ∪ u)
  /\ u ⊆ fst (validate_qas self r l u).
Proof.
  split; [apply validate_qas_OK|].
  split; [apply validate_qas_set|apply validate_qas_grows].
Qed.

(** ** A report validated twice *)

Section report_twice.
Context (validate : pyval -> pyval -> option exn).

Lemma validate_report_with_OK (self : FormDefinition) (r : report)
    (flag : bool) (u u' : gset string) :
  validate_report_with validate self r flag u = (u', OK tt) ->
  exists p, paragraphs r = [p]
            /\ validate_qas self r (qas p) u = (u', OK tt).
Proof.
  unfold validate_report_with.
  destruct (paragraphs r) as [|p [|p' ps]]; try (intros [= _ H]; discriminate H).
  destruct (validate_qas self r (qas p) u) as [s checked] eqn:E.
  intros [= -> H]. exists p. split; [reflexivity|].
  destruct checked as [[]|e]; [exact E|discriminate H].
Qed.

(** X12. A report with at least one QA that passed against a non-empty set does
    not pass again against the set the call left: the second call raises the
    duplicate-id [ValueError] for the first QA, whatever the flag, and leaves
    the set as it is. *)
Theorem passed_report_is_rejected_again (self : FormDefinition) (r : report)
    (flag flag' : bool) (u u' : gset string) (p : paragraph) (q : qa)
    (l : list qa) :
  u <> ∅ ->
  paragraphs r = [p] ->
  qas p = q :: l ->
  validate_report validate self r flag (Some u) = (Some u', OK tt) ->
  validate_report validate self r flag' (Some u')
  = (Some u', Raise (ValueError (DuplicateId (qa_id q) (report_id r)))).
Proof.
  intros Hu Hp Hq H.
  unfold validate_report, works_on_argument in H.
  rewrite (bool_decide_eq_false_2 _ Hu) in H. simpl in H.
  destruct (validate_report_with validate self r flag u) as [s res] eqn:E.
  injection H as -> ->.
  apply validate_report_with_OK in E as [p0 [Hp0 E]].
  rewrite Hp in Hp0. injection Hp0 as <-.
  assert (Hs : snd (validate_qas self r (qas p) u) = OK tt) by now rewrite E.
  pose proof (validate_qas_set self r (qas p) u Hs) as Hset.
  rewrite E in Hset. simpl in Hset.
  apply validate_qas_OK in Hs as [Hf _].
  rewrite Hq in Hf, Hset. apply Forall_cons in Hf as [[He _] _].
  assert (Hin : qa_id q ∈ u') by (rewrite Hset; set_solver).
  assert (Hne : u' <> ∅) by set_solver.
  unfold validate_report, works_on_argument.
  rewrite (bool_decide_eq_false_2 _ Hne). simpl.
  unfold validate_report_with. rewrite Hp, Hq. simpl.
  unfold _validate_qa. fold (expected_id r q). rewrite <- He.
  rewrite String.eqb_refl. simpl.
  rewrite (bool_decide_eq_true_2 _ Hin). reflexivity.
Qed.

End report_twice.

Lemma passed_report_is_rejected_again_witness :
  validate_report accept_all (built insertion_order schema_q1) report_R1 true
    (Some ({["R1_q1"%string]} ∪ {["R0_q1"%string]}))
  = (Some ({["R1_q1"%string]} ∪ {["R0_q1"%string]}),
     Raise (ValueError (DuplicateId "R1_q1" "R1"))).
Proof.
  apply (passed_report_is_rejected_again accept_all (built insertion_order schema_q1)
           report_R1 false true {["R0_q1"%string]}
           ({["R1_q1"%string]} ∪ {["R0_q1"%string]})
           {| context := "patient has fever"; qas := [qa_q1 12] |}
           (qa_q1 12) []).
  - intros H. apply (f_equal (fun s => bool_decide ("R0_q1"%string ∈ s))) in H.
    vm_compute in H. discriminate H.
  - reflexivity.
  - reflexivity.
  - vm_compute. reflexivity.
Defined.

(** ** When a report passes *)

Section report_passes.
Context (validate : pyval -> pyval -> option exn).

Lemma validate_report_with_passes (self : FormDefinition) (r : report)
    (flag : bool) (u : gset string) :
  snd (validate_report_with validate self r flag u) = OK tt
  <-> exists p,
        paragraphs r = [p]
        /\ snd (validate_qas self r (qas p) u) = OK tt
        /\ Forall (fun q => _validate_evidences q (context p) = OK tt) (qas p)
        /\ Forall (fun q => _validate_enumeration_value_ids self q = OK tt)
             (qas p)
        /\ (flag = true -> _validate_against_schema validate self p = OK tt).
Proof.
  unfold validate_report_with.
  destruct (paragraphs r) as [|p [|p' ps]].
  - split; [discriminate|]. intros [p [Hp _]]. discriminate.
  - destruct (validate_qas self r (qas p) u) as [u' checked] eqn:Eq. cbn [snd].
    split.
    + intros H. exists p. split; [reflexivity|].
      destruct checked as [[]|e]; [|discriminate]. cbn [bind] in H.
      destruct (for_each _ (qas p) tt) as [[]|e] eqn:E1; [|discriminate].
      cbn [bind] in H.
      destruct (for_each _ (qas p) tt) as [[]|e] eqn:E2 in H; [|discriminate].
      cbn [bind] in H.
      apply (for_each_unit (fun q => _validate_evidences q (context p))) in E1.
      apply (for_each_unit (fun q => _validate_enumeration_value_ids self q))
        in E2.
      rewrite Eq. split; [reflexivity|]. split; [exact E1|]. split; [exact E2|].
      intros ->. exact H.
    + intros [p0 [[= <-] [Hq [H1 [H2 Hf]]]]]. rewrite Eq in Hq.
      cbn [snd] in Hq. subst checked. cbn [bind].
      apply (for_each_unit (fun q => _validate_evidences q (context p))) in H1.
      apply (for_each_unit (fun q => _validate_enumeration_value_ids self q))
        in H2.
      rewrite H1. cbn [bind]. rewrite H2. cbn [bind].
      destruct flag; [now apply Hf|reflexivity].
  - split; [discriminate|]. intros [p0 [Hp _]]. discriminate.
Qed.

Lemma validate_report_result (self : FormDefinition) (r : report)
    (flag : bool) (used_ids : option (gset string)) :
  snd (validate_report validate self r flag used_ids)
  = snd (validate_report_with validate self r flag (default ∅ used_ids)).
Proof.
  unfold validate_report, works_on_argument.
  destruct used_ids as [s|]; [|reflexivity]. simpl.
  destruct (bool_decide (s = ∅)) eqn:E; simpl.
  - apply bool_decide_eq_true in E. now subst.
  - now destruct (validate_report_with validate self r flag s).
Qed.

(** X13. [validate_report] returns exactly when the report has one paragraph and,
    in it, every QA id has the expected form and a registered question id,
    the QA ids are pairwise different and none is in the set passed, the
    evidence stage and the enumeration-value stage pass for every QA, and
    the structural pass, when it is asked for, passes. *)
Theorem report_passes_iff (self : FormDefinition) (r : report) (flag : bool)
    (used_ids : option (gset string)) :
  snd (validate_report validate self r flag used_ids) = OK tt
  <-> exists p,
        paragraphs r = [p]
        /\ Forall (fun q => qa_id q = expected_id r q
                            /\ question_id q ∈ question_ids self) (qas p)
        /\ NoDup (map qa_id (qas p))
        /\ Forall (fun q => qa_id q ∉ default ∅ used_ids) (qas p)
        /\ Forall (fun q => _validate_evidences q (context p) = OK tt) (qas p)
        /\ Forall (fun q => _validate_enumeration_value_ids self q = OK tt)
             (qas p)
        /\ (flag = true -> _validate_against_schema validate self p = OK tt).
Proof.
  rewrite validate_report_result, validate_report_with_passes.
  split; intros [p [Hp [Hq H]]]; exists p; (split; [exact Hp|]).
  - apply validate_qas_OK in Hq as [H1 [H2 H3]]. tauto.
  - destruct H as [H2 [H3 H]]. split; [|tauto].
    apply validate_qas_OK. tauto.
Qed.
End report_passes.

(** ** The object handed to the structural validator *)

Lemma dict_get_set_eq (kvs : list (string * pyval)) (k : string) (v : pyval) :
  dict_get (dict_set kvs k v) k = Some v.
Proof.
  induction kvs as [|[k' w] kvs IH]; simpl.
  - now rewrite String.eqb_refl.
  - destruct (String.eqb k' k) eqn:E; simpl; rewrite E; auto.
Qed.

Lemma dict_get_set_ne (kvs : list (string * pyval)) (k k' : string) (v : pyval) :
  String.eqb k k' = false ->
  dict_get (dict_set kvs k v) k' = dict_get kvs k'.
Proof.
  intros Hne. induction kvs as [|[k0 w] kvs IH]; simpl.
  - now rewrite Hne.
  - destruct (String.eqb k0 k) eqn:E; simpl.
    + apply String.eqb_eq in E. subst k0. now rewrite Hne.
    + now rewrite IH.
Qed.

Lemma split_dot_not_nil (s : string) : split_dot s <> [].
Proof.
  induction s as [|c r IH]; simpl; [discriminate|].
  destruct (Ascii.eqb c "."); [discriminate|].
  destruct (split_dot r); discriminate.
Qed.

Lemma set_path_last (last : string) (v cur : pyval) :
  set_path [last] v cur
  = match cur with
    | VDict kvs => OK (VDict (dict_set kvs last v))
    | _ => Raise (TypeError "object does not support item assignment")
    end.
Proof. reflexivity. Qed.

Lemma set_path_step (part r1 : string) (rest : list string) (v cur : pyval) :
  set_path (part :: r1 :: rest) v cur
  = match cur with
    | VDict kvs =>
        let child := match dict_get kvs part with
                     | Some c => c
                     | None => VDict []
                     end in
        child' <- set_path (r1 :: rest) v child;;
        OK (VDict (dict_set kvs part child'))
    | _ => Raise (AttributeError "setdefault")
    end.
Proof. reflexivity. Qed.

Lemma is_prefix_refl (a : list string) : is_prefix a a = true.
Proof. induction a; simpl; [|rewrite String.eqb_refl]; auto. Qed.

Lemma is_prefix_trans (a b c : list string) :
  is_prefix a b = true -> is_prefix b c = true -> is_prefix a c = true.
Proof.
  revert b c. induction a as [|x a IH]; intros [|y b] [|z c]; simpl; auto;
    try discriminate.
  intros H1 H2. apply andb_true_iff in H1 as [E1 H1].
  apply andb_true_iff in H2 as [E2 H2].
  apply String.eqb_eq in E1, E2. subst. rewrite String.eqb_refl. simpl.
  eauto.
Qed.

Lemma incomparable_sym (a b : list string) :
  incomparable a b = incomparable b a.
Proof. unfold incomparable. apply andb_comm. Qed.

Lemma incomparable_spec (a b : list string) :
  incomparable a b = true
  <-> is_prefix a b = false /\ is_prefix b a = false.
Proof.
  unfold incomparable. rewrite andb_true_iff, !negb_true_iff. tauto.
Qed.

Lemma get_path_empty (w : list string) (x : pyval) :
  get_path w (VDict []) = Some x -> w = [] /\ x = VDict [].
Proof. destruct w; simpl; [intros [= <-]; auto|discriminate]. Qed.

(** What [set_path] stores is found along the path. *)
Lemma set_path_get (parts : list string) (v : pyval) :
  forall cur cur',
    parts <> [] ->
    set_path parts v cur = OK cur' -> get_path parts cur' = Some v.
Proof.
  induction parts as [|part rest IH]; intros cur cur' Hne; [done|].
  destruct rest as [|r1 rest].
  - rewrite set_path_last. destruct cur; try discriminate.
    intros [= <-]. simpl. now rewrite dict_get_set_eq.
  - rewrite set_path_step. destruct cur as [| | | | |kvs]; try discriminate.
    cbv zeta.
    destruct (set_path (r1 :: rest) v _) as [child'|e] eqn:E; [|discriminate].
    intros [= <-]. cbn [get_path]. rewrite dict_get_set_eq.
    apply (IH _ _ ltac:(discriminate) E).
Qed.

(** A path that neither continues [parts] nor is continued by it leads
    where it led before. *)
Lemma set_path_other (parts : list string) (v : pyval) :
  forall w cur cur',
    is_prefix parts w = false -> is_prefix w parts = false ->
    set_path parts v cur = OK cur' ->
    get_path w cur' = get_path w cur.
Proof.
  induction parts as [|part rest IH]; intros w cur cur' H1 H2; [discriminate|].
  destruct w as [|x w]; [discriminate|].
  destruct rest as [|r1 rest].
  - rewrite set_path_last. destruct cur as [| | | | |kvs]; try discriminate.
    intros [= <-]. simpl in H1 |- *.
    rewrite andb_true_r in H1. now rewrite dict_get_set_ne.
  - rewrite set_path_step. destruct cur as [| | | | |kvs]; try discriminate.
    cbv zeta.
    destruct (set_path (r1 :: rest) v _) as [child'|e] eqn:E; [|discriminate].
    intros [= <-]. cbn [get_path].
    cbn [is_prefix] in H1, H2.
    destruct (String.eqb part x) eqn:Ex.
    + apply String.eqb_eq in Ex. subst x.
      rewrite String.eqb_refl in H2. simpl in H1, H2.
      rewrite dict_get_set_eq.
      rewrite (IH w _ _ H1 H2 E).
      destruct (dict_get kvs part) as [c|]; [reflexivity|].
      destruct w; [discriminate H2|reflexivity].
    + now rewrite dict_get_set_ne.
Qed.

(** Along the path, before its end, [set_path] leaves mappings. *)
Lemma set_path_inner (parts : list string) (v : pyval) :
  forall w cur cur',
    is_prefix w parts = true -> is_prefix parts w = false ->
    set_path parts v cur = OK cur' ->
    exists kvs, get_path w cur' = Some (VDict kvs).
Proof.
  induction parts as [|part rest IH]; intros w cur cur' H1 H2; [discriminate|].
  destruct rest as [|r1 rest].
  - rewrite set_path_last. destruct cur as [| | | | |kvs]; try discriminate.
    intros [= <-]. destruct w as [|x w]; [simpl; eauto|].
    simpl in H1, H2. destruct w; [|rewrite andb_false_r in H1; discriminate].
    rewrite andb_true_r in H1. apply String.eqb_eq in H1. subst.
    rewrite String.eqb_refl in H2. discriminate.
  - rewrite set_path_step. destruct cur as [| | | | |kvs]; try discriminate.
    cbv zeta.
    destruct (set_path (r1 :: rest) v _) as [child'|e] eqn:E; [|discriminate].
    intros [= <-]. destruct w as [|x w]; [simpl; eauto|].
    cbn [is_prefix] in H1, H2. apply andb_true_iff in H1 as [Ex H1].
    apply String.eqb_eq in Ex. subst x.
    rewrite String.eqb_refl in H2. simpl in H2.
    cbn [get_path]. rewrite dict_get_set_eq.
    apply (IH w _ _ H1 H2 E).
Qed.

(** The walk returns when it meets mappings only before its end. *)
Lemma set_path_returns (parts : list string) (v : pyval) :
  forall cur,
    parts <> [] ->
    (forall w x, is_prefix w parts = true -> is_prefix parts w = false ->
                 get_path w cur = Some x -> exists kvs, x = VDict kvs) ->
    exists cur', set_path parts v cur = OK cur'.
Proof.
  induction parts as [|part rest IH]; intros cur Hne Hw; [done|].
  destruct (Hw [] cur eq_refl eq_refl eq_refl) as [kvs ->].
  destruct rest as [|r1 rest].
  - rewrite set_path_last. eauto.
  - rewrite set_path_step. cbv zeta.
    destruct (IH (match dict_get kvs part with
                  | Some c => c
                  | None => VDict []
                  end) ltac:(discriminate)) as [child' E].
    + intros w x H1 H2 Hg.
      destruct (dict_get kvs part) as [c|] eqn:Ec.
      * apply (Hw (part :: w) x).
        -- cbn [is_prefix]. now rewrite String.eqb_refl.
        -- cbn [is_prefix]. now rewrite String.eqb_refl.
        -- cbn [get_path]. now rewrite Ec.
      * apply get_path_empty in Hg as [_ ->]. eauto.
    + rewrite E. simpl. eauto.
Qed.

Lemma leaves_below_empty : leaves_below [] (VDict []).
Proof. intros w x H. apply get_path_empty in H as [_ ->]. eauto. Qed.

Lemma leaves_below_set_path (done : list (list string)) (parts : list string)
    (v cur cur' : pyval) :
  leaves_below done cur ->
  set_path parts v cur = OK cur' ->
  leaves_below (parts :: done) cur'.
Proof.
  intros Hinv E w x Hg.
  destruct (is_prefix parts w) eqn:H1.
  { right. exists parts. split; [now left|exact H1]. }
  destruct (is_prefix w parts) eqn:H2.
  { left. destruct (set_path_inner parts v w cur cur' H2 H1 E) as [kvs Hk].
    rewrite Hk in Hg. injection Hg as <-. eauto. }
  rewrite (set_path_other parts v w cur cur' H1 H2 E) in Hg.
  destruct (Hinv w x Hg) as [Hd|[p [Hp Hpre]]]; [now left|].
  right. exists p. split; [now right|exact Hpre].
Qed.

Lemma reassemble_cons (q : qa) (l : list qa) (cur : pyval) :
  reassemble (q :: l) cur
  = (cur' <- set_path (path_of q) (enumeration_value_id q) cur;;
     reassemble l cur').
Proof. reflexivity. Qed.

Lemma reassemble_returns (l : list qa) :
  forall done cur,
    leaves_below done cur ->
    Forall (fun p => Forall (fun q => incomparable p (path_of q) = true) l)
      done ->
    pairwise_incomparable (map path_of l) = true ->
    exists inst,
      reassemble l cur = OK inst
      /\ Forall (fun q => get_path (path_of q) inst
                          = Some (enumeration_value_id q)) l
      /\ (forall w,
            Forall (fun q => incomparable (path_of q) w = true) l ->
            get_path w inst = get_path w cur).
Proof.
  induction l as [|q l IH]; intros done cur Hinv Hdone Hpw.
  - exists cur. repeat split; auto.
  - cbn [map pairwise_incomparable] in Hpw.
    apply andb_true_iff in Hpw as [Hq Hpw].
    rewrite forallb_forall in Hq.
    destruct (set_path_returns (path_of q) (enumeration_value_id q) cur
                (split_dot_not_nil _)) as [cur1 E1].
    { intros w x H1 H2 Hg.
      destruct (Hinv w x Hg) as [Hd|[p [Hp Hpre]]]; [exact Hd|exfalso].
      rewrite List.Forall_forall in Hdone.
      specialize (Hdone p Hp). apply Forall_cons in Hdone as [Hc _].
      apply incomparable_spec in Hc as [Hc _].
      rewrite (is_prefix_trans _ _ _ Hpre H1) in Hc. discriminate. }
    destruct (IH (path_of q :: done) cur1) as [inst [E [Hall Hrest]]].
    + eapply leaves_below_set_path; eauto.
    + apply List.Forall_cons.
      * apply List.Forall_forall. intros q' Hin. apply Hq.
        now apply in_map.
      * eapply Forall_impl; [exact Hdone|].
        intros p Hp. now apply Forall_cons in Hp as [_ Hp].
    + exact Hpw.
    + exists inst. rewrite reassemble_cons, E1. simpl.
      split; [exact E|]. split.
      * apply List.Forall_cons; [|exact Hall].
        rewrite Hrest.
        -- apply (set_path_get _ _ _ _ (split_dot_not_nil _) E1).
        -- apply List.Forall_forall. intros q' Hin.
           rewrite incomparable_sym. apply Hq. now apply in_map.
      * intros w Hw. apply Forall_cons in Hw as [Hqw Hw].
        rewrite (Hrest w Hw).
        apply incomparable_spec in Hqw as [H1 H2].
        apply (set_path_other _ _ _ _ _ H1 H2 E1).
Qed.

(** X14. When no dotted question id of the paragraph continues another one (or
    repeats it), the reassembly of the answers raises nothing, the object
    built holds the value of every QA at the dotted path of its question id,
    and [_validate_against_schema] returns or raises what the structural
    validator does on that object. *)
Theorem reassembly_holds_every_answer (validate : pyval -> pyval -> option exn)
    (self : FormDefinition) (p : paragraph) :
  pairwise_incomparable (map path_of (qas p)) = true ->
  exists inst,
    reassemble (qas p) (VDict []) = OK inst
    /\ Forall (fun q => get_path (split_dot (question_id q)) inst
                        = Some (enumeration_value_id q)) (qas p)
    /\ _validate_against_schema validate self p
       = match validate inst (schema self) with
         | None => OK tt
         | Some e => Raise e
         end.
Proof.
  intros Hpw.
  destruct (reassemble_returns (qas p) [] (VDict []) leaves_below_empty
              (List.Forall_nil _) Hpw) as [inst [E [Hall _]]].
  exists inst. split; [exact E|]. split; [exact Hall|].
  unfold _validate_against_schema. unfold reassemble in E. rewrite E.
  reflexivity.
Qed.

Lemma reassembly_holds_every_answer_witness :
  exists inst,
    reassemble (qas paragraph_two_branches) (VDict []) = OK inst
    /\ Forall (fun q => get_path (split_dot (question_id q)) inst
                        = Some (enumeration_value_id q))
         (qas paragraph_two_branches)
    /\ _validate_against_schema accept_all empty_FormDefinition
         paragraph_two_branches
       = match accept_all inst (schema empty_FormDefinition) with
         | None => OK tt
         | Some e => Raise e
         end.
Proof.
  apply (reassembly_holds_every_answer accept_all empty_FormDefinition
           paragraph_two_branches).
  vm_compute. reflexivity.
Defined.

(** ** Reports of a dataset are judged one by one *)

Section dataset_independent.
Context (validate : pyval -> pyval -> option exn).




End dataset_independent.


(** ** When the dataset validator returns *)

Section dataset_returns.
Context (validate : pyval -> pyval -> option exn).






End dataset_returns.


(** ** Keys of [possible_options] and registered identifiers *)

Lemma add_declared_keys_within O data base_id dtype ids self self' :
  add_declared O data base_id dtype self = OK self' ->
  keys_within ids base_id self -> keys_within ids base_id self'.
Proof.
  unfold add_declared. intros H [Hids Hkeys].
  apply bind_OK in H as [options [_ H]]. injection H as <-.
  split; [exact Hids|]. intros p Hp.
  destruct (decide (base_id = p)) as [->|Hne]; [now left|].
  rewrite _add_options_lookup_ne in Hp by done. now apply Hkeys.
Qed.

Lemma keys_within_start (self : FormDefinition) (base_id : string) :
  keys_are_ids self -> keys_within (question_ids self) base_id self.
Proof. intros H. split; [reflexivity|]. intros p Hp. right. now apply H. Qed.

Lemma keys_within_finish (self' : FormDefinition) (ids : gset string)
    (base_id : string) :
  keys_within ids base_id self' ->
  keys_are_ids (add_question_id self' base_id).
Proof.
  intros [Hids Hkeys] p Hp. simpl in *. rewrite Hids.
  destruct (Hkeys p Hp) as [->|Hin]; set_solver.
Qed.

Lemma register_keys_are_ids O data base_id self self' :
  register O data base_id self = OK self' ->
  keys_are_ids self -> keys_are_ids self'.
Proof.
  unfold register. destruct (registration_of data) as [ty| |].
  - rewrite register_types_unfold. intros H Hk.
    apply bind_OK in H as [s1 [H1 H]]. injection H as <-.
    apply (keys_within_finish s1 (question_ids self)).
    apply (for_each_preserves _ (keys_within (question_ids self) base_id)
             _ _ _ H1); [|now apply keys_within_start].
    intros x s s' _ Hx. eapply add_declared_keys_within, Hx.
  - rewrite register_enum_unfold. intros H Hk.
    apply bind_OK in H as [s1 [H1 H]]. injection H as <-.
    apply (keys_within_finish s1 (question_ids self)).
    eapply add_declared_keys_within; [exact H1|].
    now apply keys_within_start.
  - now intros [= <-].
Qed.

(** X20. After the construction, every key of [possible_options] is a registered
    identifier: the helper and the enumeration-value stage find a set of
    options for no path outside [question_ids]. *)
Theorem keys_are_question_ids (O : set_iteration) (json : pyval)
    (fd : FormDefinition) (p : string) :
  new_FormDefinition O json = OK fd ->
  is_Some (possible_options fd !! p) ->
  p ∈ question_ids fd.
Proof.
  unfold new_FormDefinition. intros H. apply extract_runs_visits in H.
  revert p. change (keys_are_ids fd).
  apply (for_each_preserves _ keys_are_ids _ _ _ H).
  - intros v s s' _ Hv. eapply register_keys_are_ids, Hv.
  - intros p [s Hs]. simpl in Hs. rewrite lookup_empty in Hs. discriminate.
Qed.

Lemma keys_are_question_ids_witness :
  "nihss"%string ∈ question_ids (built insertion_order schema_two_leaves).
Proof.
  apply (keys_are_question_ids insertion_order schema_two_leaves
           (built insertion_order schema_two_leaves) "nihss").
  - vm_compute. reflexivity.
  - eexists. vm_compute. reflexivity.
Defined.

(** ** What [validate_dataset] lets through *)

Section dataset_raises.
Context (validate : pyval -> pyval -> option exn).


End dataset_raises.


(** ** Times and date-times *)

Section sequence_facts.
Context {A B C : Type}.

(** The first match of three directives with a literal character between
    them, when each directive matches first what is meant for it. *)
Lemma three_first (pa : parser A) (pb : parser B) (pc : parser C)
    (c1 c2 : ascii) (sa sb sc r : string) (a : A) (b : B) (c : C)
    (ta : list (A * string)) (tb : list (B * string))
    (tc : list (C * string)) :
  pa (String.append sa (String c1 (String.append sb (String c2 sc))))
  = (a, String c1 (String.append sb (String c2 sc))) :: ta ->
  pb (String.append sb (String c2 sc)) = (b, String c2 sc) :: tb ->
  pc sc = (c, r) :: tc ->
  exists tl,
    p_bind pa (fun a0 => p_bind (p_lit c1) (fun _ =>
    p_bind pb (fun b0 => p_bind (p_lit c2) (fun _ =>
    p_bind pc (fun c0 => p_ret (a0, b0, c0))))))
      (String.append sa (String c1 (String.append sb (String c2 sc))))
    = ((a, b, c), r) :: tl.
Proof.
  intros Ha Hb Hc.
  assert (H5 : exists rest,
             p_bind pc (fun c0 => p_ret (a, b, c0)) sc
             = ((a, b, c), r) :: rest).
  { eapply p_bind_first; [exact Hc|reflexivity]. }
  destruct H5 as [r5 H5].
  assert (H4 : exists rest,
             p_bind (p_lit c2)
               (fun _ => p_bind pc (fun c0 => p_ret (a, b, c0)))
               (String c2 sc)
             = ((a, b, c), r) :: rest).
  { eapply p_bind_first; [apply p_lit_first|exact H5]. }
  destruct H4 as [r4 H4].
  assert (H3 : exists rest,
             p_bind pb
               (fun b0 => p_bind (p_lit c2)
                  (fun _ => p_bind pc (fun c0 => p_ret (a, b0, c0))))
               (String.append sb (String c2 sc))
             = ((a, b, c), r) :: rest).
  { eapply p_bind_first; [exact Hb|exact H4]. }
  destruct H3 as [r3 H3].
  assert (H2 : exists rest,
             p_bind (p_lit c1)
               (fun _ => p_bind pb
                  (fun b0 => p_bind (p_lit c2)
                     (fun _ => p_bind pc (fun c0 => p_ret (a, b0, c0)))))
               (String c1 (String.append sb (String c2 sc)))
             = ((a, b, c), r) :: rest).
  { eapply p_bind_first; [apply p_lit_first|exact H3]. }
  destruct H2 as [r2 H2].
  eapply p_bind_first; [exact Ha|exact H2].
Qed.
End sequence_facts.

Lemma In_re_H (s r : string) (h : Z) :
  In (h, r) (re_H s) -> exists hs, s = String.append hs r /\ hour_text hs h.
Proof.
  unfold re_H. intros H.
  repeat (apply In_p_alt in H as [H|H]).
  1-2: apply In_p_two in H as [c1 [c2 [d1 [d2 [-> [Hc1 [Hc2 [R1 [R2 ->]]]]]]]]];
    exists (String c1 (String c2 "")); (split; [reflexivity|]);
    constructor; auto; lia.
  apply In_p_digit in H as [c [-> [Hc R]]].
  exists (String c ""). split; [reflexivity|]. now constructor.
Qed.

Lemma In_re_M (s r : string) (m : Z) :
  In (m, r) (re_M s) -> exists ms, s = String.append ms r /\ minute_text ms m.
Proof.
  unfold re_M. intros H.
  repeat (apply In_p_alt in H as [H|H]).
  - apply In_p_two in H as [c1 [c2 [d1 [d2 [-> [Hc1 [Hc2 [R1 [R2 ->]]]]]]]]].
    exists (String c1 (String c2 "")). split; [reflexivity|].
    constructor; auto; lia.
  - apply In_p_digit in H as [c [-> [Hc R]]].
    exists (String c ""). split; [reflexivity|]. now constructor.
Qed.

Lemma In_re_S (s r : string) (sec : Z) :
  In (sec, r) (re_S s) -> exists ss, s = String.append ss r /\ second_text ss sec.
Proof.
  unfold re_S. intros H.
  repeat (apply In_p_alt in H as [H|H]).
  1-2: apply In_p_two in H as [c1 [c2 [d1 [d2 [-> [Hc1 [Hc2 [R1 [R2 ->]]]]]]]]];
    exists (String c1 (String c2 "")); (split; [reflexivity|]);
    constructor; auto; lia.
  apply In_p_digit in H as [c [-> [Hc R]]].
  exists (String c ""). split; [reflexivity|]. now constructor.
Qed.

Lemma In_re_HMS (s r : string) (hms : Z * Z * Z) :
  In (hms, r) (re_HMS s) ->
  exists t, s = String.append t r /\ time_text t hms.
Proof.
  unfold re_HMS. intros H.
  apply In_p_bind in H as [h [r1 [Hh H]]].
  apply In_re_H in Hh as [hs [-> Hhs]].
  apply In_p_bind in H as [[] [r2 [H1 H]]]. apply In_p_lit in H1 as ->.
  apply In_p_bind in H as [m [r3 [Hm H]]].
  apply In_re_M in Hm as [ms [-> Hms]].
  apply In_p_bind in H as [[] [r4 [H2 H]]]. apply In_p_lit in H2 as ->.
  apply In_p_bind in H as [sec [r5 [Hs H]]].
  apply In_re_S in Hs as [ss [-> Hss]].
  destruct H as [[= <- <-]|[]].
  exists (String.append hs (String ":" (String.append ms (String ":" ss)))).
  split; [|now constructor].
  now rewrite !append_assoc, append_cons, !append_assoc, append_cons.
Qed.

(** Before a colon, the text of an hour is matched first as a whole. *)
Lemma re_H_first (hs r : string) (h : Z) :
  hour_text hs h ->
  exists tl, re_H (String.append hs (String ":" r)) = (h, String ":" r) :: tl.
Proof.
  intros [c1 c2 d1 d2 H1 H2 R|c d H].
  - digit_char H1. digit_char H2.
    digit_values d1; digit_values d2; try lia;
      vm_compute; eexists; reflexivity.
  - digit_char H. digit_values d; vm_compute; eexists; reflexivity.
Qed.

Lemma re_M_first (ms r : string) (m : Z) :
  minute_text ms m ->
  exists tl, re_M (String.append ms (String ":" r)) = (m, String ":" r) :: tl.
Proof.
  intros [c1 c2 d1 d2 H1 H2 R|c d H].
  - digit_char H1. digit_char H2.
    digit_values d1; digit_values d2; try lia;
      vm_compute; eexists; reflexivity.
  - digit_char H. digit_values d; vm_compute; eexists; reflexivity.
Qed.

(** At the end of the string, the text of a second is matched first as a
    whole. *)
Lemma re_S_first (ss : string) (s : Z) :
  second_text ss s -> exists tl, re_S ss = (s, ""%string) :: tl.
Proof.
  intros [c1 c2 d1 d2 H1 H2 R|c d H].
  - digit_char H1. digit_char H2.
    digit_values d1; digit_values d2; try lia;
      vm_compute; eexists; reflexivity.
  - digit_char H. digit_values d; vm_compute; eexists; reflexivity.
Qed.

Lemma time_text_first (t : string) (hms : Z * Z * Z) :
  time_text t hms -> exists tl, re_HMS t = (hms, ""%string) :: tl.
Proof.
  intros [hs ms ss h m s Hh Hm Hs].
  destruct (re_H_first hs (String.append ms (String ":" ss)) h Hh) as [t1 E1].
  destruct (re_M_first ms ss m Hm) as [t2 E2].
  destruct (re_S_first ss s Hs) as [t3 E3].
  unfold re_HMS. eapply three_first; eauto.
Qed.

Lemma hour_text_range (hs : string) (h : Z) : hour_text hs h -> 0 <= h <= 23.
Proof.
  intros [c1 c2 d1 d2 H1 H2 R|c d H].
  - apply digit_of_inv in H1 as [? _]. apply digit_of_inv in H2 as [? _]. lia.
  - apply digit_of_inv in H as [? _]. lia.
Qed.

Lemma minute_text_range (ms : string) (m : Z) : minute_text ms m -> 0 <= m <= 59.
Proof.
  intros [c1 c2 d1 d2 H1 H2 R|c d H].
  - apply digit_of_inv in H1 as [? _]. apply digit_of_inv in H2 as [? _]. lia.
  - apply digit_of_inv in H as [? _]. lia.
Qed.

Lemma second_text_range (ss : string) (s : Z) : second_text ss s -> 0 <= s <= 61.
Proof.
  intros [c1 c2 d1 d2 H1 H2 R|c d H].
  - apply digit_of_inv in H1 as [? _]. apply digit_of_inv in H2 as [? _]. lia.
  - apply digit_of_inv in H as [? _]. lia.
Qed.

(** Of the checks on the time of day, only the one on a second of 60 or 61
    can fail after the pattern has matched. *)
Lemma valid_time_text (t : string) (h m s : Z) :
  time_text t (h, m, s) -> (valid_time (h, m, s) = true <-> s <= 59).
Proof.
  intros Ht. inversion Ht as [hs ms ss h' m' s' Hh Hm Hs]; subst.
  apply hour_text_range in Hh. apply minute_text_range in Hm.
  apply second_text_range in Hs.
  unfold valid_time. rewrite !andb_true_iff, !Z.leb_le. lia.
Qed.

Lemma strptime_time_iff (t : string) :
  strptime_time t = true
  <-> exists h m s, time_text t (h, m, s) /\ s <= 59.
Proof.
  unfold strptime_time, full_match. split.
  - destruct (re_HMS t) as [|[[[h m] s] r] tl] eqn:E; [discriminate|].
    destruct r; [|discriminate]. intros Hv.
    assert (H : In ((h, m, s), ""%string) (re_HMS t)) by (rewrite E; now left).
    apply In_re_HMS in H as [t' [-> Ht]]. rewrite append_empty.
    exists h, m, s. split; [exact Ht|].
    now apply (valid_time_text t' h m s Ht).
  - intros [h [m [s [Ht Hs]]]].
    destruct (time_text_first t _ Ht) as [tl E]. rewrite E.
    now apply (valid_time_text t h m s Ht).
Qed.

(** X17. [FormTime().is_valid(var)] accepts exactly the strings that read as an
    hour from 0 to 23, a colon, a minute from 0 to 59, a colon and a second
    from 0 to 59, each written with two digits or with one. A second of 60 or
    61 matches the pattern and is rejected afterwards. The characters of a
    string are single bytes here, so a digit is one of 0 to 9. *)
Theorem FormTime_is_valid_iff (var : pyval) :
  (is_valid FormTime var = true
   <-> exists t h m s, var = VStr t /\ time_text t (h, m, s) /\ s <= 59)
  /\ is_valid FormTime (VStr "7:5:3") = true
  /\ is_valid FormTime (VStr "23:59:60") = false
  /\ is_valid FormTime (VStr "24:00:00") = false.
Proof.
  split; [|repeat split].
  simpl. split.
  - destruct var as [| | |t| |]; try discriminate.
    intros H. apply strptime_time_iff in H as [h [m [s [Ht Hs]]]].
    exists t, h, m, s. auto.
  - intros [t [h [m [s [-> [Ht Hs]]]]]]. apply strptime_time_iff. eauto.
Qed.

(** Before the letter T, in either case, the text of a day is matched first
    as a whole. *)
Lemma re_d_first_T (ds r : string) (d : Z) (sep : ascii) :
  day_text ds d -> sep = "T"%char \/ sep = "t"%char ->
  exists tl, re_d (String.append ds (String sep r)) = (d, String sep r) :: tl.
Proof.
  intros [c1 c2 d1 d2 H1 H2 R|c d' H R|c d' H R] [-> | ->].
  1-2: digit_char H1; digit_char H2;
    digit_values d1; digit_values d2; try lia;
      vm_compute; eexists; reflexivity.
  all: digit_char H; digit_values d'; try lia; vm_compute; eexists; reflexivity.
Qed.

Lemma In_p_lit_T (s r : string) :
  In (tt, r) (p_lit_T s)
  <-> exists sep, s = String sep r /\ (sep = "T"%char \/ sep = "t"%char).
Proof.
  unfold p_lit_T, p_char. split.
  - destruct s as [|c s]; [intros []|].
    destruct (Ascii.eqb c "T" || Ascii.eqb c "t") eqn:E; [|intros []].
    intros [[= <-]|[]]. exists c. split; [reflexivity|].
    apply orb_true_iff in E as [E|E]; apply Ascii.eqb_eq in E; auto.
  - intros [sep [-> [-> | ->]]]; now left.
Qed.

Lemma date_text_first_T (dt r : string) (ymd : Z * Z * Z) (sep : ascii) :
  date_text dt ymd -> sep = "T"%char \/ sep = "t"%char ->
  exists tl,
    re_Ymd (String.append dt (String sep r)) = (ymd, String sep r) :: tl.
Proof.
  intros [ys ms ds y m d Hy Hm Hd] Hsep.
  destruct (re_m_first ms (String.append ds (String sep r)) m Hm) as [t2 E2].
  destruct (re_d_first_T ds r d sep Hd Hsep) as [t3 E3].
  rewrite append_assoc, append_cons, append_assoc, append_cons.
  unfold re_Ymd. eapply three_first; [apply re_Y_first, Hy|exact E2|exact E3].
Qed.

Lemma strptime_datetime_iff (s : string) :
  strptime_datetime s = true
  <-> exists dt t sep ymd h m sec,
        s = String.append dt (String sep t)
        /\ (sep = "T"%char \/ sep = "t"%char)
        /\ date_text dt ymd /\ valid_date ymd = true
        /\ time_text t (h, m, sec) /\ sec <= 59.
Proof.
  unfold strptime_datetime, full_match. split.
  - destruct (re_YmdTHMS s) as [|[[ymd [[h m] sec]] r] tl] eqn:E;
      [discriminate|].
    destruct r; [|discriminate]. intros Hv.
    apply andb_true_iff in Hv as [Hd Ht].
    assert (H : In ((ymd, (h, m, sec)), ""%string) (re_YmdTHMS s))
      by (rewrite E; now left).
    unfold re_YmdTHMS in H.
    apply In_p_bind in H as [ymd' [r1 [H1 H]]].
    apply In_re_Ymd in H1 as [dt [-> Hdt]].
    apply In_p_bind in H as [[] [r2 [H2 H]]].
    apply In_p_lit_T in H2 as [sep [-> Hsep]].
    apply In_p_bind in H as [hms [r3 [H3 H]]].
    apply In_re_HMS in H3 as [t [-> Htt]].
    destruct H as [[= -> -> ->]|[]].
    rewrite append_empty.
    exists dt, t, sep, ymd, h, m, sec. repeat split; auto.
    now apply (valid_time_text t h m sec Htt).
  - intros [dt [t [sep [ymd [h [m [sec [-> [Hsep [Hdt [Hd [Ht Hs]]]]]]]]]]]].
    destruct (date_text_first_T dt t ymd sep Hdt Hsep) as [t1 E1].
    destruct (time_text_first t _ Ht) as [t3 E3].
    assert (H3 : exists rest,
               p_bind re_HMS (fun time => p_ret (ymd, time)) t
               = ((ymd, (h, m, sec)), ""%string) :: rest).
    { eapply p_bind_first; [exact E3|reflexivity]. }
    destruct H3 as [r3 H3].
    assert (H2 : exists rest,
               p_bind p_lit_T
                 (fun _ => p_bind re_HMS (fun time => p_ret (ymd, time)))
                 (String sep t)
               = ((ymd, (h, m, sec)), ""%string) :: rest).
    { eapply p_bind_first; [|exact H3].
      unfold p_lit_T, p_char. destruct Hsep as [-> | ->]; reflexivity. }
    destruct H2 as [r2 H2].
    assert (H1 : exists rest,
               re_YmdTHMS (String.append dt (String sep t))
               = ((ymd, (h, m, sec)), ""%string) :: rest).
    { unfold re_YmdTHMS. eapply p_bind_first; [exact E1|exact H2]. }
    destruct H1 as [r1 H1]. rewrite H1. rewrite Hd. simpl.
    now apply (valid_time_text t h m sec Ht).
Qed.

(** X18. [FormDateTime().is_valid(var)] accepts exactly the strings made of a
    text that reads as a day of the calendar in the way of "%Y-%m-%d", the
    letter T in either case, and a text that reads as a time of day in the
    way of "%H:%M:%S". A space between the two parts, a time zone or a
    fraction of a second are rejected. The characters of a string are single
    bytes here, so a digit is one of 0 to 9. *)
Theorem FormDateTime_is_valid_iff (var : pyval) :
  (is_valid FormDateTime var = true
   <-> exists dt t sep ymd h m sec,
         var = VStr (String.append dt (String sep t))
         /\ (sep = "T"%char \/ sep = "t"%char)
         /\ date_text dt ymd /\ valid_date ymd = true
         /\ time_text t (h, m, sec) /\ sec <= 59)
  /\ is_valid FormDateTime (VStr "2023-2-3t4:5:6") = true
  /\ is_valid FormDateTime (VStr "2023-02-28 10:00:59") = false
  /\ is_valid FormDateTime (VStr "2023-02-28T10:00:59Z") = false
  /\ is_valid FormDateTime (VStr "2023-02-28T10:00:59.5") = false.
Proof.
  split; [|repeat split].
  simpl. split.
  - destruct var as [| | |s| |]; try discriminate.
    intros H.
    apply strptime_datetime_iff
      in H as [dt [t [sep [ymd [h [m [sec [-> H]]]]]]]].
    exists dt, t, sep, ymd, h, m, sec. auto.
  - intros [dt [t [sep [ymd [h [m [sec [-> H]]]]]]]].
    apply strptime_datetime_iff. exists dt, t, sep, ymd, h, m, sec. auto.
Qed.
